(** * binlog-find-time: the range extractor and the binary search driver

    A shallow embedding of [internal/binlog/binlog.go]:
    [GetTimeRangeForBinlog] (the range extractor) and
    [BinarySearchBinlogs] (the search engine with its per-search range
    cache and closest-preceding fallback), followed by the properties
    of the specification that concern them. *)

From Stdlib Require Import ZArith NArith Lia Sorted.
From stdpp Require Import gmap strings list fin_maps sorting.

Local Open Scope Z_scope.

(** ** Go's [time] package, as far as the program uses it *)

Module time.

(** An instant, counted in nanoseconds since the Unix epoch. *)
Definition Time : Type := Z.

(** [time.Unix(sec, nsec)]. *)
Definition Unix (sec nsec : Z) : Time := sec * 1000000000 + nsec.

(** [t.Before(u)] and [t.After(u)]. *)
Definition Before (t u : Time) : bool := t <? u.
Definition After (t u : Time) : bool := u <? t.

(** The zero value [time.Time{}]: January 1, year 1, 00:00 UTC. *)
Definition zero : Time := Unix (-62135596800) 0.

End time.

(** ** The replication protocol seen by the extractor *)

(** The payload of an event.  The library's parser decodes an event
    whose header type is [ROTATE_EVENT] into a [RotateEvent], so the
    header type is read off the payload and the type assertion of
    [ev.Event] to a rotate event cannot fail. *)
Inductive EventBody : Type :=
| RotateEvent (NextLogName : string)
| GenericEvent.

Inductive EventType : Type :=
| ROTATE_EVENT
| OTHER_EVENT.

(** [Timestamp] is [ev.Header.Timestamp], a [uint32]; the program only
    compares it with zero and widens it to [int64]. *)
Record BinlogEvent : Type := mkEvent {
  Timestamp : N;
  Event : EventBody
}.

Definition HeaderEventType (ev : BinlogEvent) : EventType :=
  match Event ev with
  | RotateEvent _ => ROTATE_EVENT
  | GenericEvent => OTHER_EVENT
  end.

Definition EventType_eqb (a b : EventType) : bool :=
  match a, b with
  | ROTATE_EVENT, ROTATE_EVENT => true
  | OTHER_EVENT, OTHER_EVENT => true
  | _, _ => false
  end.

(** What one streaming session delivers.
    - [startSyncOk]: whether [syncer.StartSync] succeeds;
    - [stream]: the events [streamer.GetEvent] returns, in order; once
      they are used up [GetEvent] returns an error (end of file, a
      broken connection, or the context's deadline while blocked);
    - [deadline]: how many times a [select] still takes its [default]
      branch before [ctx.Done()] is observed (the five-second timeout). *)
Record Session : Type := mkSession {
  startSyncOk : bool;
  stream : list BinlogEvent;
  deadline : nat
}.

(** ** GetTimeRangeForBinlog *)

Record TimeRange : Type := mkRange {
  tr_start : time.Time;
  tr_end : time.Time
}.

(** The four [fmt.Errorf] exits of [GetTimeRangeForBinlog]. *)
Inductive ExtractError : Type :=
| ErrStartSync        (* "failed to start sync from ..." *)
| ErrTimeoutFirst     (* "timeout getting first event timestamp for ..." *)
| ErrGetEvent         (* "failed to get event: ..." *)
| ErrNoTimestamp.     (* "no events with timestamp found in ..." *)

Inductive ExtractResult : Type :=
| Ok (r : TimeRange)
| Err (e : ExtractError).

(** Lines 92-102: whether the [continue] of the rotate check is taken
    at iteration [i].  The nesting of the two tests is the source's. *)
Definition rotateContinue (i : nat) (binlogFile : string) (ev : BinlogEvent) : bool :=
  if EventType_eqb (HeaderEventType ev) ROTATE_EVENT then
    match Event ev with
    | RotateEvent nextFile =>
        if negb (String.eqb nextFile binlogFile) then
          (* log.Printf("Detected rotation from %s to %s", ...) *)
          if Nat.eqb i 0 && String.eqb nextFile binlogFile then true else false
        else false
    | GenericEvent => false
    end
  else false.

Inductive FirstPhase : Type :=
| FirstFound (firstTimestamp : N) (rest : list BinlogEvent) (budget : nat)
| FirstNotFound
| FirstError (e : ExtractError).

(** Lines 81-111: the loop [for i := 0; i < 10; i++]; [attempts] is
    [10 - i].  [goto found] is [FirstFound]; falling out of the loop is
    [FirstNotFound]. *)
Fixpoint firstPhase (attempts i : nat) (binlogFile : string)
    (budget : nat) (evs : list BinlogEvent) : FirstPhase :=
  match attempts with
  | O => FirstNotFound
  | S attempts' =>
      match budget with
      | O => FirstError ErrTimeoutFirst
      | S budget' =>
          match evs with
          | [] => FirstError ErrGetEvent
          | ev :: evs' =>
              if rotateContinue i binlogFile ev then
                firstPhase attempts' (S i) binlogFile budget' evs'
              else if (0 <? Timestamp ev)%N then
                FirstFound (Timestamp ev) evs' budget'
              else
                firstPhase attempts' (S i) binlogFile budget' evs'
          end
      end
  end.

(** Lines 127-147: the reader [for i := 0; i < 1000; i++] that keeps the
    timestamp of the last timestamped event; it stops at the deadline,
    at the first [GetEvent] error, or after its 1000 events. *)
Fixpoint lastPhase (n budget : nat) (evs : list BinlogEvent) (lastTimestamp : N) : N :=
  match n with
  | O => lastTimestamp
  | S n' =>
      match budget with
      | O => lastTimestamp
      | S budget' =>
          match evs with
          | [] => lastTimestamp
          | ev :: evs' =>
              lastPhase n' budget' evs'
                (if (0 <? Timestamp ev)%N then Timestamp ev else lastTimestamp)
          end
      end
  end.

Definition GetTimeRangeForBinlog (s : Session) (binlogFile : string) : ExtractResult :=
  if negb (startSyncOk s) then Err ErrStartSync
  else
    match firstPhase 10 0 binlogFile (deadline s) (stream s) with
    | FirstError e => Err e
    | FirstNotFound => Err ErrNoTimestamp
    | FirstFound firstTimestamp rest budget =>
        let lastTimestamp := lastPhase 1000 budget rest firstTimestamp in
        Ok (mkRange (time.Unix (Z.of_N firstTimestamp) 0)
                    (time.Unix (Z.of_N lastTimestamp) 0))
    end.

(** The timestamps the extractor can take into account. *)
Definition positiveTimestamps (evs : list BinlogEvent) : list N :=
  filter (λ t, (0 < t)%N) (map Timestamp evs).

(** ** BinarySearchBinlogs *)

(** The server as the search sees it: the session that the [k]-th
    syncer created during one search obtains when it asks for a file.
    [replication.NewBinlogSyncer] followed by [StartSync] opens it. *)
Definition Server : Type := nat → string → Session.

(** The order in which [for file := range validFiles] visits the keys;
    Go leaves it unspecified, so it is an input of the model. *)
Definition RangeOrder : Type := gset string → list string.

(** The variables of the search loop, together with the list of the
    files for which a syncer was created (oldest first). *)
Record SearchState : Type := mkState {
  st_left : Z;
  st_right : Z;
  st_errorCount : Z;
  st_validFiles : gset string;
  st_timeRanges : gmap string TimeRange;
  st_calls : list string
}.

(** How the model can end: with a value, by an index out of range
    (a Go panic), or by running out of fuel. *)
Inductive Exec (A : Type) : Type :=
| Done (a : A)
| IndexOutOfRange
| OutOfFuel.
Arguments Done {A} a.
Arguments IndexOutOfRange {A}.
Arguments OutOfFuel {A}.

(** How one iteration of [for left <= right] ends. *)
Inductive Flow : Type :=
| Continue (st : SearchState)
| Break (st : SearchState)
| Return (file : string) (exactMatch : bool) (st : SearchState)
| Panic.

(** [binlogFiles[i]] for an [int] index. *)
Definition index (binlogFiles : list string) (i : Z) : option string :=
  if i <? 0 then None else binlogFiles !! Z.to_nat i.

(** [timeRanges[file]]: a missing key reads as the zero value. *)
Definition lookupRange (timeRanges : gmap string TimeRange) (file : string) : TimeRange :=
  default (mkRange time.zero time.zero) (timeRanges !! file).

(** [!targetTime.Before(start) && !targetTime.After(end)]. *)
Definition within (targetTime : time.Time) (r : TimeRange) : bool :=
  negb (time.Before targetTime (tr_start r)) && negb (time.After targetTime (tr_end r)).

(** One call of the extractor through a fresh syncer. *)
Definition extract (srv : Server) (calls : list string) (file : string) : ExtractResult :=
  GetTimeRangeForBinlog (srv (length calls) file) file.

(** Assignments to the variables of the loop. *)
Definition setLeft (st : SearchState) (v : Z) : SearchState :=
  mkState v (st_right st) (st_errorCount st)
    (st_validFiles st) (st_timeRanges st) (st_calls st).

Definition setRight (st : SearchState) (v : Z) : SearchState :=
  mkState (st_left st) v (st_errorCount st)
    (st_validFiles st) (st_timeRanges st) (st_calls st).

(** A failed extraction of [file]: [errorCount++], nothing is stored. *)
Definition noteFailure (st : SearchState) (file : string) : SearchState :=
  mkState (st_left st) (st_right st) (st_errorCount st + 1)
    (st_validFiles st) (st_timeRanges st) (st_calls st ++ [file]).

(** A successful extraction of [file]: lines 236-237. *)
Definition noteSuccess (st : SearchState) (file : string) (r : TimeRange) : SearchState :=
  mkState (st_left st) (st_right st) (st_errorCount st)
    ({[file]} ∪ st_validFiles st) (<[file := r]> (st_timeRanges st))
    (st_calls st ++ [file]).

(** Lines 240-254: the comparison of the target with the stored range. *)
Definition compareStep (targetTime : time.Time) (file : string) (mid : Z)
    (st : SearchState) : Flow :=
  let timeRange := lookupRange (st_timeRanges st) file in
  if within targetTime timeRange then Return file true st
  else if time.Before targetTime (tr_start timeRange) then
    Continue (setRight st (mid - 1))
  else
    Continue (setLeft st (mid + 1)).

(** [mid := left + (right-left)/2]; Go's division truncates. *)
Definition midpoint (st : SearchState) : Z :=
  st_left st + Z.quot (st_right st - st_left st) 2.

(** Lines 206-254: the body of the loop. *)
Definition loopBody (srv : Server) (binlogFiles : list string)
    (targetTime : time.Time) (st : SearchState) : Flow :=
  let mid := midpoint st in
  match index binlogFiles mid with
  | None => Panic
  | Some file =>
      match st_timeRanges st !! file with
      | None =>
          match extract srv (st_calls st) file with
          | Err _ =>
              let st1 := noteFailure st file in
              if st_errorCount st1 >? 3 then Break st1
              else if mid >? 0 then Continue (setRight st1 (mid - 1))
              else Continue (setLeft st1 (mid + 1))
          | Ok r => compareStep targetTime file mid (noteSuccess st file r)
          end
      | Some _ => compareStep targetTime file mid st
      end
  end.

(** Lines 205-255: the loop; [None] is leaving it without a [return]. *)
Fixpoint searchLoop (fuel : nat) (srv : Server) (binlogFiles : list string)
    (targetTime : time.Time) (st : SearchState)
    : Exec (option (string * bool) * SearchState) :=
  if st_left st <=? st_right st then
    match fuel with
    | O => OutOfFuel
    | S fuel' =>
        match loopBody srv binlogFiles targetTime st with
        | Continue st' => searchLoop fuel' srv binlogFiles targetTime st'
        | Break st' => Done (None, st')
        | Return file exactMatch st' => Done (Some (file, exactMatch), st')
        | Panic => IndexOutOfRange
        end
    end
  else Done (None, st).

(** Lines 263-271: one visit of [for file := range validFiles]; the
    accumulator is [(closestFile, closestEnd)]. *)
Definition closestStep (targetTime : time.Time) (timeRanges : gmap string TimeRange)
    (acc : string * time.Time) (file : string) : string * time.Time :=
  let timeRange := lookupRange timeRanges file in
  if negb (time.Before targetTime (tr_end timeRange)) then
    if String.eqb (fst acc) "" || time.After (tr_end timeRange) (snd acc) then
      (file, tr_end timeRange)
    else acc
  else acc.

Definition closestFile (order : RangeOrder) (targetTime : time.Time)
    (validFiles : gset string) (timeRanges : gmap string TimeRange) : string :=
  fst (fold_left (closestStep targetTime timeRanges) (order validFiles) ("", time.zero)).

(** Lines 257-283: what is returned when the loop found no containing file. *)
Definition fallback (order : RangeOrder) (binlogFiles : list string)
    (targetTime : time.Time) (st : SearchState) : Exec (string * bool) :=
  let closest :=
    if (0 <? size (st_validFiles st))%nat then
      let c := closestFile order targetTime (st_validFiles st) (st_timeRanges st) in
      if negb (String.eqb c "") then Some c else None
    else None in
  match closest with
  | Some c => Done (c, false)
  | None =>
      if (0 <? length binlogFiles)%nat then
        match index binlogFiles 0 with
        | Some file => Done (file, false)
        | None => IndexOutOfRange
        end
      else Done ("", false)
  end.

Definition initialState (binlogFiles : list string) : SearchState :=
  mkState 0 (Z.of_nat (length binlogFiles) - 1) 0 ∅ ∅ [].

(** The whole function, returning next to its two results the final
    values of its local variables and the list of extractor calls. *)
Definition searchRun (srv : Server) (order : RangeOrder) (binlogFiles : list string)
    (targetTime : time.Time) : Exec (string * bool * SearchState) :=
  if (length binlogFiles =? 0)%nat then
    Done ("", false, initialState binlogFiles)
  else if (length binlogFiles =? 1)%nat then
    match index binlogFiles 0 with
    | None => IndexOutOfRange
    | Some file =>
        match extract srv [] file with
        | Err _ => Done (file, false, mkState 0 0 0 ∅ ∅ [file])
        | Ok r =>
            let st := noteSuccess (initialState binlogFiles) file r in
            if within targetTime r then Done (file, true, st)
            else Done (file, false, st)
        end
    end
  else
    match searchLoop (length binlogFiles) srv binlogFiles targetTime
            (initialState binlogFiles) with
    | Done (Some (file, exactMatch), st) => Done (file, exactMatch, st)
    | Done (None, st) =>
        match fallback order binlogFiles targetTime st with
        | Done (file, exactMatch) => Done (file, exactMatch, st)
        | IndexOutOfRange => IndexOutOfRange
        | OutOfFuel => OutOfFuel
        end
    | IndexOutOfRange => IndexOutOfRange
    | OutOfFuel => OutOfFuel
    end.

Definition BinarySearchBinlogs (srv : Server) (order : RangeOrder)
    (binlogFiles : list string) (targetTime : time.Time) : Exec (string * bool) :=
  match searchRun srv order binlogFiles targetTime with
  | Done (file, exactMatch, _) => Done (file, exactMatch)
  | IndexOutOfRange => IndexOutOfRange
  | OutOfFuel => OutOfFuel
  end.

(** ** Vocabulary of the properties *)

(** The outcome of the [k]-th extractor call of a search, made for [file]. *)
Definition outcome (srv : Server) (k : nat) (file : string) : ExtractResult :=
  GetTimeRangeForBinlog (srv k file) file.

Definition isErr (r : ExtractResult) : bool :=
  match r with
  | Err _ => true
  | Ok _ => false
  end.

(** How many of the calls [calls], numbered from [k] on, failed. *)
Fixpoint failuresFrom (srv : Server) (k : nat) (calls : list string) : Z :=
  match calls with
  | [] => 0
  | file :: calls' =>
      (if isErr (outcome srv k file) then 1 else 0) + failuresFrom srv (S k) calls'
  end.

(** The end of the range stored for [file]. *)
Definition endIn (timeRanges : gmap string TimeRange) (file : string) : time.Time :=
  tr_end (lookupRange timeRanges file).

Definition endOf (st : SearchState) (file : string) : time.Time :=
  endIn (st_timeRanges st) file.

(** [file] is a cached segment with the latest end at or before the
    target, or no cached segment ends at or before the target and
    [file] is the first segment. *)
Definition ClosestPreceding (binlogFiles : list string) (targetTime : time.Time)
    (st : SearchState) (file : string) : Prop :=
  (file ∈ st_validFiles st ∧ endOf st file ≤ targetTime ∧
   ∀ g, g ∈ st_validFiles st → endOf st g ≤ targetTime → endOf st g ≤ endOf st file)
  ∨
  ((∀ g, g ∈ st_validFiles st → ¬ endOf st g ≤ targetTime) ∧
   binlogFiles !! 0%nat = Some file).

(** The cache holds exactly the ranges of the successful calls, and a
    file whose extraction succeeded is never extracted again. *)
Definition CacheDiscipline (srv : Server) (st : SearchState) : Prop :=
  (∀ k file r, st_calls st !! k = Some file → outcome srv k file = Ok r →
     st_timeRanges st !! file = Some r) ∧
  (∀ file r, st_timeRanges st !! file = Some r →
     ∃ k, st_calls st !! k = Some file ∧ outcome srv k file = Ok r) ∧
  (∀ k k' file, (k < k')%nat → st_calls st !! k = Some file →
     st_calls st !! k' = Some file → isErr (outcome srv k file) = true).

(** [rng j] is the range of the [j]-th segment: an extraction of that
    segment that succeeds yields it. *)
Definition rangesAre (srv : Server) (binlogFiles : list string)
    (rng : nat → TimeRange) : Prop :=
  ∀ k j file r, binlogFiles !! j = Some file → outcome srv k file = Ok r → r = rng j.

(** Every extraction of the [j]-th segment succeeds and yields [rng j]. *)
Definition alwaysExtracts (srv : Server) (binlogFiles : list string)
    (rng : nat → TimeRange) : Prop :=
  ∀ k j file, binlogFiles !! j = Some file → outcome srv k file = Ok (rng j).

(** The ranges of [n] segments are non-overlapping and monotonically
    increasing: start_0 <= end_0 < start_1 <= end_1 < ... *)
Definition rangesIncreasing (n : nat) (rng : nat → TimeRange) : Prop :=
  (∀ j, (j < n)%nat → tr_start (rng j) ≤ tr_end (rng j)) ∧
  (∀ i j, (i < j < n)%nat → tr_end (rng i) < tr_start (rng j)).

(** The list is in the order of [sort.Strings]. *)
Definition sortedByName (binlogFiles : list string) : Prop :=
  ∀ i j a b, (i < j)%nat → binlogFiles !! i = Some a → binlogFiles !! j = Some b →
    String.leb a b = true.

(** The number of extractions that failed during one search. *)
Definition searchFailures (srv : Server) (order : RangeOrder)
    (binlogFiles : list string) (targetTime : time.Time) : Z :=
  match searchRun srv order binlogFiles targetTime with
  | Done (_, _, st) => failuresFrom srv 0 (st_calls st)
  | IndexOutOfRange => 0
  | OutOfFuel => 0
  end.

(** The number of indices still between [left] and [right]. *)
Definition loopMeasure (st : SearchState) : nat :=
  Z.to_nat (st_right st - st_left st + 1).

Definition InBounds (binlogFiles : list string) (st : SearchState) : Prop :=
  0 ≤ st_left st ∧ st_right st < Z.of_nat (length binlogFiles).

(** What the local variables record about the calls made so far. *)
Definition Tracked (srv : Server) (binlogFiles : list string) (st : SearchState) : Prop :=
  st_validFiles st = dom (st_timeRanges st) ∧
  (∀ file, file ∈ st_calls st → file ∈ binlogFiles) ∧
  CacheDiscipline srv st.

(** The search stopped on a failed call. *)
Definition stoppedOnFailure (srv : Server) (st : SearchState) : Prop :=
  ∃ calls file e, st_calls st = calls ++ [file] ∧ extract srv calls file = Err e.

(** [errorCount] counts the failed calls. *)
Definition Counted (srv : Server) (st : SearchState) : Prop :=
  st_errorCount st = failuresFrom srv 0 (st_calls st).

(** The invariant of the loop and what holds when it is left. *)
Definition LoopInv (srv : Server) (binlogFiles : list string) (st : SearchState) : Prop :=
  InBounds binlogFiles st ∧ Tracked srv binlogFiles st ∧ Counted srv st ∧
  0 ≤ st_errorCount st ≤ 3.

Definition LoopPost (srv : Server) (binlogFiles : list string) (targetTime : time.Time)
    (out : option (string * bool) * SearchState) : Prop :=
  Tracked srv binlogFiles out.2 ∧ Counted srv out.2 ∧
  0 ≤ st_errorCount out.2 ≤ 4 ∧
  (3 < st_errorCount out.2 → out.1 = None ∧ stoppedOnFailure srv out.2) ∧
  (∀ file exactMatch, out.1 = Some (file, exactMatch) →
     exactMatch = true ∧ file ∈ binlogFiles ∧
     within targetTime (lookupRange (st_timeRanges out.2) file) = true).

(** Every cached range is the range of a segment of the list. *)
Definition CacheAgrees (binlogFiles : list string) (rng : nat → TimeRange)
    (st : SearchState) : Prop :=
  ∀ g r, st_timeRanges st !! g = Some r →
    g ∈ binlogFiles ∧ ∀ j, binlogFiles !! j = Some g → r = rng j.

(** A map iteration order visits every key once. *)
Definition validOrder (order : RangeOrder) : Prop :=
  ∀ s : gset string, order s ≡ₚ elements s.

(** ** Sample servers and streams *)

(** A segment whose stream is a format description event followed by
    two timestamped events. *)
Definition rangeSession (s e : N) : Session :=
  mkSession true
    [mkEvent 0 GenericEvent; mkEvent s GenericEvent; mkEvent e GenericEvent] 2000.

Definition failingSession : Session := mkSession false [] 0.

Fixpoint tableSession (tbl : list (string * Session)) (file : string) : Session :=
  match tbl with
  | [] => failingSession
  | (f, s) :: tbl' => if String.eqb f file then s else tableSession tbl' file
  end.

Definition tableServer (tbl : list (string * Session)) : Server :=
  λ _ file, tableSession tbl file.

Definition failingServer : Server := λ _ _, failingSession.

(** The scenario of the specification. *)
Definition files3 : list string := ["seg1"; "seg2"; "seg3"].

Definition server3 : Server :=
  tableServer [("seg1", rangeSession 100 200); ("seg2", rangeSession 201 300);
               ("seg3", rangeSession 301 400)].

Definition range3 (j : nat) : TimeRange :=
  match j with
  | 0%nat => mkRange (time.Unix 100 0) (time.Unix 200 0)
  | 1%nat => mkRange (time.Unix 201 0) (time.Unix 300 0)
  | _ => mkRange (time.Unix 301 0) (time.Unix 400 0)
  end.

(** The same server when the third segment cannot be read. *)
Definition serverNoThird : Server :=
  tableServer [("seg1", rangeSession 100 200); ("seg2", rangeSession 201 300)].

(** A list whose second segment carries the empty name. *)
Definition filesEmptyName : list string := ["a"; ""].

Definition serverEmptyName : Server :=
  tableServer [("a", rangeSession 10 20); ("", rangeSession 30 40)].

(** A stream whose second timestamp is smaller than its first. *)
Definition decreasingSession : Session :=
  mkSession true [mkEvent 200 GenericEvent; mkEvent 100 GenericEvent] 2000.

(** Ten events without a timestamp. *)
Definition silentSession : Session :=
  mkSession true (replicate 10 (mkEvent 0 GenericEvent)) 2000.

(** A rotate event naming the segment itself, then a timestamped event. *)
Definition rotateSession : Session :=
  mkSession true
    [mkEvent 0 (RotateEvent "mysql-bin.000001"); mkEvent 0 GenericEvent;
     mkEvent 1700000000 GenericEvent; mkEvent 1700000300 GenericEvent] 2000.

(** A server whose first session fails and whose later ones deliver
    the range [10..20]. *)
Definition flakyServer : Server :=
  λ k _, if (k =? 0)%nat then failingSession else rangeSession 10 20.

(** The local variables at the end of the search of [filesEmptyName]
    on [serverEmptyName] for the target 100. *)
Definition emptyNameFinal : SearchState :=
  setLeft
    (noteSuccess
       (setLeft
          (noteSuccess (initialState filesEmptyName) "a"
             (mkRange (time.Unix 10 0) (time.Unix 20 0))) 1)
       "" (mkRange (time.Unix 30 0) (time.Unix 40 0))) 2.

(** The local variables at the end of the search of ["a"; "a"] on
    [flakyServer] for the target 15. *)
Definition flakyFinal : SearchState :=
  noteSuccess (setLeft (noteFailure (initialState ["a"; "a"]) "a") 1)
    "a" (mkRange (time.Unix 10 0) (time.Unix 20 0)).

(** The first event of a stream that carries a timestamp, with its position. *)
Definition firstTimestamped (evs : list BinlogEvent) : option (nat * BinlogEvent) :=
  list_find (λ ev, (0 < Timestamp ev)%N) evs.

(** The session that delivers only the first [n] events of [s]. *)
Definition truncated (n : nat) (s : Session) : Session :=
  mkSession (startSyncOk s) (take n (stream s)) (deadline s).

(** ** GetBinlogFiles *)

(** One row of [SHOW BINARY LOGS] as [rows.Scan] reads it: a file name
    and a size, or a scan failure. *)
Inductive Row : Type :=
| RowOk (filename : string) (size : Z)
| RowScanError.

#[global] Instance Row_eq_dec : EqDecision Row.
Proof. solve_decision. Defined.

(** What the database does for one listing.
    - [openOk]: whether [sql.Open] succeeds;
    - [queryOk]: whether [db.Query] succeeds;
    - [rows]: the rows [rows.Next] delivers before it returns false;
    - [rowsErr]: whether [rows.Err] reports an error after the loop. *)
Record BinaryLogs : Type := mkLogs {
  openOk : bool;
  queryOk : bool;
  rows : list Row;
  rowsErr : bool
}.

(** The four [fmt.Errorf] exits of [GetBinlogFiles]. *)
Inductive ListError : Type :=
| ErrConnect     (* "failed to connect to MySQL: ..." *)
| ErrQuery       (* "failed to execute SHOW BINARY LOGS: ..." *)
| ErrScan        (* "failed to scan row: ..." *)
| ErrRows.       (* "error iterating rows: ..." *)

Inductive ListResult : Type :=
| Listed (binlogFiles : list string)
| ListFailed (e : ListError).

(** Lines 43-51: the loop [for rows.Next()]; [None] is the return on a
    scan failure. *)
Fixpoint scanRows (rs : list Row) (binlogFiles : list string) : option (list string) :=
  match rs with
  | [] => Some binlogFiles
  | RowOk filename _ :: rs' => scanRows rs' (binlogFiles ++ [filename])
  | RowScanError :: _ => None
  end.

(** The order of Go's strings: byte-wise lexicographic. *)
Definition stringLe (a b : string) : Prop := String.leb a b = true.

#[global] Instance stringLe_dec : RelDecision stringLe.
Proof. intros a b. unfold stringLe. apply _. Defined.

(** [sort.Strings]: the list in increasing order.  The order being
    total and antisymmetric, the sorted list does not depend on the
    sorting algorithm. *)
Definition sortStrings (l : list string) : list string := merge_sort stringLe l.

Definition GetBinlogFiles (db : BinaryLogs) : ListResult :=
  if negb (openOk db) then ListFailed ErrConnect
  else if negb (queryOk db) then ListFailed ErrQuery
  else
    match scanRows (rows db) [] with
    | None => ListFailed ErrScan
    | Some binlogFiles =>
        if rowsErr db then ListFailed ErrRows
        else Listed (sortStrings binlogFiles)
    end.

(** The file names of the rows that scan. *)
Definition rowNames (rs : list Row) : list string :=
  omap (λ row, match row with RowOk filename _ => Some filename | RowScanError => None end) rs.

(** A listing of the scenario of the specification, out of order. *)
Definition logs3 : BinaryLogs :=
  mkLogs true true [RowOk "seg2" 1024; RowOk "seg3" 512; RowOk "seg1" 2048] false.

(** Five events without a timestamp and a deadline that leaves room
    for three reads. *)
Definition timedOutSession : Session :=
  mkSession true (replicate 5 (mkEvent 0 GenericEvent)) 3.

(** A stream that ends after one event without a timestamp. *)
Definition shortSession : Session :=
  mkSession true [mkEvent 0 GenericEvent] 2000.

(** A listing whose second row does not scan. *)
Definition logsBroken : BinaryLogs :=
  mkLogs true true [RowOk "seg1" 2048; RowScanError; RowOk "seg3" 512] false.

(** A listing delivered in order. *)
Definition logsSorted : BinaryLogs :=
  mkLogs true true [RowOk "seg1" 2048; RowOk "seg2" 1024; RowOk "seg3" 512] false.

(** ** The earlier version of the package

    The repository keeps an earlier version of the two functions: the
    extractor reads without bound on attempts, events or time, and the
    search has no cache, no error count and answers with the file
    before the point where the loop ended. *)

Module legacy.

(** Lines 72-86: [for { ... }] until the first timestamped event; a
    [GetEvent] error ([None]) ends the function.  The stream of a
    [Session] ends with an error; nothing else bounds the loop. *)
Fixpoint firstLoop (evs : list BinlogEvent) : option (N * list BinlogEvent) :=
  match evs with
  | [] => None
  | ev :: evs' =>
      if (0 <? Timestamp ev)%N then Some (Timestamp ev, evs') else firstLoop evs'
  end.

(** Lines 90-101: [for { ... }] until [GetEvent] fails. *)
Fixpoint lastLoop (evs : list BinlogEvent) (lastTimestamp : N) : N :=
  match evs with
  | [] => lastTimestamp
  | ev :: evs' =>
      lastLoop evs' (if (0 <? Timestamp ev)%N then Timestamp ev else lastTimestamp)
  end.

(** The context is [context.Background()]: the deadline of the session
    is not consulted. *)
Definition GetTimeRangeForBinlog (s : Session) (binlogFile : string) : ExtractResult :=
  if negb (startSyncOk s) then Err ErrStartSync
  else
    match firstLoop (stream s) with
    | None => Err ErrGetEvent
    | Some (firstTimestamp, rest) =>
        let lastTimestamp := lastLoop rest firstTimestamp in
        Ok (mkRange (time.Unix (Z.of_N firstTimestamp) 0)
                    (time.Unix (Z.of_N lastTimestamp) 0))
    end.

(** One call of the extractor; the search passes its one syncer. *)
Definition extract (srv : Server) (calls : list string) (file : string) : ExtractResult :=
  GetTimeRangeForBinlog (srv (length calls) file) file.

(** The loop keeps [left] and [right] only; of a [SearchState] it uses
    these two and the list of calls. *)
Definition noteCall (st : SearchState) (file : string) : SearchState :=
  mkState (st_left st) (st_right st) (st_errorCount st)
    (st_validFiles st) (st_timeRanges st) (st_calls st ++ [file]).

(** Lines 134-160: the body of the loop. *)
Definition loopBody (srv : Server) (binlogFiles : list string)
    (targetTime : time.Time) (st : SearchState) : Flow :=
  let mid := midpoint st in
  match index binlogFiles mid with
  | None => Panic
  | Some file =>
      let st1 := noteCall st file in
      match extract srv (st_calls st) file with
      | Err _ =>
          if mid >? 0 then Continue (setRight st1 (mid - 1))
          else Continue (setLeft st1 (mid + 1))
      | Ok r =>
          if within targetTime r then Return file true st1
          else if time.Before targetTime (tr_start r) then
            Continue (setRight st1 (mid - 1))
          else
            Continue (setLeft st1 (mid + 1))
      end
  end.

Fixpoint searchLoop (fuel : nat) (srv : Server) (binlogFiles : list string)
    (targetTime : time.Time) (st : SearchState)
    : Exec (option (string * bool) * SearchState) :=
  if st_left st <=? st_right st then
    match fuel with
    | O => OutOfFuel
    | S fuel' =>
        match loopBody srv binlogFiles targetTime st with
        | Continue st' => searchLoop fuel' srv binlogFiles targetTime st'
        | Break st' => Done (None, st')
        | Return file exactMatch st' => Done (Some (file, exactMatch), st')
        | Panic => IndexOutOfRange
        end
    end
  else Done (None, st).

(** Lines 162-167: the file before the point where the loop ended. *)
Definition fallback (binlogFiles : list string) (st : SearchState) : Exec (string * bool) :=
  if st_left st >? 0 then
    match index binlogFiles (st_left st - 1) with
    | Some file => Done (file, false)
    | None => IndexOutOfRange
    end
  else
    match index binlogFiles 0 with
    | Some file => Done (file, false)
    | None => IndexOutOfRange
    end.

Definition searchRun (srv : Server) (binlogFiles : list string)
    (targetTime : time.Time) : Exec (string * bool * SearchState) :=
  if (length binlogFiles =? 0)%nat then
    Done ("", false, initialState binlogFiles)
  else if (length binlogFiles =? 1)%nat then
    match index binlogFiles 0 with
    | None => IndexOutOfRange
    | Some file =>
        let st := noteCall (initialState binlogFiles) file in
        match extract srv [] file with
        | Err _ => Done (file, false, st)
        | Ok r =>
            if within targetTime r then Done (file, true, st)
            else Done (file, false, st)
        end
    end
  else
    match searchLoop (length binlogFiles) srv binlogFiles targetTime
            (initialState binlogFiles) with
    | Done (Some (file, exactMatch), st) => Done (file, exactMatch, st)
    | Done (None, st) =>
        match fallback binlogFiles st with
        | Done (file, exactMatch) => Done (file, exactMatch, st)
        | IndexOutOfRange => IndexOutOfRange
        | OutOfFuel => OutOfFuel
        end
    | IndexOutOfRange => IndexOutOfRange
    | OutOfFuel => OutOfFuel
    end.

Definition BinarySearchBinlogs (srv : Server) (binlogFiles : list string)
    (targetTime : time.Time) : Exec (string * bool) :=
  match searchRun srv binlogFiles targetTime with
  | Done (file, exactMatch, _) => Done (file, exactMatch)
  | IndexOutOfRange => IndexOutOfRange
  | OutOfFuel => OutOfFuel
  end.

End legacy.

(** The servers [srv] and [srv'] answer the extractor calls [calls]
    alike: the [k]-th call, made for [calls !! k], has the same outcome. *)
Definition sameCalls (srv srv' : Server) (calls : list string) : Prop :=
  ∀ k file, calls !! k = Some file → outcome srv' k file = outcome srv k file.




(** The cache holds [r] for [a] and nothing else. *)
Definition holdsOnly (a : string) (r : TimeRange) (st : SearchState) : Prop :=
  st_timeRanges st = {[a := r]} ∧ st_validFiles st = {[a]}.



(** A server whose first session delivers the range [10..20] and
    whose later sessions deliver [100..200]. *)
Definition changingServer : Server :=
  λ k _, if (k =? 0)%nat then rangeSession 10 20 else rangeSession 100 200.

(** What the earlier search obtains from the server [srv]: it passes
    one syncer to every extraction, and the earlier extractor never
    closes it, so the first [StartSync] opens a stream and every later
    one fails because the sync is still running (the reason for the
    syncer per file at binlog.go:210). *)
Definition reusedSyncer (srv : Server) : Server :=
  λ k file, if (k =? 0)%nat then srv k file else failingSession.

(** * Properties of the range extractor *)

Section Extractor.

Implicit Types (ev : BinlogEvent) (evs : list BinlogEvent) (s : Session).

(** C10. The [continue] that is meant to skip a first rotate event
    pointing at the segment itself is never taken: its test
    [i == 0 && nextFile == binlogFile] sits inside the branch where
    [nextFile != binlogFile]. *)
Theorem rotate_continue_unreachable (i : nat) (binlogFile : string) ev :
  rotateContinue i binlogFile ev = false.
Proof.
  unfold rotateContinue.
  destruct (Event ev) as [nextFile|]; [|by destruct (EventType_eqb _ _)].
  destruct (EventType_eqb _ _); [|done].
  destruct (String.eqb nextFile binlogFile) eqn:Hsame; simpl; [done|].
  by rewrite andb_false_r.
Qed.

(** The rotate check never diverts the first loop. *)
Lemma rotateContinue_never (i : nat) (binlogFile : string) ev :
  rotateContinue i binlogFile ev = false.
Proof.
  unfold rotateContinue.
  destruct (Event ev) as [nextFile|]; [|by destruct (EventType_eqb _ _)].
  destruct (EventType_eqb _ _); [|done].
  destruct (String.eqb_spec nextFile binlogFile) as [Hsame | Hother]; [done|].
  simpl. by rewrite andb_false_r.
Qed.

Lemma firstPhase_found attempts i binlogFile budget evs ts rest budget' :
  firstPhase attempts i binlogFile budget evs = FirstFound ts rest budget' →
  (0 < ts)%N ∧ positiveTimestamps evs = ts :: positiveTimestamps rest.
Proof.
  revert i budget evs.
  induction attempts as [|attempts IH]; intros i budget evs; simpl; [done|].
  destruct budget as [|budget]; [done|].
  destruct evs as [|ev evs]; [done|].
  rewrite rotateContinue_never.
  destruct (0 <? Timestamp ev)%N eqn:Hpos.
  - intros [= <- <- <-]. apply N.ltb_lt in Hpos. split; [done|].
    unfold positiveTimestamps. simpl. by rewrite filter_cons_True.
  - intros Hrec. apply IH in Hrec as [Hts Heq]. split; [done|].
    apply N.ltb_ge in Hpos.
    unfold positiveTimestamps in *. simpl.
    rewrite filter_cons_False; [done | lia].
Qed.

Lemma lastPhase_origin n budget evs last :
  lastPhase n budget evs last = last ∨
  lastPhase n budget evs last ∈ positiveTimestamps evs.
Proof.
  revert budget evs last.
  induction n as [|n IH]; intros budget evs last; simpl; [by left|].
  destruct budget as [|budget]; [by left|].
  destruct evs as [|ev evs]; [by left|].
  unfold positiveTimestamps. simpl.
  destruct (0 <? Timestamp ev)%N eqn:Hpos.
  - apply N.ltb_lt in Hpos. rewrite filter_cons_True by done.
    right. destruct (IH budget evs (Timestamp ev)) as [-> | Hin].
    + apply list_elem_of_here.
    + by apply list_elem_of_further.
  - apply N.ltb_ge in Hpos. rewrite filter_cons_False by lia.
    apply IH.
Qed.

Lemma sorted_head_le (x : N) (l : list N) y :
  Sorted N.le (x :: l) → y ∈ l → (x ≤ y)%N.
Proof.
  intros Hsorted Hin.
  apply Sorted_StronglySorted in Hsorted; [|intros a b c; apply N.le_trans].
  apply StronglySorted_inv in Hsorted as [_ Hall].
  rewrite Forall_forall in Hall. by apply Hall.
Qed.

(** C8, as amended. When the timestamped events of the stream carry
    their timestamps in non-decreasing order, a range returned by
    [GetTimeRangeForBinlog] has its start at or before its end. *)
Theorem range_start_le_end s (binlogFile : string) (r : TimeRange) :
  Sorted N.le (positiveTimestamps (stream s)) →
  GetTimeRangeForBinlog s binlogFile = Ok r →
  tr_start r ≤ tr_end r.
Proof.
  intros Hsorted. unfold GetTimeRangeForBinlog.
  destruct (negb (startSyncOk s)); [done|].
  destruct (firstPhase _ _ _ _ _) as [ts rest budget| |e] eqn:Hfirst; [|done..].
  apply firstPhase_found in Hfirst as [_ Heq].
  rewrite Heq in Hsorted.
  assert ((ts ≤ lastPhase 1000 budget rest ts)%N) as Hle.
  { destruct (lastPhase_origin 1000 budget rest ts) as [-> | Hin]; [lia|].
    by eapply sorted_head_le. }
  cbv zeta. revert Hle. generalize (lastPhase 1000 budget rest ts) as last.
  intros last Hle [= <-]. cbn [tr_start tr_end].
  unfold time.Unix. lia.
Qed.

Lemma firstPhase_silent attempts i binlogFile budget evs :
  (attempts ≤ budget)%nat →
  (attempts ≤ length evs)%nat →
  (∀ ev, ev ∈ take attempts evs → Timestamp ev = 0%N) →
  firstPhase attempts i binlogFile budget evs = FirstNotFound.
Proof.
  revert i budget evs.
  induction attempts as [|attempts IH]; intros i budget evs Hb Hl Hzero; simpl; [done|].
  destruct budget as [|budget]; [lia|].
  destruct evs as [|ev evs]; [simpl in Hl; lia|].
  rewrite rotateContinue_never.
  rewrite (Hzero ev) by (simpl; apply list_elem_of_here). simpl.
  apply IH; [lia | simpl in Hl; lia |].
  intros ev' Hin. apply Hzero. simpl. by apply list_elem_of_further.
Qed.

Lemma firstPhase_finds attempts i binlogFile budget evs (k : nat) ev :
  (k < attempts)%nat → (k < budget)%nat →
  evs !! k = Some ev → (0 < Timestamp ev)%N →
  ∃ ts rest budget',
    firstPhase attempts i binlogFile budget evs = FirstFound ts rest budget'.
Proof.
  revert i budget evs k.
  induction attempts as [|attempts IH]; intros i budget evs k Ha Hb Hk Hpos; [lia|].
  simpl. destruct budget as [|budget]; [lia|].
  destruct evs as [|ev0 evs]; [done|].
  rewrite rotateContinue_never.
  destruct (0 <? Timestamp ev0)%N eqn:Hpos0; [by eauto|].
  destruct k as [|k].
  - simpl in Hk. injection Hk as ->. apply N.ltb_lt in Hpos. congruence.
  - simpl in Hk. apply (IH (S i) budget evs k); [lia | lia | done | done].
Qed.

(** C9. When the stream opens, the deadline leaves room for ten reads,
    ten events are read and none of them carries a positive timestamp,
    [GetTimeRangeForBinlog] fails with "no events with timestamp
    found"; and when one of the first ten events carries a positive
    timestamp and is reached before the deadline, it returns a range. *)
Theorem first_phase_bound s (binlogFile : string) :
  startSyncOk s = true →
  ((10 ≤ deadline s)%nat → (10 ≤ length (stream s))%nat →
   (∀ ev, ev ∈ take 10 (stream s) → Timestamp ev = 0%N) →
   GetTimeRangeForBinlog s binlogFile = Err ErrNoTimestamp)
  ∧
  (∀ (k : nat) ev, (k < 10)%nat → (k < deadline s)%nat →
   stream s !! k = Some ev → (0 < Timestamp ev)%N →
   ∃ r, GetTimeRangeForBinlog s binlogFile = Ok r).
Proof.
  intros Hopen. unfold GetTimeRangeForBinlog. rewrite Hopen. simpl negb. cbv iota.
  split.
  - intros Hd Hl Hzero. by rewrite firstPhase_silent.
  - intros k ev Hk Hd Hev Hpos.
    destruct (firstPhase_finds 10 0 binlogFile (deadline s) (stream s) k ev)
      as (ts & rest & budget' & ->); [done..|].
    eauto.
Qed.

End Extractor.

(** * Properties of the search engine *)

Section Loop.

Variables (srv : Server) (binlogFiles : list string) (targetTime : time.Time).

Implicit Types (st : SearchState) (file : string) (r : TimeRange).

Lemma index_in_range (i : Z) :
  0 ≤ i < Z.of_nat (length binlogFiles) →
  ∃ file, index binlogFiles i = Some file ∧ binlogFiles !! Z.to_nat i = Some file.
Proof.
  intros Hi. unfold index.
  destruct (i <? 0) eqn:Hneg; [apply Z.ltb_lt in Hneg; lia|].
  destruct (lookup_lt_is_Some_2 binlogFiles (Z.to_nat i)) as [file Hfile]; [lia|].
  eauto.
Qed.

Lemma midpoint_between st :
  st_left st ≤ st_right st → st_left st ≤ midpoint st ≤ st_right st.
Proof.
  intros Hle. unfold midpoint.
  rewrite Z.quot_div_nonneg by lia.
  pose proof (Z.div_pos (st_right st - st_left st) 2 ltac:(lia) ltac:(lia)).
  pose proof (Z.div_le_upper_bound (st_right st - st_left st) 2
                (st_right st - st_left st) ltac:(lia) ltac:(lia)).
  lia.
Qed.

Lemma within_spec t r :
  within t r = true ↔ tr_start r ≤ t ≤ tr_end r.
Proof.
  unfold within, time.Before, time.After.
  rewrite andb_true_iff, !negb_true_iff, !Z.ltb_ge. lia.
Qed.

(** The three ways the comparison with the stored range can go. *)
Lemma compareStep_cases file (mid : Z) st :
  let r := lookupRange (st_timeRanges st) file in
  (tr_start r ≤ targetTime ≤ tr_end r ∧
   compareStep targetTime file mid st = Return file true st)
  ∨ (targetTime < tr_start r ∧
     compareStep targetTime file mid st = Continue (setRight st (mid - 1)))
  ∨ (tr_start r ≤ targetTime ∧ tr_end r < targetTime ∧
     compareStep targetTime file mid st = Continue (setLeft st (mid + 1))).
Proof.
  intros r. unfold compareStep. fold r.
  destruct (within targetTime r) eqn:Hin.
  - left. by apply within_spec in Hin.
  - assert (¬ (tr_start r ≤ targetTime ≤ tr_end r)) as Hout.
    { rewrite <- within_spec. congruence. }
    unfold time.Before.
    destruct (targetTime <? tr_start r) eqn:Hlt.
    + apply Z.ltb_lt in Hlt. right; left. done.
    + apply Z.ltb_ge in Hlt. right; right. split; [done | split; [lia | done]].
Qed.

(** The three ways an iteration can start: the range is cached, it is
    extracted, or its extraction fails. *)
Lemma loopBody_cases st :
  InBounds binlogFiles st → st_left st ≤ st_right st →
  ∃ file, binlogFiles !! Z.to_nat (midpoint st) = Some file ∧
    ((∃ r, st_timeRanges st !! file = Some r ∧
        loopBody srv binlogFiles targetTime st
        = compareStep targetTime file (midpoint st) st)
     ∨ (∃ r, st_timeRanges st !! file = None ∧
          extract srv (st_calls st) file = Ok r ∧
          loopBody srv binlogFiles targetTime st
          = compareStep targetTime file (midpoint st) (noteSuccess st file r))
     ∨ (∃ e, st_timeRanges st !! file = None ∧
          extract srv (st_calls st) file = Err e ∧
          loopBody srv binlogFiles targetTime st
          = if st_errorCount (noteFailure st file) >? 3 then Break (noteFailure st file)
            else if midpoint st >? 0
                 then Continue (setRight (noteFailure st file) (midpoint st - 1))
                 else Continue (setLeft (noteFailure st file) (midpoint st + 1)))).
Proof.
  intros [Hlo Hhi] Hle.
  pose proof (midpoint_between st Hle) as Hmid.
  destruct (index_in_range (midpoint st)) as (file & Hidx & Hfile); [lia|].
  exists file. split; [done|].
  unfold loopBody. cbv zeta. rewrite Hidx.
  destruct (st_timeRanges st !! file) as [r|] eqn:Hcache.
  - left. eauto.
  - destruct (extract srv (st_calls st) file) as [r|e] eqn:Hext.
    + right; left. eauto.
    + right; right. eauto.
Qed.

(** The proof rule of the loop: an invariant kept by every iteration
    that continues, with a measure that decreases, carries to the exit. *)
Lemma searchLoop_rule (I : SearchState → Prop)
    (Q : option (string * bool) * SearchState → Prop) :
  (∀ st, I st → st_left st ≤ st_right st →
     match loopBody srv binlogFiles targetTime st with
     | Continue st' => I st' ∧ (loopMeasure st' < loopMeasure st)%nat
     | Break st' => Q (None, st')
     | Return file exactMatch st' => Q (Some (file, exactMatch), st')
     | Panic => False
     end) →
  (∀ st, I st → st_right st < st_left st → Q (None, st)) →
  ∀ fuel st, I st → (loopMeasure st ≤ fuel)%nat →
    ∃ out, searchLoop fuel srv binlogFiles targetTime st = Done out ∧ Q out.
Proof.
  intros Hstep Hexit fuel.
  induction fuel as [|fuel IH]; intros st HI Hfuel; simpl.
  - destruct (st_left st <=? st_right st) eqn:Hcmp.
    + apply Z.leb_le in Hcmp. unfold loopMeasure in Hfuel. lia.
    + apply Z.leb_gt in Hcmp. eauto.
  - destruct (st_left st <=? st_right st) eqn:Hcmp.
    + apply Z.leb_le in Hcmp. specialize (Hstep st HI Hcmp).
      destruct (loopBody srv binlogFiles targetTime st) as [st'|st'|file b st'|];
        [|by eauto..|done].
      destruct Hstep as [HI' Hdec]. apply IH; [done | lia].
    + apply Z.leb_gt in Hcmp. eauto.
Qed.


Lemma failuresFrom_snoc (k : nat) (calls : list string) file :
  failuresFrom srv k (calls ++ [file])
  = failuresFrom srv k calls
    + (if isErr (outcome srv (k + length calls) file) then 1 else 0).
Proof.
  revert k. induction calls as [|c calls IH]; intros k; simpl.
  - rewrite Nat.add_0_r. lia.
  - rewrite IH. replace (S k + length calls)%nat with (k + S (length calls))%nat by lia.
    lia.
Qed.

Lemma Tracked_setRight st (v : Z) :
  Tracked srv binlogFiles st → Tracked srv binlogFiles (setRight st v).
Proof. done. Qed.

Lemma Tracked_setLeft st (v : Z) :
  Tracked srv binlogFiles st → Tracked srv binlogFiles (setLeft st v).
Proof. done. Qed.

Lemma Tracked_noteFailure st file e :
  Tracked srv binlogFiles st → file ∈ binlogFiles →
  st_timeRanges st !! file = None →
  extract srv (st_calls st) file = Err e →
  Tracked srv binlogFiles (noteFailure st file).
Proof.
  intros (Hdom & Hcalls & Hsucc & Hcached & Hagain) Hin Hmiss Hext.
  unfold extract in Hext. fold (outcome srv (length (st_calls st)) file) in Hext.
  repeat split; simpl.
  - done.
  - intros f [Hf | ->%list_elem_of_singleton]%elem_of_app; auto.
  - intros k f r [[_ Hk] | [-> ->]]%lookup_snoc_Some Hok; [by eauto|].
    congruence.
  - intros f r Hf. destruct (Hcached f r Hf) as (k & Hk & Hok).
    exists k. split; [|done]. by apply lookup_app_l_Some.
  - intros k k' f Hlt [[_ Hk] | [-> Hf]]%lookup_snoc_Some
      [[Hlen Hk'] | [-> Hf']]%lookup_snoc_Some; [by eauto | subst f | lia..].
    destruct (outcome srv k file) as [r|] eqn:Hok; [|done].
    specialize (Hsucc k file r Hk Hok). congruence.
Qed.

Lemma Tracked_noteSuccess st file r :
  Tracked srv binlogFiles st → file ∈ binlogFiles →
  st_timeRanges st !! file = None →
  extract srv (st_calls st) file = Ok r →
  Tracked srv binlogFiles (noteSuccess st file r).
Proof.
  intros (Hdom & Hcalls & Hsucc & Hcached & Hagain) Hin Hmiss Hext.
  unfold extract in Hext. fold (outcome srv (length (st_calls st)) file) in Hext.
  repeat split; simpl.
  - by rewrite dom_insert_L, Hdom.
  - intros f [Hf | ->%list_elem_of_singleton]%elem_of_app; auto.
  - intros k f r' [[_ Hk] | [-> ->]]%lookup_snoc_Some Hok.
    + specialize (Hsucc k f r' Hk Hok).
      rewrite lookup_insert_ne; [done | congruence].
    + rewrite lookup_insert_eq. congruence.
  - intros f r' Hf. destruct (decide (f = file)) as [-> | Hne].
    + rewrite lookup_insert_eq in Hf. injection Hf as <-.
      exists (length (st_calls st)). split; [|done].
      by rewrite lookup_app_r, Nat.sub_diag by lia.
    + rewrite lookup_insert_ne in Hf by done.
      destruct (Hcached f r' Hf) as (k & Hk & Hok).
      exists k. split; [|done]. by apply lookup_app_l_Some.
  - intros k k' f Hlt [[_ Hk] | [-> Hf]]%lookup_snoc_Some
      [[Hlen Hk'] | [-> Hf']]%lookup_snoc_Some; [by eauto | subst f | lia..].
    destruct (outcome srv k file) as [r'|] eqn:Hok; [|done].
    specialize (Hsucc k file r' Hk Hok). congruence.
Qed.

Lemma Counted_noteFailure st file e :
  Counted srv st → extract srv (st_calls st) file = Err e →
  Counted srv (noteFailure st file).
Proof.
  unfold Counted, extract. fold (outcome srv (length (st_calls st)) file).
  intros Hcount Hext. simpl. rewrite failuresFrom_snoc, Hcount. simpl. by rewrite Hext.
Qed.

Lemma Counted_noteSuccess st file r :
  Counted srv st → extract srv (st_calls st) file = Ok r →
  Counted srv (noteSuccess st file r).
Proof.
  unfold Counted, extract. fold (outcome srv (length (st_calls st)) file).
  intros Hcount Hext. simpl. rewrite failuresFrom_snoc, Hcount. simpl. rewrite Hext. simpl. lia.
Qed.

Lemma Tracked_valid_subset st file :
  Tracked srv binlogFiles st → file ∈ st_validFiles st → file ∈ binlogFiles.
Proof.
  intros (Hdom & Hcalls & _ & Hcached & _) Hin.
  rewrite Hdom in Hin. apply elem_of_dom in Hin as [r Hr].
  destruct (Hcached file r Hr) as (k & Hk & _).
  apply Hcalls. by eapply list_elem_of_lookup_2.
Qed.


Lemma compareStep_post file (mid : Z) st :
  LoopInv srv binlogFiles st → file ∈ binlogFiles →
  st_left st ≤ mid ≤ st_right st →
  match compareStep targetTime file mid st with
  | Continue st' =>
      LoopInv srv binlogFiles st' ∧ (loopMeasure st' < loopMeasure st)%nat
  | Break st' => LoopPost srv binlogFiles targetTime (None, st')
  | Return f b st' => LoopPost srv binlogFiles targetTime (Some (f, b), st')
  | Panic => False
  end.
Proof.
  intros ([Hlo Hhi] & Htr & Hcount & Hec) Hin Hmid.
  destruct (compareStep_cases file mid st) as [[Hw ->] | [[Hlt ->] | (Hge & Hgt & ->)]].
  - split; [done|]. split; [done|]. split; [simpl; lia|]. split; [simpl; lia|].
    intros f b [= <- <-]. simpl. by rewrite within_spec.
  - split; [|unfold loopMeasure; simpl; lia].
    split; [split; simpl; lia|]. done.
  - split; [|unfold loopMeasure; simpl; lia].
    split; [split; simpl; lia|]. done.
Qed.

(** Every iteration keeps the bookkeeping of the loop exact. *)
Lemma loopBody_tracked st :
  LoopInv srv binlogFiles st → st_left st ≤ st_right st →
  match loopBody srv binlogFiles targetTime st with
  | Continue st' =>
      LoopInv srv binlogFiles st' ∧ (loopMeasure st' < loopMeasure st)%nat
  | Break st' => LoopPost srv binlogFiles targetTime (None, st')
  | Return f b st' => LoopPost srv binlogFiles targetTime (Some (f, b), st')
  | Panic => False
  end.
Proof.
  intros HI Hle. pose proof HI as ([Hlo Hhi] & Htr & Hcount & Hec).
  pose proof (midpoint_between st Hle) as Hmid.
  destruct (loopBody_cases st) as (file & Hfile & Hcases); [done..|].
  assert (file ∈ binlogFiles) as Hin by (by eapply list_elem_of_lookup_2).
  destruct Hcases as [(r & Hr & ->) | [(r & Hmiss & Hext & ->) | (e & Hmiss & Hext & ->)]].
  - by apply compareStep_post.
  - pose proof (Tracked_noteSuccess st file r Htr Hin Hmiss Hext) as Htr'.
    pose proof (Counted_noteSuccess st file r Hcount Hext) as Hcount'.
    pose proof (compareStep_post file (midpoint st) (noteSuccess st file r)) as Hpost.
    destruct (compareStep targetTime file (midpoint st) (noteSuccess st file r));
      apply Hpost; done.
  - pose proof (Tracked_noteFailure st file e Htr Hin Hmiss Hext) as Htr'.
    pose proof (Counted_noteFailure st file e Hcount Hext) as Hcount'.
    simpl st_errorCount.
    destruct (st_errorCount st + 1 >? 3) eqn:Hmany.
    + apply Z.gtb_lt in Hmany.
      split; [done|]. split; [done|]. split; [simpl; lia|]. split; [|done].
      intros _. split; [done|]. by exists (st_calls st), file, e.
    + assert (st_errorCount st + 1 ≤ 3) as Hfew.
      { destruct (Z.gtb_spec (st_errorCount st + 1) 3); [done | lia]. }
      destruct (midpoint st >? 0).
      * split; [|unfold loopMeasure; simpl; lia].
        split; [split; simpl; lia|]. split; [done|]. split; [done | simpl; lia].
      * split; [|unfold loopMeasure; simpl; lia].
        split; [split; simpl; lia|]. split; [done|]. split; [done | simpl; lia].
Qed.

Lemma searchLoop_tracked (fuel : nat) st :
  LoopInv srv binlogFiles st → (loopMeasure st ≤ fuel)%nat →
  ∃ out, searchLoop fuel srv binlogFiles targetTime st = Done out ∧
         LoopPost srv binlogFiles targetTime out.
Proof.
  apply (searchLoop_rule (LoopInv srv binlogFiles) (LoopPost srv binlogFiles targetTime)).
  - apply loopBody_tracked.
  - intros st' (_ & Htr & Hcount & Hec) _.
    split; [done|]. split; [done|]. split; [simpl; lia|]. split; [simpl; lia | done].
Qed.

End Loop.

Section Fallback.

Variables (targetTime : time.Time) (timeRanges : gmap string TimeRange).

Implicit Types (file g : string) (acc : string * time.Time) (l : list string).

Lemma closestStep_cases acc file :
  (endIn timeRanges file ≤ targetTime ∧ (acc.1 = "" ∨ acc.2 < endIn timeRanges file) ∧
   closestStep targetTime timeRanges acc file = (file, endIn timeRanges file))
  ∨ ((targetTime < endIn timeRanges file ∨ (acc.1 ≠ "" ∧ endIn timeRanges file ≤ acc.2)) ∧
     closestStep targetTime timeRanges acc file = acc).
Proof.
  unfold closestStep, time.Before, time.After. cbv zeta.
  fold (endIn timeRanges file).
  destruct (targetTime <? endIn timeRanges file) eqn:Hq; simpl.
  { apply Z.ltb_lt in Hq. right. auto. }
  apply Z.ltb_ge in Hq.
  destruct (String.eqb_spec acc.1 "") as [Hempty | Hname]; simpl.
  { left. auto. }
  destruct (acc.2 <? endIn timeRanges file) eqn:Hlater.
  - apply Z.ltb_lt in Hlater. left. auto.
  - apply Z.ltb_ge in Hlater. right. auto.
Qed.

(** The loop over the valid files keeps its start value or picks a
    visited file. *)
Lemma closest_fold_member l acc :
  (fold_left (closestStep targetTime timeRanges) l acc).1 = acc.1 ∨
  (fold_left (closestStep targetTime timeRanges) l acc).1 ∈ l.
Proof.
  revert acc. induction l as [|file l IH]; intros acc; simpl; [by left|].
  destruct (IH (closestStep targetTime timeRanges acc file)) as [-> | Hin].
  - destruct (closestStep_cases acc file) as [(_ & _ & ->) | (_ & ->)].
    + right. apply list_elem_of_here.
    + by left.
  - right. by apply list_elem_of_further.
Qed.

(** When no visited file has the empty name, the loop computes a
    latest end among the ends at or before the target. *)
Lemma closest_fold_latest l :
  "" ∉ l →
  let res := fold_left (closestStep targetTime timeRanges) l ("", time.zero) in
  (res.1 = "" ∧ ∀ g, g ∈ l → targetTime < endIn timeRanges g)
  ∨ (res.1 ∈ l ∧ res.2 = endIn timeRanges res.1 ∧ endIn timeRanges res.1 ≤ targetTime ∧
     ∀ g, g ∈ l → endIn timeRanges g ≤ targetTime → endIn timeRanges g ≤ res.2).
Proof.
  induction l as [|file l IH] using rev_ind; intros Hne res.
  { left. split; [done|]. intros g Hg. by apply elem_of_nil in Hg. }
  apply not_elem_of_app in Hne as [Hne Hfile].
  rewrite list_elem_of_singleton in Hfile.
  specialize (IH Hne). cbv zeta in IH.
  subst res. rewrite fold_left_app. simpl.
  set (res := fold_left (closestStep targetTime timeRanges) l ("", time.zero)) in *.
  destruct (closestStep_cases res file) as [(Hq & Hbetter & ->) | (Hworse & ->)]; simpl.
  - right. split; [apply elem_of_app; right; apply list_elem_of_here|].
    split; [done|]. split; [done|].
    intros g [Hg | ->%list_elem_of_singleton]%elem_of_app Hgq; [|lia].
    destruct IH as [[_ Hnone] | (Hin & _ & _ & Hmax)].
    + specialize (Hnone g Hg). lia.
    + specialize (Hmax g Hg Hgq).
      destruct Hbetter as [Hempty | Hlt]; [|lia].
      rewrite Hempty in Hin. done.
  - destruct IH as [[Hempty Hnone] | (Hin & Hend & Hq & Hmax)].
    + left. split; [done|].
      intros g [Hg | ->%list_elem_of_singleton]%elem_of_app; [by apply Hnone|].
      destruct Hworse as [Hlt | [Hname _]]; [done | congruence].
    + right. split; [apply elem_of_app; by left|].
      split; [done|]. split; [done|].
      intros g [Hg | ->%list_elem_of_singleton]%elem_of_app Hgq; [by apply Hmax|].
      destruct Hworse as [Hlt | [_ Hle]]; [lia | done].
Qed.

(** When one visited file, not named by the empty string, ends at or
    before the target and strictly after every other visited file, the
    loop picks it. *)
Lemma closest_fold_strict g l acc :
  g ≠ "" → endIn timeRanges g ≤ targetTime →
  (∀ h, h ∈ l → h ≠ g → endIn timeRanges h < endIn timeRanges g) →
  (g ∈ l ∧ (acc.1 = "" ∨ acc.2 < endIn timeRanges g)) ∨ acc = (g, endIn timeRanges g) →
  fold_left (closestStep targetTime timeRanges) l acc = (g, endIn timeRanges g).
Proof.
  intros Hname Hq. revert acc.
  induction l as [|h l IH]; intros acc Hlt Hacc; simpl.
  { destruct Hacc as [[Hin _] | ->]; [by apply elem_of_nil in Hin | done]. }
  apply IH; [intros h' Hh'; apply Hlt; by apply list_elem_of_further|].
  destruct (closestStep_cases acc h) as [(Hhq & Hbetter & ->) | (Hworse & ->)].
  - destruct (decide (h = g)) as [-> | Hne]; [by right|].
    pose proof (Hlt h (list_elem_of_here _ _) Hne) as Hhg.
    destruct Hacc as [[Hin Hacc] | ->].
    + left. apply elem_of_cons in Hin as [-> | Hin]; [done|]. simpl. auto.
    + simpl in Hbetter. destruct Hbetter; [done | lia].
  - destruct Hacc as [[Hin Hacc] | ->]; [|by right].
    left. split; [|done].
    apply elem_of_cons in Hin as [-> | Hin]; [|done].
    destruct Hworse as [? | [? ?]]; [lia|]. destruct Hacc; [done | lia].
Qed.

End Fallback.

Section Top.

Variables (srv : Server) (order : RangeOrder) (binlogFiles : list string)
  (targetTime : time.Time).

Implicit Types (st : SearchState) (file : string).

Lemma validOrder_elem_of (s : gset string) file :
  validOrder order → file ∈ order s ↔ file ∈ s.
Proof. intros Horder. rewrite (Horder s). apply elem_of_elements. Qed.

Lemma index_head file (l : list string) : index (file :: l) 0 = Some file.
Proof. done. Qed.

(** The two exits of the fallback: the closest file, or the first one. *)
Lemma fallback_cases st :
  binlogFiles ≠ [] →
  ∃ file, fallback order binlogFiles targetTime st = Done (file, false) ∧
    (((0 < size (st_validFiles st))%nat ∧ file ≠ "" ∧
      closestFile order targetTime (st_validFiles st) (st_timeRanges st) = file)
     ∨ ((size (st_validFiles st) = 0%nat ∨
         closestFile order targetTime (st_validFiles st) (st_timeRanges st) = "") ∧
        binlogFiles !! 0%nat = Some file)).
Proof.
  intros Hne. destruct binlogFiles as [|first rest]; [done|].
  unfold fallback. simpl length. rewrite index_head.
  destruct (0 <? size (st_validFiles st))%nat eqn:Hsize.
  - apply Nat.ltb_lt in Hsize.
    destruct (String.eqb_spec
                (closestFile order targetTime (st_validFiles st) (st_timeRanges st)) "")
      as [Hempty | Hname]; simpl.
    + exists first. split; [done|]. right. auto.
    + eexists. split; [done|]. left. auto.
  - apply Nat.ltb_ge in Hsize. simpl. exists first. split; [done|]. right.
    split; [left; lia | done].
Qed.

Lemma fallback_member st file (exactMatch : bool) :
  validOrder order → binlogFiles ≠ [] →
  (∀ g, g ∈ st_validFiles st → g ∈ binlogFiles) →
  fallback order binlogFiles targetTime st = Done (file, exactMatch) →
  file ∈ binlogFiles.
Proof.
  intros Horder Hne Hsub Hfb.
  destruct (fallback_cases st Hne) as (f & Heq & Hcases).
  rewrite Heq in Hfb. injection Hfb as <- <-.
  destruct Hcases as [(_ & Hname & Hclosest) | [_ Hfirst]].
  - unfold closestFile in Hclosest.
    destruct (closest_fold_member targetTime (st_timeRanges st)
                (order (st_validFiles st)) ("", time.zero)) as [Hinit | Hin].
    + simpl in Hinit. congruence.
    + rewrite Hclosest in Hin. apply Hsub. by apply (validOrder_elem_of _ f Horder).
  - by eapply list_elem_of_lookup_2.
Qed.

Lemma fallback_closest st file (exactMatch : bool) :
  validOrder order → binlogFiles ≠ [] → "" ∉ st_validFiles st →
  fallback order binlogFiles targetTime st = Done (file, exactMatch) →
  ClosestPreceding binlogFiles targetTime st file.
Proof.
  intros Horder Hne Hnames Hfb.
  destruct (fallback_cases st Hne) as (f & Heq & Hcases).
  rewrite Heq in Hfb. injection Hfb as <- <-.
  assert ("" ∉ order (st_validFiles st)) as Hnames'.
  { by rewrite (validOrder_elem_of _ _ Horder). }
  pose proof (closest_fold_latest targetTime (st_timeRanges st)
                (order (st_validFiles st)) Hnames') as Hfold.
  cbv zeta in Hfold. fold (closestFile order targetTime (st_validFiles st) (st_timeRanges st)) in Hfold.
  unfold ClosestPreceding, endOf.
  destruct Hcases as [(_ & Hname & Hclosest) | [[Hsize | Hclosest] Hfirst]].
  - rewrite Hclosest in Hfold.
    destruct Hfold as [[Hempty _] | (Hin & Hend & Hq & Hmax)]; [done|].
    left. split; [by apply (validOrder_elem_of _ _ Horder)|]. split; [done|].
    intros g Hg Hgq. rewrite <- Hend. apply Hmax; [|done].
    by apply (validOrder_elem_of _ _ Horder).
  - right. split; [|done]. intros g Hg.
    apply size_empty_iff in Hsize. rewrite Hsize in Hg. by apply not_elem_of_empty in Hg.
  - right. split; [|done]. intros g Hg Hgq.
    rewrite Hclosest in Hfold.
    destruct Hfold as [[_ Hnone] | (Hin & _)].
    + apply (validOrder_elem_of _ _ Horder) in Hg. specialize (Hnone g Hg). lia.
    + apply (validOrder_elem_of _ _ Horder) in Hin. done.
Qed.


Lemma Tracked_initial : Tracked srv binlogFiles (initialState binlogFiles).
Proof.
  split; [simpl; by rewrite dom_empty_L|]. split; [intros f Hf; by apply elem_of_nil in Hf|].
  split; [|split]; simpl.
  - intros k f r Hk. by rewrite lookup_nil in Hk.
  - intros f r Hf. by rewrite lookup_empty in Hf.
  - intros k k' f _ Hk. by rewrite lookup_nil in Hk.
Qed.

Lemma LoopInv_initial :
  binlogFiles ≠ [] → LoopInv srv binlogFiles (initialState binlogFiles).
Proof.
  intros Hne. split; [|split; [apply Tracked_initial | split; [done | simpl; lia]]].
  split; simpl; lia.
Qed.

Lemma loopMeasure_initial :
  binlogFiles ≠ [] → loopMeasure (initialState binlogFiles) = length binlogFiles.
Proof. intros Hne. unfold loopMeasure. simpl. lia. Qed.

End Top.

(** The whole search: it always returns, and its bookkeeping is exact. *)
Lemma searchRun_tracked (srv : Server) (order : RangeOrder)
    (binlogFiles : list string) (targetTime : time.Time) :
  ∃ file exactMatch st,
    searchRun srv order binlogFiles targetTime = Done (file, exactMatch, st) ∧
    Tracked srv binlogFiles st ∧
    0 ≤ failuresFrom srv 0 (st_calls st) ≤ 4 ∧
    (3 < failuresFrom srv 0 (st_calls st) →
       exactMatch = false ∧ stoppedOnFailure srv st ∧
       fallback order binlogFiles targetTime st = Done (file, false)) ∧
    (exactMatch = true →
       file ∈ binlogFiles ∧
       within targetTime (lookupRange (st_timeRanges st) file) = true) ∧
    (exactMatch = false →
       (binlogFiles = [] ∧ file = "") ∨ binlogFiles = [file] ∨
       ((2 ≤ length binlogFiles)%nat ∧
        fallback order binlogFiles targetTime st = Done (file, false))).
Proof.
  destruct binlogFiles as [|f0 [|f1 rest]] eqn:Hfiles.
  - exists "", false, (initialState []). split; [done|].
    split; [apply Tracked_initial|].
    simpl. split; [lia|]. split; [lia|]. split; [done|]. intros _. by left.
  - unfold searchRun. cbn [length Nat.eqb]. rewrite index_head.
    destruct (extract srv [] f0) as [r|e] eqn:Hext.
    + pose proof (Tracked_initial srv [f0]) as Hinit.
      assert (Tracked srv [f0] (noteSuccess (initialState [f0]) f0 r)) as Htr.
      { apply Tracked_noteSuccess; [done | apply list_elem_of_here | done | done]. }
      assert (failuresFrom srv 0 [f0] = 0) as Hcount.
      { simpl. unfold extract in Hext. simpl in Hext. unfold outcome. rewrite Hext. done. }
      destruct (within targetTime r) eqn:Hw.
      * eexists _, _, _. split; [done|]. split; [done|].
        change (st_calls _) with [f0]. rewrite Hcount.
        split; [lia|]. split; [lia|]. split; [|done].
        intros _. split; [apply list_elem_of_here|].
        simpl. unfold lookupRange. by rewrite lookup_insert_eq.
      * eexists _, _, _. split; [done|]. split; [done|].
        change (st_calls _) with [f0]. rewrite Hcount.
        split; [lia|]. split; [lia|]. split; [done|]. intros _. right. by left.
    + eexists _, _, _. split; [done|].
      assert (failuresFrom srv 0 [f0] = 1) as Hcount.
      { simpl. unfold extract in Hext. simpl in Hext. unfold outcome. rewrite Hext. done. }
      split.
      { split; [simpl; by rewrite dom_empty_L|].
        split; [intros f ->%list_elem_of_singleton; apply list_elem_of_here|].
        split; [|split]; simpl.
        - intros [|k] f r Hk Hok; [|done]. injection Hk as <-.
          unfold extract in Hext. simpl in Hext. unfold outcome in Hok. congruence.
        - intros f r Hf. by rewrite lookup_empty in Hf.
        - intros [|k] [|k'] f Hlt Hk Hk'; try done; lia. }
      change (st_calls _) with [f0]. rewrite Hcount.
      split; [lia|]. split; [lia|]. split; [done|]. intros _. right. by left.
  - assert (binlogFiles ≠ []) as Hne by (by rewrite Hfiles).
    rewrite <- Hfiles.
    destruct (searchLoop_tracked srv binlogFiles targetTime (length binlogFiles)
                (initialState binlogFiles))
      as ([out st] & Hloop & Htr & Hcount & Hec & Hstop & Hret).
    { by apply LoopInv_initial. }
    { by rewrite loopMeasure_initial. }
    simpl in Htr, Hcount, Hec, Hstop, Hret. unfold Counted in Hcount.
    assert ((2 ≤ length binlogFiles)%nat) as Hlen by (rewrite Hfiles; simpl; lia).
    unfold searchRun.
    destruct (length binlogFiles) as [|[|n]] eqn:Hn; [lia | lia |].
    cbn [Nat.eqb]. rewrite Hloop. rewrite Hcount in Hec, Hstop.
    destruct out as [[file b]|].
    + destruct (Hret file b eq_refl) as (-> & Hin & Hw).
      exists file, true, st. split; [done|]. split; [done|]. split; [done|].
      split; [|split; [done|done]].
      intros Hmany. by destruct (Hstop Hmany).
    + destruct (fallback_cases order binlogFiles targetTime st Hne) as (file & Hfb & _).
      exists file, false, st. rewrite Hfb. split; [done|]. split; [done|]. split; [done|].
      split; [|split; [done|]].
      * intros Hmany. destruct (Hstop Hmany) as [_ Hs]. done.
      * intros _. right; right. done.
Qed.


Lemma searchRun_single (srv : Server) (order : RangeOrder) (S : string)
    (targetTime : time.Time) :
  searchRun srv order [S] targetTime
  = match outcome srv 0 S with
    | Ok r => Done (S, within targetTime r, noteSuccess (initialState [S]) S r)
    | Err _ => Done (S, false, mkState 0 0 0 ∅ ∅ [S])
    end.
Proof.
  unfold searchRun. cbn [length Nat.eqb]. rewrite index_head.
  unfold extract, outcome. cbn [length].
  destruct (GetTimeRangeForBinlog (srv 0%nat S) S) as [r|e]; [|done].
  by destruct (within targetTime r).
Qed.

Lemma leb_empty (a : string) : String.leb a "" = true → a = "".
Proof. by destruct a. Qed.

(** C4. For a list with the single segment [S]: when the extraction
    of [S] succeeds the search returns [S] with [exactMatch] true
    exactly when the target lies in [[start, end]] (bounds included),
    and [S] with [exactMatch] false otherwise; when the extraction
    fails it returns [S] with [exactMatch] false. *)
Theorem single_segment (srv : Server) (order : RangeOrder) (S : string)
    (targetTime : time.Time) :
  BinarySearchBinlogs srv order [S] targetTime
  = Done (S, match GetTimeRangeForBinlog (srv 0%nat S) S with
             | Ok r => bool_decide (tr_start r ≤ targetTime ≤ tr_end r)
             | Err _ => false
             end).
Proof.
  unfold BinarySearchBinlogs. rewrite searchRun_single. unfold outcome.
  destruct (GetTimeRangeForBinlog (srv 0%nat S) S) as [r|e]; [|done].
  destruct (within targetTime r) eqn:Hw.
  - apply within_spec in Hw. by rewrite bool_decide_eq_true_2.
  - rewrite bool_decide_eq_false_2; [done|].
    rewrite <- within_spec. congruence.
Qed.

(** C5, as amended. The search returns the empty name with
    [exactMatch] false when the list is empty; for a non-empty list the
    returned name is an element of the list; hence, for a list none of
    whose names is the empty string, the empty name is returned if and
    only if the list is empty. *)
Theorem sentinel_and_membership (srv : Server) (order : RangeOrder)
    (binlogFiles : list string) (targetTime : time.Time) :
  validOrder order →
  ∃ file exactMatch,
    BinarySearchBinlogs srv order binlogFiles targetTime = Done (file, exactMatch) ∧
    (binlogFiles = [] → file = "" ∧ exactMatch = false) ∧
    (binlogFiles ≠ [] → file ∈ binlogFiles) ∧
    ("" ∉ binlogFiles → (file = "" ↔ binlogFiles = [])).
Proof.
  intros Horder.
  destruct (searchRun_tracked srv order binlogFiles targetTime)
    as (file & b & st & Hrun & Htr & _ & _ & Hexact & Happrox).
  exists file, b. split; [unfold BinarySearchBinlogs; by rewrite Hrun|].
  assert (binlogFiles ≠ [] → file ∈ binlogFiles) as Hmember.
  { intros Hne. destruct b.
    - by destruct Hexact.
    - destruct Happrox as [[Hnil _] | [Hone | [_ Hfb]]]; [done.. | | ].
      + rewrite Hone. apply list_elem_of_here.
      + eapply fallback_member; [done | done | | done].
        intros g. by apply (Tracked_valid_subset srv binlogFiles st). }
  assert (binlogFiles = [] → file = "" ∧ b = false) as Hempty.
  { intros Hnil. destruct b.
    - destruct Hexact as [Hin _]; [done|]. rewrite Hnil in Hin.
      by apply elem_of_nil in Hin.
    - destruct Happrox as [[_ ->] | [Hone | [Hlen _]]]; [done.. | | ].
      + congruence.
      + rewrite Hnil in Hlen. simpl in Hlen. lia. }
  split; [done|]. split; [done|].
  intros Hnames. split.
  - intros ->. destruct binlogFiles as [|f l]; [done|].
    exfalso. apply Hnames, Hmember. done.
  - intros Hnil. by destruct (Hempty Hnil).
Qed.

(** C2, as amended. For a non-empty list none of whose names is the
    empty string: when the search returns without an exact containment,
    it returns, among the segments whose range was cached, one with the
    latest end at or before the target; when no cached segment ends at
    or before the target it returns the first segment. *)
Theorem fallback_closest_preceding (srv : Server) (order : RangeOrder)
    (binlogFiles : list string) (targetTime : time.Time) :
  validOrder order → "" ∉ binlogFiles → binlogFiles ≠ [] →
  ∃ file exactMatch st,
    searchRun srv order binlogFiles targetTime = Done (file, exactMatch, st) ∧
    (exactMatch = false → ClosestPreceding binlogFiles targetTime st file).
Proof.
  intros Horder Hnames Hne.
  destruct (searchRun_tracked srv order binlogFiles targetTime)
    as (file & b & st & Hrun & Htr & _ & _ & _ & Happrox).
  exists file, b, st. split; [done|]. intros ->.
  assert (∀ g, g ∈ st_validFiles st → g ∈ binlogFiles) as Hsub.
  { intros g. by apply (Tracked_valid_subset srv binlogFiles st). }
  destruct Happrox as [[Hnil _] | [Hone | [_ Hfb]]]; [done.. | | ].
  - assert (∀ g, g ∈ st_validFiles st → g = file) as Honly.
    { intros g Hg%Hsub. rewrite Hone in Hg. by apply list_elem_of_singleton in Hg. }
    destruct (decide (file ∈ st_validFiles st ∧ endOf st file ≤ targetTime))
      as [[Hin Hq] | Hnot].
    + left. split; [done|]. split; [done|].
      intros g Hg _. rewrite (Honly g Hg). lia.
    + right. split; [|by rewrite Hone].
      intros g Hg Hq. apply Hnot. rewrite <- (Honly g Hg). done.
  - eapply fallback_closest; [done | done | | done].
    intros Hin. by apply Hnames, Hsub.
Qed.

(** Whatever happens in an iteration, the bounds hold, the measure
    decreases and [errorCount] does not decrease. *)
Lemma loopBody_bounds (srv : Server) (binlogFiles : list string)
    (targetTime : time.Time) (st : SearchState) :
  InBounds binlogFiles st → st_left st ≤ st_right st →
  match loopBody srv binlogFiles targetTime st with
  | Continue st' =>
      InBounds binlogFiles st' ∧ (loopMeasure st' < loopMeasure st)%nat ∧
      st_errorCount st ≤ st_errorCount st'
  | Break st' => st_errorCount st < st_errorCount st'
  | Return _ _ st' => st_errorCount st ≤ st_errorCount st'
  | Panic => False
  end.
Proof.
  intros [Hlo Hhi] Hle.
  pose proof (midpoint_between st Hle) as Hmid.
  destruct (loopBody_cases srv binlogFiles targetTime st) as (file & _ & Hcases);
    [done..|].
  destruct Hcases as [(r & _ & ->) | [(r & _ & _ & ->) | (e & _ & _ & ->)]].
  - destruct (compareStep_cases targetTime file (midpoint st) st)
      as [[_ ->] | [[_ ->] | (_ & _ & ->)]];
      [lia | |]; (split; [split; simpl; lia|]); (split; [unfold loopMeasure|]; simpl; lia).
  - destruct (compareStep_cases targetTime file (midpoint st) (noteSuccess st file r))
      as [[_ ->] | [[_ ->] | (_ & _ & ->)]];
      [simpl; lia | |]; (split; [split; simpl; lia|]);
      (split; [unfold loopMeasure|]; simpl; lia).
  - destruct (st_errorCount (noteFailure st file) >? 3); [simpl; lia|].
    destruct (midpoint st >? 0);
      (split; [split; simpl; lia|]); (split; [unfold loopMeasure|]; simpl; lia).
Qed.

Section Ordered.

Variables (srv : Server) (binlogFiles : list string) (rng : nat → TimeRange)
  (targetTime : time.Time).

Hypothesis Hranges : rangesAre srv binlogFiles rng.
Hypothesis Hincr : rangesIncreasing (length binlogFiles) rng.

Implicit Types (st : SearchState) (file : string).

Lemma end_monotone (i j : nat) :
  (i ≤ j < length binlogFiles)%nat → tr_end (rng i) ≤ tr_end (rng j).
Proof.
  intros Hij. destruct Hincr as [Hvalid Hlt].
  destruct (decide (i = j)) as [-> | Hne]; [lia|].
  pose proof (Hlt i j ltac:(lia)). pose proof (Hvalid j ltac:(lia)). lia.
Qed.

Lemma lookupRange_Some st file r :
  st_timeRanges st !! file = Some r → lookupRange (st_timeRanges st) file = r.
Proof. intros Hr. unfold lookupRange. by rewrite Hr. Qed.

(** An iteration whose extraction does not fail compares the target
    with the range of the middle segment. *)
Lemma probe_range st :
  InBounds binlogFiles st → st_left st ≤ st_right st →
  CacheAgrees binlogFiles rng st →
  ∃ file, binlogFiles !! Z.to_nat (midpoint st) = Some file ∧
    ((∃ st',
        loopBody srv binlogFiles targetTime st
        = compareStep targetTime file (midpoint st) st' ∧
        st_timeRanges st' !! file = Some (rng (Z.to_nat (midpoint st))) ∧
        CacheAgrees binlogFiles rng st' ∧
        (st' = st ∨ st' = noteSuccess st file (rng (Z.to_nat (midpoint st)))))
     ∨ (∃ e, extract srv (st_calls st) file = Err e ∧
          loopBody srv binlogFiles targetTime st
          = if st_errorCount (noteFailure st file) >? 3 then Break (noteFailure st file)
            else if midpoint st >? 0
                 then Continue (setRight (noteFailure st file) (midpoint st - 1))
                 else Continue (setLeft (noteFailure st file) (midpoint st + 1)))).
Proof.
  intros Hb Hle Hcache.
  destruct (loopBody_cases srv binlogFiles targetTime st Hb Hle)
    as (file & Hfile & Hcases).
  exists file. split; [done|].
  destruct Hcases as [(r & Hr & ->) | [(r & Hmiss & Hext & ->) | (e & _ & Hext & ->)]].
  - left. exists st. split; [done|]. split; [|by auto].
    destruct (Hcache file r Hr) as [_ Hagree]. by rewrite (Hagree _ Hfile) in Hr.
  - left.
    assert (r = rng (Z.to_nat (midpoint st))) as ->.
    { by apply (Hranges (length (st_calls st)) _ file). }
    eexists. split; [done|].
    split; [simpl; by rewrite lookup_insert_eq|]. split; [|by right].
    intros g r'. simpl. destruct (decide (g = file)) as [-> | Hne].
    + rewrite lookup_insert_eq. intros [= <-].
      split; [by eapply list_elem_of_lookup_2|].
      intros j Hj. by apply (Hranges (length (st_calls st)) j file).
    + rewrite lookup_insert_ne by done. apply Hcache.
  - right. eauto.
Qed.

(** The proof rule of a search none of whose extractions fails: [P]
    is kept by the two moves of the binary search, and the search ends
    in [Q] unless [errorCount] has grown. *)
Lemma clean_search_rule (P : SearchState → Prop)
    (Q : option (string * bool) * SearchState → Prop) (errors : Z) :
  (∀ st st' file,
     InBounds binlogFiles st → st_left st ≤ st_right st → P st →
     binlogFiles !! Z.to_nat (midpoint st) = Some file →
     st_timeRanges st' !! file = Some (rng (Z.to_nat (midpoint st))) →
     CacheAgrees binlogFiles rng st' →
     st' = st ∨ st' = noteSuccess st file (rng (Z.to_nat (midpoint st))) →
     let r := rng (Z.to_nat (midpoint st)) in
     (tr_start r ≤ targetTime ≤ tr_end r → Q (Some (file, true), st')) ∧
     (targetTime < tr_start r → P (setRight st' (midpoint st - 1))) ∧
     (tr_start r ≤ targetTime → tr_end r < targetTime →
      P (setLeft st' (midpoint st + 1)))) →
  (∀ st, CacheAgrees binlogFiles rng st → P st → st_right st < st_left st →
     Q (None, st)) →
  ∀ fuel st,
    InBounds binlogFiles st → CacheAgrees binlogFiles rng st → P st →
    st_errorCount st = errors → (loopMeasure st ≤ fuel)%nat →
    ∃ out, searchLoop fuel srv binlogFiles targetTime st = Done out ∧
           (errors < st_errorCount out.2 ∨ Q out).
Proof.
  intros Hstep Hexit fuel st Hb Hcache HP Herrors Hfuel.
  apply (searchLoop_rule srv binlogFiles targetTime
    (λ st, InBounds binlogFiles st ∧ errors ≤ st_errorCount st ∧
           (errors < st_errorCount st ∨ (CacheAgrees binlogFiles rng st ∧ P st)))
    (λ out, errors < st_errorCount out.2 ∨ Q out)); [| | |done].
  - clear st Hb Hcache HP Herrors Hfuel.
    intros st (Hb & Hec & Hclean) Hle.
    pose proof (loopBody_bounds srv binlogFiles targetTime st Hb Hle) as Hbounds.
    destruct Hclean as [Hfailed | [Hcache HP]].
    { destruct (loopBody srv binlogFiles targetTime st) as [st'|st'|f b st'|].
      - destruct Hbounds as (Hb' & Hdec & Hec'). split; [|done].
        split; [done|]. split; [lia|]. left. lia.
      - left. simpl. lia.
      - left. simpl. lia.
      - done. }
    destruct (probe_range st Hb Hle Hcache) as (file & Hfile & Hprobe).
    destruct Hprobe as [(st' & Hbody & Hr & Hcache' & Hst') | [e Hext]].
    + rewrite Hbody in *.
      destruct (Hstep st st' file Hb Hle HP Hfile Hr Hcache' Hst')
        as (Hwithin & Hbefore & Hafter).
      destruct (compareStep_cases targetTime file (midpoint st) st')
        as [[Hw Hcmp] | [[Hlt Hcmp] | (Hge & Hgt & Hcmp)]];
        rewrite Hcmp in *; rewrite (lookupRange_Some st' file _ Hr) in *.
      * right. by apply Hwithin.
      * destruct Hbounds as (Hb' & Hdec & Hec'). split; [|done].
        split; [done|]. split; [lia|]. right. split; [done | by apply Hbefore].
      * destruct Hbounds as (Hb' & Hdec & Hec'). split; [|done].
        split; [done|]. split; [lia|]. right. split; [done | by apply Hafter].
    + destruct Hext as [_ Hbody]. rewrite Hbody in *. simpl st_errorCount in *.
      destruct (st_errorCount st + 1 >? 3); [left; simpl; lia|].
      destruct (midpoint st >? 0);
        destruct Hbounds as (Hb' & Hdec & Hec'); (split; [|done]);
        (split; [done|]); (split; [simpl; lia|]); left; simpl; lia.
  - intros st0 (_ & _ & [Hfailed | [Hcache0 HP0]]) Hexit0; [by left|].
    right. by apply Hexit.
  - split; [done|]. split; [lia|]. right. done.
Qed.


(** The binary search reaches the segment whose range holds the target. *)
Lemma searchLoop_finds (i : nat) file (fuel : nat) st :
  binlogFiles !! i = Some file →
  tr_start (rng i) ≤ targetTime ≤ tr_end (rng i) →
  InBounds binlogFiles st → CacheAgrees binlogFiles rng st →
  st_left st ≤ Z.of_nat i ≤ st_right st →
  (loopMeasure st ≤ fuel)%nat →
  ∃ out, searchLoop fuel srv binlogFiles targetTime st = Done out ∧
         (st_errorCount st < st_errorCount out.2 ∨ out.1 = Some (file, true)).
Proof.
  intros Hi Hin Hb Hcache Hbetween Hfuel.
  destruct Hincr as [Hvalid Hlt].
  assert ((i < length binlogFiles)%nat) as Hi' by (by eapply lookup_lt_Some).
  apply (clean_search_rule (λ st, st_left st ≤ Z.of_nat i ≤ st_right st)
           (λ out, out.1 = Some (file, true)) (st_errorCount st)); [| |done..].
  - clear st Hb Hcache Hbetween Hfuel.
    intros st st' f [Hlo Hhi] Hle Hbetween Hf Hr Hcache' Hst'.
    pose proof (midpoint_between st Hle) as Hmid.
    assert (st_left st' = st_left st ∧ st_right st' = st_right st) as [Hl' Hr'].
    { by destruct Hst' as [-> | ->]. }
    set (m := Z.to_nat (midpoint st)) in *.
    assert ((m < length binlogFiles)%nat) as Hm by lia.
    pose proof (Hvalid m Hm) as Hvm. cbv zeta.
    destruct (Nat.lt_trichotomy m i) as [Hmi | [Hmi | Hmi]].
    + pose proof (Hlt m i ltac:(lia)).
      split; [lia|]. split; [lia|]. intros _ _. simpl. lia.
    + rewrite Hmi in *. split; [intros _; simpl; congruence|]. split; lia.
    + pose proof (Hlt i m ltac:(lia)).
      split; [lia|]. split; [|lia]. intros _. simpl. lia.
  - intros st0 _ Hbetween0 Hexit. lia.
Qed.

(** When the target lies after every range, the search moves right
    until it has probed, and cached, the last segment. *)
Lemma searchLoop_beyond (lastFile : string) (fuel : nat) st :
  binlogFiles !! pred (length binlogFiles) = Some lastFile →
  tr_end (rng (pred (length binlogFiles))) < targetTime →
  InBounds binlogFiles st → CacheAgrees binlogFiles rng st →
  st_validFiles st = dom (st_timeRanges st) →
  st_right st = Z.of_nat (length binlogFiles) - 1 →
  st_left st < Z.of_nat (length binlogFiles) →
  (loopMeasure st ≤ fuel)%nat →
  ∃ out, searchLoop fuel srv binlogFiles targetTime st = Done out ∧
    (st_errorCount st < st_errorCount out.2 ∨
     (out.1 = None ∧ CacheAgrees binlogFiles rng out.2 ∧
      st_validFiles out.2 = dom (st_timeRanges out.2) ∧
      st_timeRanges out.2 !! lastFile = Some (rng (pred (length binlogFiles))))).
Proof.
  intros Hlast Hafter Hb Hcache Hdom Hright Hleft Hfuel.
  assert ((0 < length binlogFiles)%nat) as Hlen.
  { pose proof (lookup_lt_Some _ _ _ Hlast). lia. }
  apply (clean_search_rule
    (λ st, st_validFiles st = dom (st_timeRanges st) ∧
           st_right st = Z.of_nat (length binlogFiles) - 1 ∧
           st_left st ≤ Z.of_nat (length binlogFiles) ∧
           (st_left st = Z.of_nat (length binlogFiles) →
            st_timeRanges st !! lastFile = Some (rng (pred (length binlogFiles)))))
    (λ out, out.1 = None ∧ CacheAgrees binlogFiles rng out.2 ∧
            st_validFiles out.2 = dom (st_timeRanges out.2) ∧
            st_timeRanges out.2 !! lastFile = Some (rng (pred (length binlogFiles))))
    (st_errorCount st)); [| |done|done| |done|done].
  - clear st Hb Hcache Hdom Hright Hleft Hfuel.
    intros st st' f [Hlo Hhi] Hle (Hdom & Hright & Hleft & _) Hf Hr Hcache' Hst'.
    pose proof (midpoint_between st Hle) as Hmid.
    assert (st_left st' = st_left st ∧ st_right st' = st_right st ∧
            st_validFiles st' = dom (st_timeRanges st')) as (Hl' & Hr' & Hdom').
    { destruct Hst' as [-> | ->]; [done|]. simpl. by rewrite dom_insert_L, Hdom. }
    set (m := Z.to_nat (midpoint st)) in *.
    assert ((m < length binlogFiles)%nat) as Hm by lia.
    pose proof (end_monotone m (pred (length binlogFiles)) ltac:(lia)) as Hmono.
    pose proof (proj1 Hincr m Hm) as Hvm. cbv zeta.
    split; [lia|]. split; [lia|]. intros _ _.
    split; [done|]. split; [simpl; lia|]. split; [simpl; lia|].
    simpl. intros Hend.
    assert (m = pred (length binlogFiles)) as Hmlast by lia.
    rewrite Hmlast in Hf, Hr. congruence.
  - intros st0 Hcache0 (Hdom0 & Hright0 & Hleft0 & Hdone) Hexit.
    split; [done|]. split; [done|]. split; [done|]. apply Hdone. lia.
  - split; [done|]. split; [done|]. split; [lia|]. intros Heq. lia.
Qed.

End Ordered.

Lemma alwaysExtracts_rangesAre (srv : Server) (binlogFiles : list string)
    (rng : nat → TimeRange) :
  alwaysExtracts srv binlogFiles rng → rangesAre srv binlogFiles rng.
Proof. intros Halways k j file r Hfile Hok. rewrite (Halways k j file Hfile) in Hok. congruence. Qed.

Lemma CacheAgrees_initial (binlogFiles : list string) (rng : nat → TimeRange) :
  CacheAgrees binlogFiles rng (initialState binlogFiles).
Proof. intros g r Hg. simpl in Hg. by rewrite lookup_empty in Hg. Qed.

(** For two segments or more, the failures of a search are those the
    loop has counted. *)
Lemma searchRun_loop (srv : Server) (order : RangeOrder) (binlogFiles : list string)
    (targetTime : time.Time) out :
  (2 ≤ length binlogFiles)%nat →
  searchLoop (length binlogFiles) srv binlogFiles targetTime (initialState binlogFiles)
  = Done out →
  searchFailures srv order binlogFiles targetTime = st_errorCount out.2 ∧
  searchRun srv order binlogFiles targetTime
  = match out.1 with
    | Some (file, exactMatch) => Done (file, exactMatch, out.2)
    | None =>
        match fallback order binlogFiles targetTime out.2 with
        | Done (file, exactMatch) => Done (file, exactMatch, out.2)
        | IndexOutOfRange => IndexOutOfRange
        | OutOfFuel => OutOfFuel
        end
    end.
Proof.
  intros Hlen Hloop.
  assert (binlogFiles ≠ []) as Hne by (intros ->; simpl in Hlen; lia).
  destruct (searchLoop_tracked srv binlogFiles targetTime (length binlogFiles)
              (initialState binlogFiles))
    as (out' & Hloop' & _ & Hcount & _).
  { by apply LoopInv_initial. }
  { by rewrite loopMeasure_initial. }
  assert (out' = out) as -> by congruence.
  unfold Counted in Hcount.
  assert (searchRun srv order binlogFiles targetTime
          = match out.1 with
            | Some (file, exactMatch) => Done (file, exactMatch, out.2)
            | None =>
                match fallback order binlogFiles targetTime out.2 with
                | Done (file, exactMatch) => Done (file, exactMatch, out.2)
                | IndexOutOfRange => IndexOutOfRange
                | OutOfFuel => OutOfFuel
                end
            end) as Hrun.
  { unfold searchRun.
    destruct (length binlogFiles) as [|[|n]] eqn:Hn; [lia | lia |].
    cbn [Nat.eqb]. rewrite Hloop. by destruct out as [[[f b]|] st]. }
  split; [|done]. unfold searchFailures. rewrite Hrun.
  destruct out as [[[f b]|] st]; simpl; [done|].
  destruct (fallback_cases order binlogFiles targetTime st Hne) as (f & -> & _). done.
Qed.

Lemma searchFailures_single (srv : Server) (order : RangeOrder) (S : string)
    (targetTime : time.Time) e :
  outcome srv 0 S = Err e → searchFailures srv order [S] targetTime = 1.
Proof.
  intros Hout. unfold searchFailures. rewrite searchRun_single, Hout. simpl.
  by rewrite Hout.
Qed.

(** C1. For a list whose ranges are non-overlapping and monotonically
    increasing, a search in which no extraction fails, and a target
    inside the range of the segment at index [i], the search returns
    that segment with [exactMatch] true. *)
Theorem exact_containment (srv : Server) (order : RangeOrder)
    (binlogFiles : list string) (rng : nat → TimeRange) (targetTime : time.Time)
    (i : nat) (file : string) :
  rangesAre srv binlogFiles rng →
  rangesIncreasing (length binlogFiles) rng →
  searchFailures srv order binlogFiles targetTime = 0 →
  binlogFiles !! i = Some file →
  tr_start (rng i) ≤ targetTime ≤ tr_end (rng i) →
  BinarySearchBinlogs srv order binlogFiles targetTime = Done (file, true).
Proof.
  intros Hranges Hincr Hclean Hi Hin. unfold BinarySearchBinlogs.
  assert ((i < length binlogFiles)%nat) as Hlen by (by eapply lookup_lt_Some).
  destruct (decide (length binlogFiles = 1%nat)) as [Hone | Hmore].
  - destruct binlogFiles as [|f0 [|f1 rest]]; [done | | done].
    destruct i as [|i]; [|simpl in Hlen; lia]. injection Hi as ->.
    destruct (outcome srv 0 file) as [r|e] eqn:Hout.
    + rewrite searchRun_single, Hout.
      rewrite (Hranges 0%nat 0%nat file r eq_refl Hout).
      apply within_spec in Hin. by rewrite Hin.
    + rewrite (searchFailures_single srv order file targetTime e Hout) in Hclean. done.
  - destruct (searchLoop_finds srv binlogFiles rng targetTime Hranges Hincr
                i file (length binlogFiles) (initialState binlogFiles))
      as ([out st] & Hloop & Hout); [done | done | | | | |].
    + split; simpl; lia.
    + apply CacheAgrees_initial.
    + simpl. lia.
    + unfold loopMeasure. simpl. lia.
    + destruct (searchRun_loop srv order binlogFiles targetTime (out, st))
        as [Hfail Hrun]; [lia | done |].
      simpl in Hout, Hfail, Hrun. rewrite Hfail in Hclean.
      destruct Hout as [Hgrown | ->]; [lia|]. by rewrite Hrun.
Qed.

(** C6. For a list in name order whose ranges are non-overlapping and
    monotonically increasing, a search in which no extraction fails,
    and a target after the end of the last segment, the search returns
    the last segment with [exactMatch] false. *)
Theorem target_after_last (srv : Server) (order : RangeOrder)
    (binlogFiles : list string) (rng : nat → TimeRange) (targetTime : time.Time)
    (lastFile : string) :
  validOrder order →
  sortedByName binlogFiles →
  rangesAre srv binlogFiles rng →
  rangesIncreasing (length binlogFiles) rng →
  searchFailures srv order binlogFiles targetTime = 0 →
  last binlogFiles = Some lastFile →
  tr_end (rng (pred (length binlogFiles))) < targetTime →
  BinarySearchBinlogs srv order binlogFiles targetTime = Done (lastFile, false).
Proof.
  intros Horder Hsorted Hranges Hincr Hclean Hlast Hafter. unfold BinarySearchBinlogs.
  rewrite last_lookup in Hlast.
  assert ((0 < length binlogFiles)%nat) as Hlen.
  { pose proof (lookup_lt_Some _ _ _ Hlast). lia. }
  destruct (decide (length binlogFiles = 1%nat)) as [Hone | Hmore].
  - destruct binlogFiles as [|f0 [|f1 rest]]; [done | | done].
    injection Hlast as ->.
    destruct (outcome srv 0 lastFile) as [r|e] eqn:Hout.
    + rewrite searchRun_single, Hout.
      rewrite (Hranges 0%nat 0%nat lastFile r eq_refl Hout).
      simpl in Hafter.
      destruct (within targetTime (rng 0%nat)) eqn:Hw; [|done].
      apply within_spec in Hw. lia.
    + rewrite (searchFailures_single srv order lastFile targetTime e Hout) in Hclean.
      done.
  - destruct (searchLoop_beyond srv binlogFiles rng targetTime Hranges Hincr
                lastFile (length binlogFiles) (initialState binlogFiles))
      as ([out st] & Hloop & Hout); [done | done | | | done | done | | |].
    + split; simpl; lia.
    + apply CacheAgrees_initial.
    + simpl. lia.
    + unfold loopMeasure. simpl. lia.
    + destruct (searchRun_loop srv order binlogFiles targetTime (out, st))
        as [Hfail Hrun]; [lia | done |].
      simpl in Hout, Hfail, Hrun. rewrite Hfail in Hclean.
      destruct Hout as [Hgrown | (-> & Hcache & Hdom & Hstored)]; [lia|].
      rewrite Hrun. clear Hrun Hloop Hfail Hclean.
      destruct Hincr as [Hvalid Hlt].
      assert (lastFile ≠ "") as Hname.
      { intros ->.
        destruct (lookup_lt_is_Some_2 binlogFiles 0) as [first Hfirst]; [lia|].
        pose proof (Hsorted 0%nat (pred (length binlogFiles)) first ""
                      ltac:(lia) Hfirst Hlast) as Hle.
        apply leb_empty in Hle. subst first.
        destruct (Hcache "" _ Hstored) as [_ Hagree].
        pose proof (Hagree 0%nat Hfirst) as Hsame.
        pose proof (Hlt 0%nat (pred (length binlogFiles)) ltac:(lia)).
        pose proof (Hvalid 0%nat ltac:(lia)). rewrite Hsame in *. lia. }
      assert (lastFile ∈ st_validFiles st) as Hin.
      { rewrite Hdom. apply elem_of_dom. eauto. }
      assert (endIn (st_timeRanges st) lastFile = tr_end (rng (pred (length binlogFiles))))
        as Hend.
      { unfold endIn. by rewrite (lookupRange_Some st lastFile _ Hstored). }
      assert (closestFile order targetTime (st_validFiles st) (st_timeRanges st) = lastFile)
        as Hclosest.
      { unfold closestFile.
        rewrite (closest_fold_strict targetTime (st_timeRanges st) lastFile); [done..| | |].
        - rewrite Hend. lia.
        - intros h Hh Hne. apply (validOrder_elem_of _ _ _ Horder) in Hh.
          rewrite Hdom in Hh. apply elem_of_dom in Hh as [r Hr].
          destruct (Hcache h r Hr) as [[j Hj]%list_elem_of_lookup_1 Hagree].
          rewrite (Hagree j Hj) in Hr.
          rewrite Hend. unfold endIn. rewrite (lookupRange_Some st h _ Hr).
          assert ((j < length binlogFiles)%nat) as Hjlen by (by eapply lookup_lt_Some).
          assert (j ≠ pred (length binlogFiles)) as Hjne by congruence.
          pose proof (Hlt j (pred (length binlogFiles)) ltac:(lia)).
          pose proof (Hvalid (pred (length binlogFiles)) ltac:(lia)). lia.
        - left. split; [by apply (validOrder_elem_of _ _ _ Horder) | by left]. }
      destruct (fallback_cases order binlogFiles targetTime st) as (f & -> & Hcases).
      { intros Hnil. rewrite Hnil in Hlen. simpl in Hlen. lia. }
      destruct Hcases as [(_ & _ & Hf) | [[Hsize | Hempty] _]].
      * congruence.
      * apply size_empty_iff in Hsize. rewrite Hsize in Hin.
        by apply not_elem_of_empty in Hin.
      * congruence.
Qed.

(** * The properties on the sample data *)

Lemma validOrder_elements : validOrder elements.
Proof. intros s. reflexivity. Qed.

Lemma server3_extracts : alwaysExtracts server3 files3 range3.
Proof.
  intros k [|[|[|j]]] file Hfile; simpl in Hfile; [| | |done];
    injection Hfile as <-; reflexivity.
Qed.

Lemma range3_increasing : rangesIncreasing (length files3) range3.
Proof.
  split.
  - intros [|[|[|j]]] Hj; simpl in *; unfold time.Unix; lia.
  - intros [|[|[|i]]] [|[|[|j]]] Hij; simpl in *; unfold time.Unix; lia.
Qed.

Lemma files3_sorted : sortedByName files3.
Proof.
  intros [|[|[|i]]] [|[|[|j]]] a b Hij Ha Hb; simpl in *; try lia; try done;
    injection Ha as <-; injection Hb as <-; reflexivity.
Qed.

Lemma files3_named : "" ∉ files3.
Proof. unfold files3. rewrite !not_elem_of_cons. repeat split; try done. apply not_elem_of_nil. Qed.

Lemma serverNoThird_ranges : rangesAre serverNoThird files3 range3.
Proof.
  intros k [|[|[|j]]] file r Hfile Hok; simpl in Hfile; [| | |done];
    injection Hfile as <-.
  - assert (outcome serverNoThird k "seg1" = Ok (range3 0)) by reflexivity. congruence.
  - assert (outcome serverNoThird k "seg2" = Ok (range3 1)) by reflexivity. congruence.
  - assert (outcome serverNoThird k "seg3" = Err ErrStartSync) by reflexivity. congruence.
Qed.

(** The scenario of the specification, run on the model. *)
Example scenario_inside :
  BinarySearchBinlogs server3 elements files3 (time.Unix 250 0) = Done ("seg2", true).
Proof. reflexivity. Qed.

Example scenario_before :
  BinarySearchBinlogs server3 elements files3 (time.Unix 50 0) = Done ("seg1", false).
Proof. reflexivity. Qed.

Example scenario_after :
  BinarySearchBinlogs server3 elements files3 (time.Unix 500 0) = Done ("seg3", false).
Proof. reflexivity. Qed.

Example scenario_single :
  BinarySearchBinlogs server3 elements ["seg1"] (time.Unix 150 0) = Done ("seg1", true).
Proof. reflexivity. Qed.

(** C1 on the scenario of the specification when the third segment
    cannot be read: the target 150 lies in seg1, and the search probes
    seg2 and seg1 only. *)
Lemma exact_containment_witness :
  searchFailures serverNoThird elements files3 (time.Unix 150 0) = 0 ∧
  BinarySearchBinlogs serverNoThird elements files3 (time.Unix 150 0)
  = Done ("seg1", true).
Proof.
  split; [reflexivity|].
  apply (exact_containment serverNoThird elements files3 range3 (time.Unix 150 0)
           0 "seg1").
  - exact serverNoThird_ranges.
  - exact range3_increasing.
  - reflexivity.
  - reflexivity.
  - simpl. unfold time.Unix. lia.
Defined.

(** C6 on the scenario of the specification: target 500 follows seg3. *)
Lemma target_after_last_witness :
  searchFailures server3 elements files3 (time.Unix 500 0) = 0 ∧
  BinarySearchBinlogs server3 elements files3 (time.Unix 500 0) = Done ("seg3", false).
Proof.
  split; [reflexivity|].
  apply (target_after_last server3 elements files3 range3 (time.Unix 500 0) "seg3").
  - exact validOrder_elements.
  - exact files3_sorted.
  - exact (alwaysExtracts_rangesAre _ _ _ server3_extracts).
  - exact range3_increasing.
  - reflexivity.
  - reflexivity.
  - simpl. unfold time.Unix. lia.
Defined.

(** C2, as amended, on the scenario of the specification: target 50. *)
Lemma fallback_closest_preceding_witness :
  ∃ file exactMatch st,
    searchRun server3 elements files3 (time.Unix 50 0) = Done (file, exactMatch, st) ∧
    (exactMatch = false → ClosestPreceding files3 (time.Unix 50 0) st file).
Proof.
  apply (fallback_closest_preceding server3 elements files3 (time.Unix 50 0)).
  - exact validOrder_elements.
  - exact files3_named.
  - discriminate.
Defined.

(** C5, as amended, on the scenario of the specification. *)
Lemma sentinel_and_membership_witness :
  ∃ file exactMatch,
    BinarySearchBinlogs server3 elements files3 (time.Unix 50 0) = Done (file, exactMatch) ∧
    (files3 = [] → file = "" ∧ exactMatch = false) ∧
    (files3 ≠ [] → file ∈ files3) ∧
    ("" ∉ files3 → (file = "" ↔ files3 = [])).
Proof.
  apply (sentinel_and_membership server3 elements files3 (time.Unix 50 0)).
  exact validOrder_elements.
Defined.

(** C8, as amended, on a stream with the timestamps 100 and 200. *)
Lemma range_start_le_end_witness :
  GetTimeRangeForBinlog (rangeSession 100 200) "seg1"
  = Ok (mkRange (time.Unix 100 0) (time.Unix 200 0))
  ∧ tr_start (mkRange (time.Unix 100 0) (time.Unix 200 0))
    ≤ tr_end (mkRange (time.Unix 100 0) (time.Unix 200 0)).
Proof.
  split; [reflexivity|].
  apply (range_start_le_end (rangeSession 100 200) "seg1").
  - change (Sorted N.le [100%N; 200%N]).
    repeat constructor. lia.
  - reflexivity.
Defined.

(** C9 on ten events without a timestamp, and on a stream whose third
    event is the first with a timestamp. *)
Lemma first_phase_bound_witness :
  GetTimeRangeForBinlog silentSession "mysql-bin.000001" = Err ErrNoTimestamp ∧
  ∃ r, GetTimeRangeForBinlog rotateSession "mysql-bin.000001" = Ok r.
Proof.
  split.
  - apply (first_phase_bound silentSession "mysql-bin.000001" eq_refl).
    + simpl. lia.
    + simpl. lia.
    + intros ev Hev. simpl in Hev.
      repeat (apply elem_of_cons in Hev as [-> | Hev]; [reflexivity|]).
      by apply elem_of_nil in Hev.
  - apply (proj2 (first_phase_bound rotateSession "mysql-bin.000001" eq_refl)
             2%nat (mkEvent 1700000000 GenericEvent)).
    + lia.
    + simpl. lia.
    + reflexivity.
    + simpl. lia.
Defined.

(** C8 as stated fails on a stream whose second timestamp is smaller
    than its first: the returned range starts at 200 and ends at 100. *)
Lemma range_inverted :
  GetTimeRangeForBinlog decreasingSession "mysql-bin.000001"
  = Ok (mkRange (time.Unix 200 0) (time.Unix 100 0))
  ∧ ¬ (tr_start (mkRange (time.Unix 200 0) (time.Unix 100 0))
       ≤ tr_end (mkRange (time.Unix 200 0) (time.Unix 100 0))).
Proof. split; [reflexivity|]. simpl. unfold time.Unix. lia. Qed.

(** C5 as stated fails on the one-element list whose segment carries
    the empty name: the empty name is returned for a non-empty list. *)
Lemma empty_name_returned :
  BinarySearchBinlogs serverEmptyName elements [""] (time.Unix 100 0) = Done ("", false)
  ∧ [""] ≠ ([] : list string).
Proof. split; [reflexivity | discriminate]. Qed.

Lemma emptyNameFinal_ends :
  endOf emptyNameFinal "" = time.Unix 40 0 ∧ endOf emptyNameFinal "a" = time.Unix 20 0.
Proof. split; reflexivity. Qed.

(** C2 as stated fails when a cached segment carries the empty name:
    on ["a"(10..20); ""(30..40)] and the target 100 the search returns
    "a", whatever the iteration order, although the segment with the
    empty name is cached and ends later, at or before the target. *)
Lemma empty_name_not_closest :
  searchRun serverEmptyName elements filesEmptyName (time.Unix 100 0)
  = Done ("a", false, emptyNameFinal)
  ∧ searchRun serverEmptyName (λ s, reverse (elements s)) filesEmptyName (time.Unix 100 0)
    = Done ("a", false, emptyNameFinal)
  ∧ "" ∈ st_validFiles emptyNameFinal
  ∧ endOf emptyNameFinal "" ≤ time.Unix 100 0
  ∧ endOf emptyNameFinal "a" < endOf emptyNameFinal ""
  ∧ ¬ ClosestPreceding filesEmptyName (time.Unix 100 0) emptyNameFinal "a".
Proof.
  destruct emptyNameFinal_ends as [Hempty Ha].
  assert ("" ∈ st_validFiles emptyNameFinal) as Hin.
  { simpl. set_solver. }
  split; [vm_compute; reflexivity|]. split; [vm_compute; reflexivity|].
  split; [done|]. rewrite Hempty, Ha. unfold time.Unix.
  split; [lia|]. split; [lia|].
  intros [(_ & _ & Hmax) | (Hnone & _)].
  - specialize (Hmax "" Hin). rewrite Hempty, Ha in Hmax. unfold time.Unix in Hmax. lia.
  - apply (Hnone "" Hin). rewrite Hempty. unfold time.Unix. lia.
Qed.

(** C7 as stated fails for a failed extraction: on ["a"; "a"] the
    first extraction of "a" fails, the failure is not stored, and the
    second probe extracts "a" again and returns an exact match. *)
Lemma failure_not_cached :
  outcome flakyServer 0 "a" = Err ErrStartSync
  ∧ searchRun flakyServer elements ["a"; "a"] (time.Unix 15 0)
    = Done ("a", true, flakyFinal)
  ∧ st_calls flakyFinal = ["a"; "a"].
Proof. split; [reflexivity|]. split; [vm_compute; reflexivity | reflexivity]. Qed.

(** * Further properties of the range extractor *)

Section ExtractorMore.

Implicit Types (ev : BinlogEvent) (evs : list BinlogEvent) (s : Session).

(** The first loop stops at the first timestamped event, when it comes
    within the attempts and before the deadline. *)
Lemma firstPhase_at attempts i binlogFile budget evs (k : nat) ev :
  (k < attempts)%nat → (k < budget)%nat →
  evs !! k = Some ev → (0 < Timestamp ev)%N →
  (∀ j ev', (j < k)%nat → evs !! j = Some ev' → Timestamp ev' = 0%N) →
  firstPhase attempts i binlogFile budget evs
  = FirstFound (Timestamp ev) (drop (S k) evs) (budget - S k).
Proof.
  revert i budget evs k.
  induction attempts as [|attempts IH]; intros i budget evs k Ha Hb Hk Hpos Hzero; [lia|].
  simpl. destruct budget as [|budget]; [lia|].
  destruct evs as [|ev0 evs]; [done|].
  rewrite rotateContinue_never.
  destruct k as [|k].
  - simpl in Hk. injection Hk as ->.
    apply N.ltb_lt in Hpos. rewrite Hpos. simpl. by rewrite Nat.sub_0_r.
  - rewrite (Hzero 0%nat ev0) by (done || lia). simpl.
    rewrite (IH (S i) budget evs k); [done | lia | lia | done | done |].
    intros j ev' Hj Hev'. apply (Hzero (S j)); [lia | done].
Qed.

(** Without a timestamped event in reach, the first loop ends by the
    limit that comes first: the deadline, the end of the stream, or
    the ten attempts. *)
Lemma firstPhase_none attempts i binlogFile budget evs :
  (∀ ev, ev ∈ take (attempts `min` budget) evs → Timestamp ev = 0%N) →
  firstPhase attempts i binlogFile budget evs
  = if decide (attempts ≤ budget ∧ attempts ≤ length evs)%nat then FirstNotFound
    else if decide (budget ≤ length evs)%nat then FirstError ErrTimeoutFirst
    else FirstError ErrGetEvent.
Proof.
  revert i budget evs.
  induction attempts as [|attempts IH]; intros i budget evs Hzero; cbn [firstPhase].
  { rewrite decide_True; [done | lia]. }
  destruct budget as [|budget].
  { rewrite decide_False by lia. rewrite decide_True; [done | lia]. }
  destruct evs as [|ev evs].
  { rewrite decide_False by (cbn [length]; lia).
    rewrite decide_False; [done | cbn [length]; lia]. }
  rewrite rotateContinue_never.
  rewrite (Hzero ev) by (simpl; apply list_elem_of_here).
  change (0 <? 0)%N with false. cbv iota.
  rewrite IH.
  - cbn [length]. repeat case_decide; try done; lia.
  - intros ev' Hin. apply Hzero. simpl. by apply list_elem_of_further.
Qed.

(** The second loop keeps the last positive timestamp among the events
    it reads: at most [n], and as many as the deadline allows. *)
Lemma lastPhase_last n budget evs (lastTimestamp : N) :
  lastPhase n budget evs lastTimestamp
  = default lastTimestamp (last (positiveTimestamps (take (n `min` budget) evs))).
Proof.
  revert budget evs lastTimestamp.
  induction n as [|n IH]; intros budget evs lastTimestamp; simpl; [done|].
  destruct budget as [|budget]; [done|].
  destruct evs as [|ev evs]; [done|].
  rewrite IH. simpl. unfold positiveTimestamps. simpl.
  destruct (0 <? Timestamp ev)%N eqn:Hpos.
  - apply N.ltb_lt in Hpos. rewrite filter_cons_True by done.
    rewrite last_cons. by destruct (last _).
  - apply N.ltb_ge in Hpos. by rewrite filter_cons_False by lia.
Qed.


(** X1. When the stream opens and its first timestamped event comes
    among the first ten events and before the deadline, the range
    starts at that event's timestamp and ends at the last positive
    timestamp among the events read after it (at most 1000, and as many
    as the deadline allows), or at the start when there is none. *)
Theorem extraction_range s (binlogFile : string) (k : nat) ev :
  startSyncOk s = true →
  firstTimestamped (stream s) = Some (k, ev) →
  (k < 10)%nat → (k < deadline s)%nat →
  GetTimeRangeForBinlog s binlogFile
  = Ok (mkRange
          (time.Unix (Z.of_N (Timestamp ev)) 0)
          (time.Unix
             (Z.of_N (default (Timestamp ev)
                        (last (positiveTimestamps
                                 (take (1000 `min` (deadline s - S k))
                                    (drop (S k) (stream s)))))))
             0)).
Proof.
  intros Hopen Hfind Hk Hd.
  apply list_find_Some in Hfind as (Hev & Hpos & Hbefore).
  unfold GetTimeRangeForBinlog. rewrite Hopen. simpl negb. cbv iota.
  rewrite (firstPhase_at 10 0 binlogFile (deadline s) (stream s) k ev);
    [|done..|].
  - cbv zeta. by rewrite lastPhase_last.
  - intros j ev' Hj Hev'. specialize (Hbefore j ev' Hev' Hj). lia.
Qed.

(** X2. The failures of the extractor: a stream that does not open
    gives the start-sync error; an open stream without a timestamped
    event among the events in reach gives the no-timestamp error when
    ten events were read, the timeout error when the deadline came
    first, and the get-event error when the stream ended first. *)
Theorem extraction_errors s (binlogFile : string) :
  (startSyncOk s = false →
   GetTimeRangeForBinlog s binlogFile = Err ErrStartSync)
  ∧
  (startSyncOk s = true →
   (∀ ev, ev ∈ take (10 `min` deadline s) (stream s) → Timestamp ev = 0%N) →
   GetTimeRangeForBinlog s binlogFile
   = Err (if decide (10 ≤ deadline s ∧ 10 ≤ length (stream s))%nat then ErrNoTimestamp
          else if decide (deadline s ≤ length (stream s))%nat then ErrTimeoutFirst
          else ErrGetEvent)).
Proof.
  unfold GetTimeRangeForBinlog. split.
  - by intros ->.
  - intros -> Hzero. simpl negb. cbv iota.
    rewrite firstPhase_none by done.
    by repeat case_decide.
Qed.

Lemma lastPhase_take n budget evs (lastTimestamp : N) (m : nat) :
  (n ≤ m)%nat →
  lastPhase n budget (take m evs) lastTimestamp = lastPhase n budget evs lastTimestamp.
Proof.
  revert budget evs lastTimestamp m.
  induction n as [|n IH]; intros budget evs lastTimestamp m Hm; simpl; [done|].
  destruct budget as [|budget]; [done|].
  destruct m as [|m]; [lia|].
  destruct evs as [|ev evs]; [done|]. simpl. apply IH. lia.
Qed.

Lemma firstPhase_take attempts i binlogFile budget evs (m : nat) :
  match firstPhase attempts i binlogFile budget evs with
  | FirstFound ts rest budget' =>
      ∃ m', (m ≤ m')%nat ∧
        firstPhase attempts i binlogFile budget (take (attempts + m) evs)
        = FirstFound ts (take m' rest) budget'
  | other => firstPhase attempts i binlogFile budget (take (attempts + m) evs) = other
  end.
Proof.
  revert i budget evs.
  induction attempts as [|attempts IH]; intros i budget evs; simpl; [done|].
  destruct budget as [|budget]; [done|].
  destruct evs as [|ev evs]; [done|]. simpl.
  rewrite rotateContinue_never.
  destruct (0 <? Timestamp ev)%N.
  - exists (attempts + m)%nat. split; [lia | done].
  - apply IH.
Qed.

(** X3. The extractor reads at most 1010 events: what a segment holds
    after its first 1010 events has no influence on the result. *)
Theorem extraction_reads_bounded s (binlogFile : string) :
  GetTimeRangeForBinlog (truncated 1010 s) binlogFile
  = GetTimeRangeForBinlog s binlogFile.
Proof.
  unfold GetTimeRangeForBinlog, truncated.
  cbn [startSyncOk stream deadline].
  destruct (negb (startSyncOk s)); [done|].
  pose proof (firstPhase_take 10 0 binlogFile (deadline s) (stream s) 1000) as Htake.
  change (10 + 1000)%nat with 1010%nat in Htake.
  destruct (firstPhase 10 0 binlogFile (deadline s) (stream s))
    as [ts rest budget| |e]; [|by rewrite Htake..].
  destruct Htake as (m' & Hm' & ->). cbv zeta.
  by rewrite lastPhase_take.
Qed.

End ExtractorMore.

(** X1 on a stream whose third event is the first with a timestamp. *)
Lemma extraction_range_witness :
  GetTimeRangeForBinlog rotateSession "mysql-bin.000001"
  = Ok (mkRange (time.Unix 1700000000 0) (time.Unix 1700000300 0)).
Proof.
  apply (extraction_range rotateSession "mysql-bin.000001" 2
           (mkEvent 1700000000 GenericEvent)).
  - reflexivity.
  - reflexivity.
  - lia.
  - simpl. lia.
Defined.

(** * Further properties of the search engine *)

Section SearchMore.

Variables (srv : Server) (binlogFiles : list string) (targetTime : time.Time).

Implicit Types (st : SearchState) (file : string).

(** A property kept by every iteration holds when the loop is left. *)
Lemma searchLoop_invariant (I : SearchState → Prop)
    (Q : option (string * bool) * SearchState → Prop) :
  (∀ st, I st → st_left st ≤ st_right st →
     match loopBody srv binlogFiles targetTime st with
     | Continue st' => I st'
     | Break st' => Q (None, st')
     | Return file exactMatch st' => Q (Some (file, exactMatch), st')
     | Panic => True
     end) →
  (∀ st, I st → st_right st < st_left st → Q (None, st)) →
  ∀ fuel st out, I st →
    searchLoop fuel srv binlogFiles targetTime st = Done out → Q out.
Proof.
  intros Hstep Hexit fuel.
  induction fuel as [|fuel IH]; intros st out HI; simpl.
  - destruct (st_left st <=? st_right st) eqn:Hcmp; [done|].
    apply Z.leb_gt in Hcmp. intros [= <-]. by apply Hexit.
  - destruct (st_left st <=? st_right st) eqn:Hcmp.
    + apply Z.leb_le in Hcmp. specialize (Hstep st HI Hcmp).
      destruct (loopBody srv binlogFiles targetTime st) as [st'|st'|file b st'|].
      * by apply IH.
      * by intros [= <-].
      * by intros [= <-].
      * done.
    + apply Z.leb_gt in Hcmp. intros [= <-]. by apply Hexit.
Qed.

(** The loop returns only a file whose range it holds. *)
Lemma loopBody_return_cached st file (exactMatch : bool) st' :
  loopBody srv binlogFiles targetTime st = Return file exactMatch st' →
  is_Some (st_timeRanges st' !! file).
Proof.
  unfold loopBody. cbv zeta.
  destruct (index binlogFiles (midpoint st)) as [f|]; [|done].
  assert (∀ st0, is_Some (st_timeRanges st0 !! f) →
            compareStep targetTime f (midpoint st) st0 = Return file exactMatch st' →
            is_Some (st_timeRanges st' !! file)) as Hcompare.
  { intros st0 Hsome. unfold compareStep. cbv zeta.
    destruct (within _ _); [by intros [= <- <- <-]|].
    by destruct (time.Before _ _). }
  destruct (st_timeRanges st !! f) as [r|] eqn:Hr.
  - apply Hcompare. by rewrite Hr.
  - destruct (extract srv (st_calls st) f) as [r|e].
    + apply Hcompare. simpl. by rewrite lookup_insert_eq.
    + destruct (_ >? 3); [done|]. by destruct (_ >? 0).
Qed.

Lemma searchLoop_return_cached (fuel : nat) st file (exactMatch : bool) st' :
  searchLoop fuel srv binlogFiles targetTime st = Done (Some (file, exactMatch), st') →
  is_Some (st_timeRanges st' !! file).
Proof.
  intros Hloop.
  apply (searchLoop_invariant (λ _, True)
           (λ out, ∀ f b, out.1 = Some (f, b) → is_Some (st_timeRanges out.2 !! f))
           ) with (fuel := fuel) (st := st) (out := (Some (file, exactMatch), st'))
           (f := file) (b := exactMatch); [| |done..].
  - intros st0 _ _.
    destruct (loopBody srv binlogFiles targetTime st0) as [| |f b st1|] eqn:Hbody;
      [done | by intros ? ? [=] | | done].
    intros f' b' [= <- <-]. by eapply loopBody_return_cached.
  - intros st0 _ _ f b [=].
Qed.

End SearchMore.

(** How a search that returned went: no segment, one segment, or the
    loop followed, when it found no containing segment, by the
    fallback. *)
Lemma searchRun_cases (srv : Server) (order : RangeOrder) (binlogFiles : list string)
    (targetTime : time.Time) (file : string) (exactMatch : bool) (st : SearchState) :
  searchRun srv order binlogFiles targetTime = Done (file, exactMatch, st) →
  (binlogFiles = [] ∧ st = initialState [] ∧ file = "" ∧ exactMatch = false)
  ∨ (binlogFiles = [file] ∧
     ((∃ e, outcome srv 0 file = Err e ∧ st = mkState 0 0 0 ∅ ∅ [file] ∧
            exactMatch = false)
      ∨ (∃ r, outcome srv 0 file = Ok r ∧
              st = noteSuccess (initialState [file]) file r ∧
              exactMatch = within targetTime r)))
  ∨ ((2 ≤ length binlogFiles)%nat ∧
     ∃ out, searchLoop (length binlogFiles) srv binlogFiles targetTime
              (initialState binlogFiles) = Done (out, st) ∧
            (out = Some (file, exactMatch)
             ∨ (out = None ∧
                fallback order binlogFiles targetTime st = Done (file, exactMatch)))).
Proof.
  destruct binlogFiles as [|f0 [|f1 rest]] eqn:Hfiles.
  - intros [= <- <- <-]. by left.
  - rewrite searchRun_single.
    destruct (outcome srv 0 f0) as [r|e] eqn:Hout; intros [= <- <- <-];
      right; left; (split; [done|]).
    + right. by exists r.
    + left. by exists e.
  - rewrite <- Hfiles. intros Hrun. right; right.
    assert ((2 ≤ length binlogFiles)%nat) as Hlen by (rewrite Hfiles; simpl; lia).
    split; [done|]. unfold searchRun in Hrun.
    destruct (length binlogFiles) as [|[|n]] eqn:Hn; [lia | lia |].
    cbn [Nat.eqb] in Hrun.
    destruct (searchLoop _ _ _ _ _) as [[[[f b]|] st0]| |]; [| |done..].
    + injection Hrun as <- <- <-. eexists. split; [done|]. by left.
    + destruct (fallback order binlogFiles targetTime st0) as [[f b]| |] eqn:Hfb; [|done..].
      injection Hrun as <- <- <-. eexists. split; [done|]. by right.
Qed.

Lemma searchRun_exact_cached (srv : Server) (order : RangeOrder)
    (binlogFiles : list string) (targetTime : time.Time) (file : string)
    (st : SearchState) :
  searchRun srv order binlogFiles targetTime = Done (file, true, st) →
  is_Some (st_timeRanges st !! file).
Proof.
  intros Hrun.
  destruct (searchRun_cases _ _ _ _ _ _ _ Hrun)
    as [(_ & _ & _ & [=]) | [[_ [(e & _ & _ & [=]) | (r & _ & -> & _)]] | (Hlen & out & Hloop & Hout)]].
  - simpl. by rewrite lookup_insert_eq.
  - destruct Hout as [-> | [_ Hfb]].
    + by eapply searchLoop_return_cached.
    + destruct (fallback_cases order binlogFiles targetTime st) as (f & Heq & _).
      { intros ->. simpl in Hlen. lia. }
      congruence.
Qed.

(** X4. An exact match is backed by an extraction of this search: when
    [exactMatch] is true, the returned file is a segment of the list
    whose extraction succeeded during the search with a range that
    holds the target. *)
Theorem exact_match_sound (srv : Server) (order : RangeOrder)
    (binlogFiles : list string) (targetTime : time.Time) :
  ∃ file exactMatch st,
    searchRun srv order binlogFiles targetTime = Done (file, exactMatch, st) ∧
    (exactMatch = true →
     file ∈ binlogFiles ∧
     ∃ k r, st_calls st !! k = Some file ∧ outcome srv k file = Ok r ∧
            tr_start r ≤ targetTime ≤ tr_end r).
Proof.
  destruct (searchRun_tracked srv order binlogFiles targetTime)
    as (file & b & st & Hrun & (_ & _ & _ & Hcached & _) & _ & _ & Hexact & _).
  exists file, b, st. split; [done|]. intros ->.
  destruct (Hexact eq_refl) as [Hin Hw]. split; [done|].
  destruct (searchRun_exact_cached _ _ _ _ _ _ Hrun) as [r Hr].
  destruct (Hcached file r Hr) as (k & Hk & Hok).
  exists k, r. split; [done|]. split; [done|].
  apply within_spec. unfold lookupRange in Hw. by rewrite Hr in Hw.
Qed.

(** X5. When every extraction fails, the search still answers: it
    returns the first segment of the list with [exactMatch] false. *)
Theorem all_extractions_fail (srv : Server) (order : RangeOrder)
    (binlogFiles : list string) (targetTime : time.Time) (first : string) :
  (∀ k file, file ∈ binlogFiles → isErr (outcome srv k file) = true) →
  binlogFiles !! 0%nat = Some first →
  BinarySearchBinlogs srv order binlogFiles targetTime = Done (first, false).
Proof.
  intros Hfail Hfirst.
  destruct (searchRun_tracked srv order binlogFiles targetTime)
    as (file & b & st & Hrun & (Hdom & Hcalls & _ & Hcached & _) & _ & _ & _ & Happrox).
  assert (st_timeRanges st = ∅) as Hempty.
  { apply map_empty. intros g. destruct (st_timeRanges st !! g) as [r|] eqn:Hr; [|done].
    destruct (Hcached g r Hr) as (k & Hk & Hok).
    assert (g ∈ binlogFiles) as Hg by (apply Hcalls; by eapply list_elem_of_lookup_2).
    specialize (Hfail k g Hg). by rewrite Hok in Hfail. }
  unfold BinarySearchBinlogs. rewrite Hrun.
  destruct b.
  - destruct (searchRun_exact_cached _ _ _ _ _ _ Hrun) as [r Hr].
    by rewrite Hempty, lookup_empty in Hr.
  - destruct (Happrox eq_refl) as [[-> _] | [-> | [_ Hfb]]]; [done | | ].
    + simpl in Hfirst. congruence.
    + destruct (fallback_cases order binlogFiles targetTime st) as (f & Heq & Hcases).
      { intros ->. done. }
      rewrite Heq in Hfb. injection Hfb as ->.
      destruct Hcases as [(Hsize & _) | [_ Hf]]; [|congruence].
      rewrite Hdom, Hempty, dom_empty_L, size_empty in Hsize. lia.
Qed.

Section Probes.

Variables (srv : Server) (binlogFiles : list string) (targetTime : time.Time).

Implicit Types (st : SearchState) (file : string).

(** An iteration makes at most one call, and what it leaves between
    [left] and [right] is at most half of what it found. *)
Lemma loopBody_halves st :
  InBounds binlogFiles st → st_left st ≤ st_right st →
  match loopBody srv binlogFiles targetTime st with
  | Continue st' =>
      0 ≤ st_right st' - st_left st' + 1 ∧
      2 * (st_right st' - st_left st' + 1) ≤ st_right st - st_left st + 1 ∧
      (length (st_calls st') = length (st_calls st) ∨
       length (st_calls st') = S (length (st_calls st)))
  | Break st' | Return _ _ st' =>
      length (st_calls st') = length (st_calls st) ∨
      length (st_calls st') = S (length (st_calls st))
  | Panic => False
  end.
Proof.
  intros Hb Hle.
  pose proof (midpoint_between st Hle) as Hmid.
  assert (2 * (midpoint st - st_left st) ≤ st_right st - st_left st ∧
          st_right st - st_left st ≤ 2 * (midpoint st - st_left st) + 1) as Hhalf.
  { unfold midpoint. rewrite Z.quot_div_nonneg by lia.
    pose proof (Z.div_mod (st_right st - st_left st) 2 ltac:(lia)).
    pose proof (Z.mod_pos_bound (st_right st - st_left st) 2 ltac:(lia)). lia. }
  destruct (loopBody_cases srv binlogFiles targetTime st Hb Hle)
    as (file & _ & Hcases).
  destruct Hcases as [(r & _ & ->) | [(r & _ & _ & ->) | (e & _ & _ & ->)]].
  - destruct (compareStep_cases targetTime file (midpoint st) st)
      as [[_ ->] | [[_ ->] | (_ & _ & ->)]]; simpl; [by left | |];
      (split; [lia|]); (split; [lia | by left]).
  - destruct (compareStep_cases targetTime file (midpoint st) (noteSuccess st file r))
      as [[_ ->] | [[_ ->] | (_ & _ & ->)]]; simpl; rewrite length_app; simpl;
      [right; lia | |]; (split; [lia|]); (split; [lia | right; lia]).
  - destruct (st_errorCount (noteFailure st file) >? 3);
      [simpl; rewrite length_app; simpl; right; lia|].
    destruct (midpoint st >? 0); simpl; rewrite length_app; simpl;
      (split; [lia|]); (split; [lia | right; lia]).
Qed.

Lemma searchLoop_probes (fuel : nat) st out :
  InBounds binlogFiles st → st_left st ≤ st_right st + 1 →
  (st_right st - st_left st + 1) * 2 ^ Z.of_nat (length (st_calls st))
    ≤ Z.of_nat (length binlogFiles) →
  (length (st_calls st) = 0%nat ∨
   2 ^ (Z.of_nat (length (st_calls st)) - 1) ≤ Z.of_nat (length binlogFiles)) →
  searchLoop fuel srv binlogFiles targetTime st = Done out →
  length (st_calls out.2) = 0%nat ∨
  2 ^ (Z.of_nat (length (st_calls out.2)) - 1) ≤ Z.of_nat (length binlogFiles).
Proof.
  intros Hb Hsize Hprod Hcalls.
  apply (searchLoop_invariant srv binlogFiles targetTime
    (λ st, InBounds binlogFiles st ∧ 0 ≤ st_right st - st_left st + 1 ∧
           (st_right st - st_left st + 1) * 2 ^ Z.of_nat (length (st_calls st))
             ≤ Z.of_nat (length binlogFiles) ∧
           (length (st_calls st) = 0%nat ∨
            2 ^ (Z.of_nat (length (st_calls st)) - 1) ≤ Z.of_nat (length binlogFiles)))
    (λ out, length (st_calls out.2) = 0%nat ∨
            2 ^ (Z.of_nat (length (st_calls out.2)) - 1)
              ≤ Z.of_nat (length binlogFiles))); [| |split; [done|]; split; [lia|]; by split].
  - clear st Hb Hsize Hprod Hcalls.
    intros st (Hb & Hsize & Hprod & Hcalls) Hle.
    pose proof (loopBody_halves st Hb Hle) as Hhalf.
    pose proof (loopBody_bounds srv binlogFiles targetTime st Hb Hle) as Hbounds.
    set (c := Z.of_nat (length (st_calls st))) in *.
    assert (0 < 2 ^ c) as Hpow by (apply Z.pow_pos_nonneg; lia).
    assert (2 ^ c ≤ Z.of_nat (length binlogFiles)) as Hone by nia.
    assert (∀ st', length (st_calls st') = length (st_calls st) ∨
                   length (st_calls st') = S (length (st_calls st)) →
              length (st_calls st') = 0%nat ∨
              2 ^ (Z.of_nat (length (st_calls st')) - 1)
                ≤ Z.of_nat (length binlogFiles)) as Hnext.
    { intros st' [Heq | Heq]; rewrite Heq; [done|]. right.
      replace (Z.of_nat (S (length (st_calls st))) - 1) with c by lia. done. }
    destruct (loopBody srv binlogFiles targetTime st) as [st'|st'|f b st'|];
      [|by apply Hnext..|done].
    destruct Hhalf as (Hsize' & Hhalf & Hgrow).
    destruct Hbounds as (Hb' & _).
    split; [done|]. split; [done|]. split; [|by apply Hnext].
    destruct Hgrow as [Heq | Heq]; rewrite Heq.
    + fold c. nia.
    + rewrite Nat2Z.inj_succ, Z.pow_succ_r by lia. fold c. nia.
  - by intros st0 (_ & _ & _ & Hcalls0) _.
Qed.

(** No file is probed twice when the names are distinct. *)
Lemma searchLoop_distinct (fuel : nat) st out :
  NoDup binlogFiles →
  InBounds binlogFiles st → NoDup (st_calls st) →
  (∀ (j : nat) file, binlogFiles !! j = Some file → file ∈ st_calls st →
     Z.of_nat j < st_left st ∨ st_right st < Z.of_nat j) →
  searchLoop fuel srv binlogFiles targetTime st = Done out →
  NoDup (st_calls out.2).
Proof.
  intros Hnames Hb Hnodup Houtside.
  apply (searchLoop_invariant srv binlogFiles targetTime
    (λ st, InBounds binlogFiles st ∧ NoDup (st_calls st) ∧
           ∀ (j : nat) file, binlogFiles !! j = Some file → file ∈ st_calls st →
             Z.of_nat j < st_left st ∨ st_right st < Z.of_nat j)
    (λ out, NoDup (st_calls out.2))); [| |done].
  - clear st Hb Hnodup Houtside.
    intros st (Hb & Hnodup & Houtside) Hle.
    pose proof (midpoint_between st Hle) as Hmid.
    pose proof Hb as [Hlo Hhi].
    pose proof (loopBody_bounds srv binlogFiles targetTime st Hb Hle) as Hbounds.
    destruct (loopBody_cases srv binlogFiles targetTime st Hb Hle)
      as (file & Hfile & Hcases).
    assert (NoDup (st_calls st ++ [file])) as Hnodup'.
    { apply NoDup_app. split; [done|]. split; [|apply NoDup_singleton].
      intros f Hf ->%list_elem_of_singleton.
      destruct (Houtside _ _ Hfile Hf); lia. }
    assert (∀ (j : nat) f, binlogFiles !! j = Some f → f ∈ st_calls st ++ [file] →
              Z.of_nat j < st_left st ∨ st_right st < Z.of_nat j ∨
              j = Z.to_nat (midpoint st)) as Houtside'.
    { intros j f Hj [Hf | ->%list_elem_of_singleton]%elem_of_app.
      - destruct (Houtside j f Hj Hf); auto.
      - right; right. by apply (NoDup_lookup binlogFiles j (Z.to_nat (midpoint st)) file). }
    destruct Hcases as [(r & _ & Hbody) | [(r & _ & _ & Hbody) | (e & _ & _ & Hbody)]];
      rewrite Hbody in *.
    + destruct (compareStep_cases targetTime file (midpoint st) st)
        as [[_ Hcmp] | [[_ Hcmp] | (_ & _ & Hcmp)]]; rewrite Hcmp in *; [done | |];
        (split; [apply Hbounds|]); (split; [done|]); simpl;
        intros j f Hj Hf; destruct (Houtside j f Hj Hf); lia.
    + destruct (compareStep_cases targetTime file (midpoint st) (noteSuccess st file r))
        as [[_ Hcmp] | [[_ Hcmp] | (_ & _ & Hcmp)]]; rewrite Hcmp in *; [done | |];
        (split; [apply Hbounds|]); (split; [done|]); simpl;
        intros j f Hj Hf; destruct (Houtside' j f Hj Hf) as [? | [? | ?]]; lia.
    + destruct (st_errorCount (noteFailure st file) >? 3); [done|].
      destruct (midpoint st >? 0);
        (split; [apply Hbounds|]); (split; [done|]); simpl;
        intros j f Hj Hf; destruct (Houtside' j f Hj Hf) as [? | [? | ?]]; lia.
  - by intros st0 (_ & Hnodup0 & _) _.
Qed.

End Probes.

(** X6. The search makes at most floor(log2 n) + 1 extractor calls on
    a list of n segments. *)
Theorem probes_logarithmic (srv : Server) (order : RangeOrder)
    (binlogFiles : list string) (targetTime : time.Time) :
  ∃ file exactMatch st,
    searchRun srv order binlogFiles targetTime = Done (file, exactMatch, st) ∧
    Z.of_nat (length (st_calls st)) ≤ Z.log2 (Z.of_nat (length binlogFiles)) + 1.
Proof.
  destruct (searchRun_tracked srv order binlogFiles targetTime)
    as (file & b & st & Hrun & _).
  exists file, b, st. split; [done|].
  assert (length (st_calls st) = 0%nat ∨
          2 ^ (Z.of_nat (length (st_calls st)) - 1) ≤ Z.of_nat (length binlogFiles))
    as [-> | Hpow].
  { destruct (searchRun_cases _ _ _ _ _ _ _ Hrun)
      as [(_ & -> & _) | [[-> [(e & _ & -> & _) | (r & _ & -> & _)]] | (Hlen & out & Hloop & _)]].
    - by left.
    - right. done.
    - right. done.
    - apply (searchLoop_probes srv binlogFiles targetTime _ _ _) in Hloop; [done|..].
      + split; simpl; lia.
      + simpl. lia.
      + simpl. lia.
      + by left. }
  - pose proof (Z.log2_nonneg (Z.of_nat (length binlogFiles))). simpl. lia.
  - pose proof (Z.log2_nonneg (Z.of_nat (length binlogFiles))).
    destruct (decide (0 ≤ Z.of_nat (length (st_calls st)) - 1)) as [Hc | Hc]; [|lia].
    pose proof (Z.pow_pos_nonneg 2 (Z.of_nat (length (st_calls st)) - 1)
                  ltac:(lia) Hc).
    apply Z.log2_le_pow2 in Hpow; lia.
Qed.

(** X7. When the names of the list are distinct, no segment is
    extracted twice in one search. *)
Theorem distinct_names_probed_once (srv : Server) (order : RangeOrder)
    (binlogFiles : list string) (targetTime : time.Time) :
  NoDup binlogFiles →
  ∃ file exactMatch st,
    searchRun srv order binlogFiles targetTime = Done (file, exactMatch, st) ∧
    NoDup (st_calls st).
Proof.
  intros Hnames.
  destruct (searchRun_tracked srv order binlogFiles targetTime)
    as (file & b & st & Hrun & _).
  exists file, b, st. split; [done|].
  destruct (searchRun_cases _ _ _ _ _ _ _ Hrun)
    as [(_ & -> & _) | [[-> [(e & _ & -> & _) | (r & _ & -> & _)]] | (Hlen & out & Hloop & _)]].
  - apply NoDup_nil_2.
  - apply NoDup_singleton.
  - apply NoDup_singleton.
  - apply (searchLoop_distinct srv binlogFiles targetTime _ _ _ Hnames) in Hloop;
      [done | split; simpl; lia | apply NoDup_nil_2 |].
    intros j f _ Hf. by apply elem_of_nil in Hf.
Qed.

Section FallbackMore.

Variables (targetTime : time.Time) (timeRanges : gmap string TimeRange).

Implicit Types (file g : string) (acc : string * time.Time) (l : list string).

(** When one visited file, not named by the empty string, ends at or
    before the target, and every other visited file ends before it or
    after the target, the loop picks it. *)
Lemma closest_fold_unique g l acc :
  g ≠ "" → endIn timeRanges g ≤ targetTime →
  (∀ h, h ∈ l → h ≠ g →
     endIn timeRanges h < endIn timeRanges g ∨ targetTime < endIn timeRanges h) →
  (g ∈ l ∧ (acc.1 = "" ∨ acc.2 < endIn timeRanges g)) ∨ acc = (g, endIn timeRanges g) →
  fold_left (closestStep targetTime timeRanges) l acc = (g, endIn timeRanges g).
Proof.
  intros Hname Hq. revert acc.
  induction l as [|h l IH]; intros acc Hlt Hacc; simpl.
  { destruct Hacc as [[Hin _] | ->]; [by apply elem_of_nil in Hin | done]. }
  apply IH; [intros h' Hh'; apply Hlt; by apply list_elem_of_further|].
  destruct (closestStep_cases targetTime timeRanges acc h)
    as [(Hhq & Hbetter & ->) | (Hworse & ->)].
  - destruct (decide (h = g)) as [-> | Hne]; [by right|].
    destruct (Hlt h (list_elem_of_here _ _) Hne) as [Hhg | Hhg]; [|lia].
    destruct Hacc as [[Hin Hacc] | ->].
    + left. apply elem_of_cons in Hin as [-> | Hin]; [done|]. simpl. auto.
    + simpl in Hbetter. destruct Hbetter; [done | lia].
  - destruct Hacc as [[Hin Hacc] | ->]; [|by right].
    left. split; [|done].
    apply elem_of_cons in Hin as [-> | Hin]; [|done].
    destruct Hworse as [? | [? ?]]; [lia|]. destruct Hacc; [done | lia].
Qed.

(** When only files named by the empty string end at or before the
    target, the loop ends with the empty name. *)
Lemma closest_fold_unnamed l acc :
  (∀ h, h ∈ l → endIn timeRanges h ≤ targetTime → h = "") →
  acc.1 = "" →
  (fold_left (closestStep targetTime timeRanges) l acc).1 = "".
Proof.
  revert acc. induction l as [|h l IH]; intros acc Honly Hacc; simpl; [done|].
  apply IH; [intros h' Hh'; apply Honly; by apply list_elem_of_further|].
  destruct (closestStep_cases targetTime timeRanges acc h)
    as [(Hhq & _ & ->) | (_ & ->)]; [|done].
  simpl. apply Honly; [apply list_elem_of_here | done].
Qed.

End FallbackMore.

Section Gaps.

Variables (srv : Server) (binlogFiles : list string) (rng : nat → TimeRange)
  (targetTime : time.Time).

Hypothesis Hranges : rangesAre srv binlogFiles rng.
Hypothesis Hincr : rangesIncreasing (length binlogFiles) rng.

Implicit Types (st : SearchState) (file : string).

Lemma start_monotone (i j : nat) :
  (i ≤ j < length binlogFiles)%nat → tr_start (rng i) ≤ tr_start (rng j).
Proof.
  intros Hij. destruct Hincr as [Hvalid Hlt].
  destruct (decide (i = j)) as [-> | Hne]; [lia|].
  pose proof (Hlt i j ltac:(lia)). pose proof (Hvalid i ltac:(lia)). lia.
Qed.

(** When the target lies after segment [i] and before every later
    segment, the search closes in on the gap having cached segment [i]. *)
Lemma searchLoop_gap (i : nat) file (fuel : nat) st :
  binlogFiles !! i = Some file →
  tr_end (rng i) < targetTime →
  (∀ j, (i < j < length binlogFiles)%nat → targetTime < tr_start (rng j)) →
  InBounds binlogFiles st → CacheAgrees binlogFiles rng st →
  st_validFiles st = dom (st_timeRanges st) →
  st_left st - 1 ≤ Z.of_nat i ≤ st_right st →
  (st_left st = Z.of_nat i + 1 → st_timeRanges st !! file = Some (rng i)) →
  (loopMeasure st ≤ fuel)%nat →
  ∃ out, searchLoop fuel srv binlogFiles targetTime st = Done out ∧
    (st_errorCount st < st_errorCount out.2 ∨
     (out.1 = None ∧ CacheAgrees binlogFiles rng out.2 ∧
      st_validFiles out.2 = dom (st_timeRanges out.2) ∧
      st_timeRanges out.2 !! file = Some (rng i))).
Proof.
  intros Hi Hafter Hbefore Hb Hcache Hdom Hbetween Hcached Hfuel.
  assert ((i < length binlogFiles)%nat) as Hi' by (by eapply lookup_lt_Some).
  apply (clean_search_rule srv binlogFiles rng targetTime Hranges
    (λ st, st_validFiles st = dom (st_timeRanges st) ∧
           st_left st - 1 ≤ Z.of_nat i ≤ st_right st ∧
           (st_left st = Z.of_nat i + 1 → st_timeRanges st !! file = Some (rng i)))
    (λ out, out.1 = None ∧ CacheAgrees binlogFiles rng out.2 ∧
            st_validFiles out.2 = dom (st_timeRanges out.2) ∧
            st_timeRanges out.2 !! file = Some (rng i))
    (st_errorCount st)); [| |done|done| |done|done].
  - clear st Hb Hcache Hdom Hbetween Hcached Hfuel.
    intros st st' f [Hlo Hhi] Hle (Hdom & Hbetween & Hcached) Hf Hr Hcache' Hst'.
    pose proof (midpoint_between st Hle) as Hmid.
    assert (st_left st' = st_left st ∧ st_right st' = st_right st ∧
            st_validFiles st' = dom (st_timeRanges st')) as (Hl' & Hr' & Hdom').
    { destruct Hst' as [-> | ->]; [done|]. simpl. by rewrite dom_insert_L, Hdom. }
    assert (st_left st = Z.of_nat i + 1 → st_timeRanges st' !! file = Some (rng i))
      as Hcached'.
    { intros Hleft. specialize (Hcached Hleft).
      assert (is_Some (st_timeRanges st' !! file)) as [r' Hfile'].
      { destruct Hst' as [-> | ->]; [by eauto|]. simpl.
        destruct (decide (f = file)) as [-> | Hne].
        - rewrite lookup_insert_eq. by eauto.
        - rewrite lookup_insert_ne by done. by eauto. }
      destruct (Hcache' file r' Hfile') as [_ Hagree].
      by rewrite (Hagree i Hi) in Hfile'. }
    set (m := Z.to_nat (midpoint st)) in *.
    assert ((m < length binlogFiles)%nat) as Hm by lia.
    pose proof (proj1 Hincr m Hm) as Hvm. cbv zeta.
    destruct (decide (m ≤ i)%nat) as [Hmi | Hmi].
    + pose proof (end_monotone binlogFiles rng Hincr m i ltac:(lia)) as Hmono.
      split; [lia|]. split; [lia|]. intros _ _.
      split; [done|]. split; [simpl; lia|]. simpl. intros Hend.
      assert (m = i) as Heq by lia. rewrite Heq in Hf, Hr. congruence.
    + pose proof (Hbefore m ltac:(lia)).
      split; [lia|]. split; [|lia]. intros _.
      split; [done|]. split; [simpl; lia|]. simpl. intros Hend.
      apply Hcached'. lia.
  - intros st0 Hcache0 (Hdom0 & Hbetween0 & Hdone) Hexit.
    split; [done|]. split; [done|]. split; [done|]. apply Hdone. lia.
  - done.
Qed.


(** When the target lies before every range, the search moves left
    and caches only segments that end after the target. *)
Lemma searchLoop_before (fuel : nat) st :
  (0 < length binlogFiles)%nat →
  targetTime < tr_start (rng 0%nat) →
  InBounds binlogFiles st → CacheAgrees binlogFiles rng st →
  st_validFiles st = dom (st_timeRanges st) →
  (loopMeasure st ≤ fuel)%nat →
  ∃ out, searchLoop fuel srv binlogFiles targetTime st = Done out ∧
    (st_errorCount st < st_errorCount out.2 ∨
     (out.1 = None ∧ CacheAgrees binlogFiles rng out.2 ∧
      st_validFiles out.2 = dom (st_timeRanges out.2))).
Proof.
  intros Hlen Hbefore Hb Hcache Hdom Hfuel.
  apply (clean_search_rule srv binlogFiles rng targetTime Hranges
    (λ st, st_validFiles st = dom (st_timeRanges st))
    (λ out, out.1 = None ∧ CacheAgrees binlogFiles rng out.2 ∧
            st_validFiles out.2 = dom (st_timeRanges out.2))
    (st_errorCount st)); [| |done..].
  - clear st Hb Hcache Hdom Hfuel.
    intros st st' f [Hlo Hhi] Hle Hdom Hf Hr Hcache' Hst'.
    pose proof (midpoint_between st Hle) as Hmid.
    assert (st_validFiles st' = dom (st_timeRanges st')) as Hdom'.
    { destruct Hst' as [-> | ->]; [done|]. simpl. by rewrite dom_insert_L, Hdom. }
    set (m := Z.to_nat (midpoint st)) in *.
    pose proof (start_monotone 0 m ltac:(lia)) as Hmono. cbv zeta.
    split; [lia|]. split; [done | lia].
  - by intros st0 Hcache0 Hdom0 _.
Qed.

End Gaps.

(** The search returns the segment that precedes the gap the target
    lies in. *)
Lemma closest_preceding_core (srv : Server) (order : RangeOrder)
    (binlogFiles : list string) (rng : nat → TimeRange) (targetTime : time.Time)
    (i : nat) (file : string) :
  validOrder order →
  sortedByName binlogFiles →
  rangesAre srv binlogFiles rng →
  rangesIncreasing (length binlogFiles) rng →
  searchFailures srv order binlogFiles targetTime = 0 →
  binlogFiles !! i = Some file →
  tr_end (rng i) < targetTime →
  (∀ j, (i < j < length binlogFiles)%nat → targetTime < tr_start (rng j)) →
  BinarySearchBinlogs srv order binlogFiles targetTime = Done (file, false).
Proof.
  intros Horder Hsorted Hranges Hincr Hclean Hi Hafter Hbefore.
  unfold BinarySearchBinlogs.
  assert ((i < length binlogFiles)%nat) as Hlen by (by eapply lookup_lt_Some).
  destruct (decide (length binlogFiles = 1%nat)) as [Hone | Hmore].
  - destruct binlogFiles as [|f0 [|f1 rest]]; [done | | done].
    destruct i as [|i]; [|simpl in Hlen; lia]. injection Hi as ->.
    destruct (outcome srv 0 file) as [r|e] eqn:Hout.
    + rewrite searchRun_single, Hout.
      rewrite (Hranges 0%nat 0%nat file r eq_refl Hout).
      destruct (within targetTime (rng 0%nat)) eqn:Hw; [|done].
      apply within_spec in Hw. lia.
    + rewrite (searchFailures_single srv order file targetTime e Hout) in Hclean. done.
  - destruct (searchLoop_gap srv binlogFiles rng targetTime Hranges Hincr
                i file (length binlogFiles) (initialState binlogFiles))
      as ([out st] & Hloop & Hout); [done | done | done | | | done | | | |].
    + split; simpl; lia.
    + apply CacheAgrees_initial.
    + simpl. lia.
    + simpl. lia.
    + unfold loopMeasure. simpl. lia.
    + destruct (searchRun_loop srv order binlogFiles targetTime (out, st))
        as [Hfail Hrun]; [lia | done |].
      simpl in Hout, Hfail, Hrun. rewrite Hfail in Hclean.
      destruct Hout as [Hgrown | (-> & Hcache & Hdom & Hstored)]; [lia|].
      rewrite Hrun. clear Hrun Hloop Hfail Hclean.
      destruct Hincr as [Hvalid Hlt].
      assert (file ∈ st_validFiles st) as Hin.
      { rewrite Hdom. apply elem_of_dom. eauto. }
      assert (endIn (st_timeRanges st) file = tr_end (rng i)) as Hend.
      { unfold endIn, lookupRange. by rewrite Hstored. }
      assert (∀ h, h ∈ order (st_validFiles st) →
                ∃ j, binlogFiles !! j = Some h ∧ (j < length binlogFiles)%nat ∧
                     endIn (st_timeRanges st) h = tr_end (rng j)) as Hvisited.
      { intros h Hh. apply (validOrder_elem_of _ _ _ Horder) in Hh.
        rewrite Hdom in Hh. apply elem_of_dom in Hh as [r Hr].
        destruct (Hcache h r Hr) as [[j Hj]%list_elem_of_lookup_1 Hagree].
        exists j. split; [done|]. split; [by eapply lookup_lt_Some|].
        unfold endIn, lookupRange. by rewrite Hr, (Hagree j Hj). }
      destruct (fallback_cases order binlogFiles targetTime st) as (f & -> & Hcases).
      { intros Hnil. rewrite Hnil in Hlen. simpl in Hlen. lia. }
      destruct (decide (file = "")) as [Hname | Hname].
      * assert (i = 0%nat) as ->.
        { destruct (decide (i = 0%nat)) as [|Hpos]; [done|]. exfalso.
          destruct (lookup_lt_is_Some_2 binlogFiles 0) as [first Hfirst]; [lia|].
          pose proof (Hsorted 0%nat i first file ltac:(lia) Hfirst Hi) as Hle.
          rewrite Hname in Hle. apply leb_empty in Hle. subst first file.
          destruct (Hcache "" _ Hstored) as [_ Hagree].
          pose proof (Hagree 0%nat Hfirst) as Hsame.
          pose proof (Hlt 0%nat i ltac:(lia)).
          pose proof (Hvalid 0%nat ltac:(lia)). rewrite Hsame in *. lia. }
        assert (closestFile order targetTime (st_validFiles st) (st_timeRanges st) = "")
          as Hclosest.
        { unfold closestFile. apply closest_fold_unnamed; [|done].
          intros h Hh Hq. destruct (Hvisited h Hh) as (j & Hj & Hjlen & Hjend).
          destruct (decide (j = 0%nat)) as [-> | Hpos]; [congruence|].
          pose proof (Hbefore j ltac:(lia)). pose proof (Hvalid j Hjlen). lia. }
        destruct Hcases as [(_ & Hf & Hc) | [_ Hf]]; congruence.
      * assert (closestFile order targetTime (st_validFiles st) (st_timeRanges st) = file)
          as Hclosest.
        { unfold closestFile.
          rewrite (closest_fold_unique targetTime (st_timeRanges st) file);
            [done | done | lia | |].
          - intros h Hh Hne. destruct (Hvisited h Hh) as (j & Hj & Hjlen & Hjend).
            rewrite Hjend, Hend.
            destruct (Nat.lt_trichotomy j i) as [Hji | [Hji | Hji]].
            + left. pose proof (Hlt j i ltac:(lia)). pose proof (Hvalid i Hlen). lia.
            + subst j. congruence.
            + right. pose proof (Hbefore j ltac:(lia)). pose proof (Hvalid j Hjlen). lia.
          - left. split; [by apply (validOrder_elem_of _ _ _ Horder) | by left]. }
        destruct Hcases as [(_ & _ & Hf) | [[Hsize | Hempty] _]].
        -- congruence.
        -- apply size_empty_iff in Hsize. rewrite Hsize in Hin.
           by apply not_elem_of_empty in Hin.
        -- congruence.
Qed.

(** X8. For a list in name order whose ranges are non-overlapping and
    monotonically increasing, a search in which no extraction fails,
    and a target after the end of segment [i] and before the start of
    every later segment, the search returns segment [i] with
    [exactMatch] false. *)
Theorem closest_preceding_segment (srv : Server) (order : RangeOrder)
    (binlogFiles : list string) (rng : nat → TimeRange) (targetTime : time.Time)
    (i : nat) (file : string) :
  validOrder order →
  sortedByName binlogFiles →
  rangesAre srv binlogFiles rng →
  rangesIncreasing (length binlogFiles) rng →
  searchFailures srv order binlogFiles targetTime = 0 →
  binlogFiles !! i = Some file →
  tr_end (rng i) < targetTime →
  (∀ j, (i < j < length binlogFiles)%nat → targetTime < tr_start (rng j)) →
  BinarySearchBinlogs srv order binlogFiles targetTime = Done (file, false).
Proof. apply closest_preceding_core. Qed.

(** Before every range, nothing cached qualifies in the fallback and
    the first segment is the answer. *)
Lemma before_first_core (srv : Server) (order : RangeOrder)
    (binlogFiles : list string) (rng : nat → TimeRange) (targetTime : time.Time)
    (first : string) :
  validOrder order →
  rangesAre srv binlogFiles rng →
  rangesIncreasing (length binlogFiles) rng →
  searchFailures srv order binlogFiles targetTime = 0 →
  binlogFiles !! 0%nat = Some first →
  targetTime < tr_start (rng 0%nat) →
  BinarySearchBinlogs srv order binlogFiles targetTime = Done (first, false).
Proof.
  intros Horder Hranges Hincr Hclean Hfirst Hbefore.
  unfold BinarySearchBinlogs.
  assert ((0 < length binlogFiles)%nat) as Hlen by (by eapply lookup_lt_Some).
  destruct (decide (length binlogFiles = 1%nat)) as [Hone | Hmore].
  - destruct binlogFiles as [|f0 [|f1 rest]]; [done | | done].
    injection Hfirst as ->.
    destruct (outcome srv 0 first) as [r|e] eqn:Hout.
    + rewrite searchRun_single, Hout.
      rewrite (Hranges 0%nat 0%nat first r eq_refl Hout).
      destruct (within targetTime (rng 0%nat)) eqn:Hw; [|done].
      apply within_spec in Hw. lia.
    + rewrite (searchFailures_single srv order first targetTime e Hout) in Hclean. done.
  - destruct (searchLoop_before srv binlogFiles rng targetTime Hranges Hincr
                (length binlogFiles) (initialState binlogFiles))
      as ([out st] & Hloop & Hout); [done | done | | | done | |].
    + split; simpl; lia.
    + apply CacheAgrees_initial.
    + unfold loopMeasure. simpl. lia.
    + destruct (searchRun_loop srv order binlogFiles targetTime (out, st))
        as [Hfail Hrun]; [lia | done |].
      simpl in Hout, Hfail, Hrun. rewrite Hfail in Hclean.
      destruct Hout as [Hgrown | (-> & Hcache & Hdom)]; [lia|].
      rewrite Hrun. clear Hrun Hloop Hfail Hclean.
      destruct (fallback_cases order binlogFiles targetTime st) as (f & -> & Hcases).
      { intros Hnil. rewrite Hnil in Hlen. simpl in Hlen. lia. }
      assert (closestFile order targetTime (st_validFiles st) (st_timeRanges st) = "")
        as Hclosest.
      { unfold closestFile. apply closest_fold_unnamed; [|done].
        intros h Hh Hq. exfalso.
        apply (validOrder_elem_of _ _ _ Horder) in Hh.
        rewrite Hdom in Hh. apply elem_of_dom in Hh as [r Hr].
        destruct (Hcache h r Hr) as [[j Hj]%list_elem_of_lookup_1 Hagree].
        unfold endIn, lookupRange in Hq. rewrite Hr, (Hagree j Hj) in Hq. simpl in Hq.
        assert ((j < length binlogFiles)%nat) as Hjlen by (by eapply lookup_lt_Some).
        pose proof (start_monotone binlogFiles rng Hincr 0 j ltac:(lia)).
        pose proof (proj1 Hincr j Hjlen). lia. }
      destruct Hcases as [(_ & Hf & Hc) | [_ Hf]]; congruence.
Qed.

(** X9. For a list whose ranges are non-overlapping and monotonically
    increasing, a search in which no extraction fails, and a target
    before the start of the first segment, the search returns the
    first segment with [exactMatch] false. *)
Theorem target_before_first (srv : Server) (order : RangeOrder)
    (binlogFiles : list string) (rng : nat → TimeRange) (targetTime : time.Time)
    (first : string) :
  validOrder order →
  rangesAre srv binlogFiles rng →
  rangesIncreasing (length binlogFiles) rng →
  searchFailures srv order binlogFiles targetTime = 0 →
  binlogFiles !! 0%nat = Some first →
  targetTime < tr_start (rng 0%nat) →
  BinarySearchBinlogs srv order binlogFiles targetTime = Done (first, false).
Proof. apply before_first_core. Qed.

(** * Properties of the segment lister *)

Section Lister.

Implicit Types (rs : list Row) (db : BinaryLogs) (l : list string).

Lemma stringLe_trans : Transitive stringLe.
Proof.
  unfold stringLe, String.leb. intros a.
  induction a as [|x a IH]; intros b c; destruct b as [|y b], c as [|z c];
    simpl; try done.
  unfold Ascii.compare.
  destruct (N.compare_spec (Ascii.N_of_ascii x) (Ascii.N_of_ascii y)) as [Hxy | Hxy | Hxy];
    destruct (N.compare_spec (Ascii.N_of_ascii y) (Ascii.N_of_ascii z)) as [Hyz | Hyz | Hyz];
    try done.
  - rewrite Hxy, Hyz, N.compare_refl. apply IH.
  - intros _ _. rewrite Hxy. by apply N.compare_lt_iff in Hyz as ->.
  - intros _ _. rewrite <- Hyz. by apply N.compare_lt_iff in Hxy as ->.
  - intros _ _. assert ((Ascii.N_of_ascii x < Ascii.N_of_ascii z)%N) as Hxz by lia.
    by apply N.compare_lt_iff in Hxz as ->.
Qed.

Lemma stringLe_total : Total stringLe.
Proof. intros a b. apply String.leb_total. Qed.

Lemma stringLe_antisym : AntiSymm eq stringLe.
Proof. intros a b. apply String.leb_antisym. Qed.

Lemma sortStrings_sorted l : StronglySorted stringLe (sortStrings l).
Proof.
  apply StronglySorted_merge_sort; [apply stringLe_trans | apply stringLe_total].
Qed.

Lemma StronglySorted_sortedByName l : StronglySorted stringLe l → sortedByName l.
Proof.
  induction 1 as [|a l Hsorted IH Hall]; intros i j x y Hij Hi Hj.
  { by rewrite lookup_nil in Hi. }
  destruct j as [|j]; [lia|]. simpl in Hj.
  destruct i as [|i].
  - simpl in Hi. injection Hi as <-.
    rewrite Forall_forall in Hall. apply Hall. by eapply list_elem_of_lookup_2.
  - simpl in Hi. apply (IH i j); [lia | done | done].
Qed.

Lemma scanRows_names rs l :
  scanRows rs l
  = if decide (RowScanError ∈ rs) then None else Some (l ++ rowNames rs).
Proof.
  revert l. induction rs as [|[filename size|] rs IH]; intros l; cbn [scanRows].
  - rewrite decide_False by apply not_elem_of_nil. by rewrite app_nil_r.
  - rewrite IH.
    change (rowNames (RowOk filename size :: rs)) with (filename :: rowNames rs).
    rewrite <- app_assoc. cbn [app].
    destruct (decide (RowScanError ∈ rs)) as [Hin | Hout].
    + rewrite decide_True; [done | by apply list_elem_of_further].
    + rewrite decide_False; [done|].
      intros [[=] | Hin]%elem_of_cons. done.
  - rewrite decide_True; [done | apply list_elem_of_here].
Qed.

(** X10. A listing that succeeds is the file names of the rows, all of
    them, in the order of [sort.Strings]. *)
Theorem listing_sorted db l :
  GetBinlogFiles db = Listed l →
  sortedByName l ∧ l ≡ₚ rowNames (rows db) ∧ length l = length (rows db).
Proof.
  unfold GetBinlogFiles.
  destruct (negb (openOk db)); [done|]. destruct (negb (queryOk db)); [done|].
  rewrite scanRows_names. destruct (decide (RowScanError ∈ rows db)) as [|Hscan]; [done|].
  destruct (rowsErr db); [done|]. intros [= <-]. simpl.
  split; [apply StronglySorted_sortedByName, sortStrings_sorted|].
  assert (sortStrings (rowNames (rows db)) ≡ₚ rowNames (rows db)) as Hperm.
  { apply merge_sort_Permutation. }
  split; [done|]. rewrite Hperm.
  clear Hperm. induction (rows db) as [|[filename size|] rs IH]; [done | |].
  - change (rowNames (RowOk filename size :: rs)) with (filename :: rowNames rs).
    simpl. f_equal. apply IH. intros Hin. apply Hscan. by apply list_elem_of_further.
  - exfalso. apply Hscan. apply list_elem_of_here.
Qed.

(** X11. A row that fails to scan fails the whole listing, whatever
    rows were read before it: no partial list is returned. *)
Theorem listing_scan_error db :
  openOk db = true → queryOk db = true → RowScanError ∈ rows db →
  GetBinlogFiles db = ListFailed ErrScan.
Proof.
  intros Hopen Hquery Hscan. unfold GetBinlogFiles.
  rewrite Hopen, Hquery. simpl. rewrite scanRows_names. by rewrite decide_True.
Qed.

(** X12. When the server delivers the names already in order, the
    listing returns them as delivered. *)
Theorem listing_keeps_sorted_rows db :
  openOk db = true → queryOk db = true → rowsErr db = false →
  RowScanError ∉ rows db →
  Sorted stringLe (rowNames (rows db)) →
  GetBinlogFiles db = Listed (rowNames (rows db)).
Proof.
  intros Hopen Hquery Herr Hscan Hsorted. unfold GetBinlogFiles.
  rewrite Hopen, Hquery, Herr. simpl. rewrite scanRows_names.
  rewrite decide_False by done. simpl. f_equal.
  apply (Sorted_unique stringLe (Transitive0 := stringLe_trans)
           (AntiSymm0 := stringLe_antisym)); [|done|].
  - apply Sorted_merge_sort, stringLe_total.
  - apply merge_sort_Permutation.
Qed.

End Lister.

Lemma listed_sortedByName (db : BinaryLogs) (l : list string) :
  GetBinlogFiles db = Listed l → sortedByName l.
Proof.
  unfold GetBinlogFiles.
  destruct (negb (openOk db)); [done|]. destruct (negb (queryOk db)); [done|].
  destruct (scanRows (rows db) []); [|done].
  destruct (rowsErr db); [done|]. intros [= <-].
  apply StronglySorted_sortedByName, sortStrings_sorted.
Qed.

(** X13. The lister and the search together: on the list that
    [GetBinlogFiles] returns, with ranges non-overlapping and
    monotonically increasing along it and no extraction failing, a
    target after the end of segment [i] and before the start of every
    later segment yields segment [i] with [exactMatch] false. *)
Theorem listed_then_closest_preceding (db : BinaryLogs) (srv : Server)
    (order : RangeOrder) (binlogFiles : list string) (rng : nat → TimeRange)
    (targetTime : time.Time) (i : nat) (file : string) :
  GetBinlogFiles db = Listed binlogFiles →
  validOrder order →
  rangesAre srv binlogFiles rng →
  rangesIncreasing (length binlogFiles) rng →
  searchFailures srv order binlogFiles targetTime = 0 →
  binlogFiles !! i = Some file →
  tr_end (rng i) < targetTime →
  (∀ j, (i < j < length binlogFiles)%nat → targetTime < tr_start (rng j)) →
  BinarySearchBinlogs srv order binlogFiles targetTime = Done (file, false).
Proof.
  intros Hlisted Horder. apply closest_preceding_core; [done|].
  by eapply listed_sortedByName.
Qed.

(** * The further properties on the sample data *)

(** X2 on a closed connection, on a deadline reached after three
    reads, and on a stream that ends after one event. *)
Lemma extraction_errors_witness :
  GetTimeRangeForBinlog failingSession "mysql-bin.000001" = Err ErrStartSync ∧
  GetTimeRangeForBinlog timedOutSession "mysql-bin.000001" = Err ErrTimeoutFirst ∧
  GetTimeRangeForBinlog shortSession "mysql-bin.000001" = Err ErrGetEvent.
Proof.
  split; [|split].
  - apply (proj1 (extraction_errors failingSession "mysql-bin.000001")). reflexivity.
  - apply (proj2 (extraction_errors timedOutSession "mysql-bin.000001"));
      [reflexivity|].
    intros ev Hev. simpl in Hev.
    repeat (apply elem_of_cons in Hev as [-> | Hev]; [reflexivity|]).
    by apply elem_of_nil in Hev.
  - apply (proj2 (extraction_errors shortSession "mysql-bin.000001"));
      [reflexivity|].
    intros ev Hev. simpl in Hev.
    repeat (apply elem_of_cons in Hev as [-> | Hev]; [reflexivity|]).
    by apply elem_of_nil in Hev.
Defined.

(** X5 on the scenario of the specification with an unreachable server. *)
Lemma all_extractions_fail_witness :
  BinarySearchBinlogs failingServer elements files3 (time.Unix 250 0)
  = Done ("seg1", false).
Proof.
  apply (all_extractions_fail failingServer elements files3 (time.Unix 250 0) "seg1").
  - intros k file _. reflexivity.
  - reflexivity.
Defined.

Lemma files3_distinct : NoDup files3.
Proof. compute_done. Qed.

(** X7 on the scenario of the specification. *)
Lemma distinct_names_probed_once_witness :
  ∃ file exactMatch st,
    searchRun server3 elements files3 (time.Unix 250 0) = Done (file, exactMatch, st) ∧
    NoDup (st_calls st).
Proof.
  apply (distinct_names_probed_once server3 elements files3 (time.Unix 250 0)).
  exact files3_distinct.
Defined.

(** X8 on the scenario of the specification: the target 200.5 lies
    between seg1 and seg2. *)
Lemma closest_preceding_segment_witness :
  searchFailures server3 elements files3 (time.Unix 200 500000000) = 0 ∧
  BinarySearchBinlogs server3 elements files3 (time.Unix 200 500000000)
  = Done ("seg1", false).
Proof.
  split; [reflexivity|].
  apply (closest_preceding_segment server3 elements files3 range3
           (time.Unix 200 500000000) 0 "seg1").
  - exact validOrder_elements.
  - exact files3_sorted.
  - exact (alwaysExtracts_rangesAre _ _ _ server3_extracts).
  - exact range3_increasing.
  - reflexivity.
  - reflexivity.
  - simpl. unfold time.Unix. lia.
  - intros [|[|[|j]]] Hj; simpl in *; unfold time.Unix; lia.
Defined.

(** X9 on the scenario of the specification: the target 50. *)
Lemma target_before_first_witness :
  searchFailures server3 elements files3 (time.Unix 50 0) = 0 ∧
  BinarySearchBinlogs server3 elements files3 (time.Unix 50 0) = Done ("seg1", false).
Proof.
  split; [reflexivity|].
  apply (target_before_first server3 elements files3 range3 (time.Unix 50 0) "seg1").
  - exact validOrder_elements.
  - exact (alwaysExtracts_rangesAre _ _ _ server3_extracts).
  - exact range3_increasing.
  - reflexivity.
  - reflexivity.
  - simpl. unfold time.Unix. lia.
Defined.

Lemma logs3_listed : GetBinlogFiles logs3 = Listed files3.
Proof. reflexivity. Qed.

(** X10 on a listing delivered out of order. *)
Lemma listing_sorted_witness :
  sortedByName files3 ∧ files3 ≡ₚ rowNames (rows logs3) ∧
  length files3 = length (rows logs3).
Proof. apply (listing_sorted logs3 files3). exact logs3_listed. Defined.

(** X11 on a listing whose second row does not scan. *)
Lemma listing_scan_error_witness :
  GetBinlogFiles logsBroken = ListFailed ErrScan.
Proof.
  apply (listing_scan_error logsBroken); [reflexivity | reflexivity |].
  apply list_elem_of_further, list_elem_of_here.
Defined.

(** X12 on a listing delivered in order. *)
Lemma listing_keeps_sorted_rows_witness :
  GetBinlogFiles logsSorted = Listed ["seg1"; "seg2"; "seg3"].
Proof.
  apply (listing_keeps_sorted_rows logsSorted); [reflexivity.. | |].
  - compute_done.
  - change (Sorted stringLe ["seg1"; "seg2"; "seg3"]).
    repeat constructor.
Defined.

(** X13 on the listing of the scenario: the target 200.5. *)
Lemma listed_then_closest_preceding_witness :
  GetBinlogFiles logs3 = Listed files3 ∧
  BinarySearchBinlogs server3 elements files3 (time.Unix 200 500000000)
  = Done ("seg1", false).
Proof.
  split; [reflexivity|].
  apply (listed_then_closest_preceding logs3 server3 elements files3 range3
           (time.Unix 200 500000000) 0 "seg1").
  - exact logs3_listed.
  - exact validOrder_elements.
  - exact (alwaysExtracts_rangesAre _ _ _ server3_extracts).
  - exact range3_increasing.
  - reflexivity.
  - reflexivity.
  - simpl. unfold time.Unix. lia.
  - intros [|[|[|j]]] Hj; simpl in *; unfold time.Unix; lia.
Defined.

(** * What a search asks of the server *)

Section Calls.

Variables (srv srv' : Server) (binlogFiles : list string) (targetTime : time.Time).

Implicit Types (st : SearchState) (file : string).

(** The comparison calls no extractor. *)
Lemma compareStep_calls file (mid : Z) st :
  match compareStep targetTime file mid st with
  | Continue st' | Break st' | Return _ _ st' => st_calls st' = st_calls st
  | Panic => True
  end.
Proof.
  unfold compareStep. cbv zeta.
  destruct (within _ _); [done|]. by destruct (time.Before _ _).
Qed.

(** An iteration calls the extractor at most once, for the file in the
    middle when its range is not stored, and records the call. *)
Lemma loopBody_calls st :
  match loopBody srv binlogFiles targetTime st with
  | Continue st' | Break st' | Return _ _ st' =>
      st_calls st' = st_calls st ∨
      ∃ file, index binlogFiles (midpoint st) = Some file ∧
              st_timeRanges st !! file = None ∧
              st_calls st' = st_calls st ++ [file]
  | Panic => True
  end.
Proof.
  unfold loopBody. cbv zeta.
  destruct (index binlogFiles (midpoint st)) as [file|] eqn:Hidx; [|done].
  destruct (st_timeRanges st !! file) as [r|] eqn:Hcache.
  - pose proof (compareStep_calls file (midpoint st) st) as Hcmp.
    destruct (compareStep _ _ _ st); auto.
  - destruct (extract srv (st_calls st) file) as [r|e].
    + pose proof (compareStep_calls file (midpoint st) (noteSuccess st file r)) as Hcmp.
      destruct (compareStep _ _ _ _); [right; eauto..|done].
    + destruct (st_errorCount (noteFailure st file) >? 3); [right; eauto|].
      destruct (midpoint st >? 0); right; eauto.
Qed.

(** An iteration depends on the server through that one call only. *)
Lemma loopBody_same st :
  (∀ file, index binlogFiles (midpoint st) = Some file →
     st_timeRanges st !! file = None →
     outcome srv' (length (st_calls st)) file = outcome srv (length (st_calls st)) file) →
  loopBody srv' binlogFiles targetTime st = loopBody srv binlogFiles targetTime st.
Proof.
  intros Hsame. unfold loopBody. cbv zeta.
  destruct (index binlogFiles (midpoint st)) as [file|] eqn:Hidx; [|done].
  destruct (st_timeRanges st !! file) as [r|] eqn:Hcache; [done|].
  unfold extract. fold (outcome srv' (length (st_calls st)) file).
  fold (outcome srv (length (st_calls st)) file).
  by rewrite (Hsame file eq_refl Hcache).
Qed.

(** The calls recorded when the loop is left extend those recorded
    when it was entered. *)
Lemma searchLoop_prefix (fuel : nat) st out :
  searchLoop fuel srv binlogFiles targetTime st = Done out →
  st_calls st `prefix_of` st_calls out.2.
Proof.
  revert st. induction fuel as [|fuel IH]; intros st; simpl.
  - destruct (st_left st <=? st_right st); [done|]. by intros [= <-].
  - destruct (st_left st <=? st_right st); [|by intros [= <-]].
    pose proof (loopBody_calls st) as Hcalls.
    destruct (loopBody srv binlogFiles targetTime st) as [st'|st'|f b st'|]; [| | |done].
    + intros Hrest. apply IH in Hrest.
      destruct Hcalls as [Heq | (file & _ & _ & Heq)]; rewrite Heq in Hrest; [done|].
      etrans; [|done]. by apply prefix_app_r.
    + intros [= <-]. simpl.
      destruct Hcalls as [-> | (file & _ & _ & ->)]; [done|]. by apply prefix_app_r.
    + intros [= <-]. simpl.
      destruct Hcalls as [-> | (file & _ & _ & ->)]; [done|]. by apply prefix_app_r.
Qed.

(** The loop runs alike on two servers that answer its calls alike. *)
Lemma searchLoop_same (fuel : nat) st out :
  searchLoop fuel srv binlogFiles targetTime st = Done out →
  sameCalls srv srv' (st_calls out.2) →
  searchLoop fuel srv' binlogFiles targetTime st = Done out.
Proof.
  revert st. induction fuel as [|fuel IH]; intros st; simpl.
  - by destruct (st_left st <=? st_right st).
  - destruct (st_left st <=? st_right st); [|done].
    intros Hrun Hsame.
    assert (loopBody srv' binlogFiles targetTime st
            = loopBody srv binlogFiles targetTime st) as ->.
    { apply loopBody_same. intros file Hidx Hmiss.
      apply Hsame.
      assert (∃ st', st_calls st' = st_calls st ++ [file] ∧
                     st_calls st' `prefix_of` st_calls out.2) as (st' & Heq & [rest Hrest]).
      { unfold loopBody in Hrun. cbv zeta in Hrun.
        rewrite Hidx, Hmiss in Hrun.
        destruct (extract srv (st_calls st) file) as [r|e].
        - pose proof (compareStep_calls file (midpoint st) (noteSuccess st file r)) as Hcmp.
          destruct (compareStep targetTime file (midpoint st) (noteSuccess st file r))
            as [st'|st'|f b st'|]; [| | |done].
          + exists st'. split; [done|]. by apply (searchLoop_prefix fuel).
          + exists st'. split; [done|]. injection Hrun as <-. done.
          + exists st'. split; [done|]. injection Hrun as <-. done.
        - destruct (st_errorCount (noteFailure st file) >? 3).
          + exists (noteFailure st file). split; [done|]. injection Hrun as <-. done.
          + destruct (midpoint st >? 0).
            * exists (setRight (noteFailure st file) (midpoint st - 1)).
              split; [done|]. by apply (searchLoop_prefix fuel).
            * exists (setLeft (noteFailure st file) (midpoint st + 1)).
              split; [done|]. by apply (searchLoop_prefix fuel). }
      rewrite Hrest, Heq, <- app_assoc.
      rewrite lookup_app_r by lia. by rewrite Nat.sub_diag. }
    destruct (loopBody srv binlogFiles targetTime st) as [st'|st'|f b st'|]; [|done..].
    by apply IH.
Qed.

End Calls.

(** The whole search runs alike on two servers that answer its calls
    alike: the sessions it did not ask for play no part. *)
Lemma searchRun_same (srv srv' : Server) (order : RangeOrder)
    (binlogFiles : list string) (targetTime : time.Time) (file : string)
    (exactMatch : bool) (st : SearchState) :
  searchRun srv order binlogFiles targetTime = Done (file, exactMatch, st) →
  sameCalls srv srv' (st_calls st) →
  searchRun srv' order binlogFiles targetTime = Done (file, exactMatch, st).
Proof.
  intros Hrun Hsame.
  destruct (searchRun_cases _ _ _ _ _ _ _ Hrun)
    as [(-> & -> & -> & ->) | [[-> Hone] | (Hlen & out & Hloop & Hout)]].
  - done.
  - rewrite searchRun_single.
    destruct Hone as [(e & Hout & -> & ->) | (r & Hout & -> & ->)].
    + by rewrite (Hsame 0%nat file eq_refl), Hout.
    + by rewrite (Hsame 0%nat file eq_refl), Hout.
  - apply (searchLoop_same srv srv') in Hloop; [|done].
    unfold searchRun.
    destruct (length binlogFiles) as [|[|n]] eqn:Hn; [lia | lia |].
    cbn [Nat.eqb]. rewrite Hloop.
    destruct Hout as [-> | [-> ->]]; done.
Qed.



Section Absorbed.

Variables (srv : Server) (binlogFiles : list string) (rng : nat → TimeRange)
  (targetTime : time.Time) (f i : nat) (file : string).

Hypothesis Hf : (f ≤ 3)%nat.
Hypothesis Hfail : ∀ k g, (k < f)%nat → isErr (outcome srv k g) = true.
Hypothesis Hok : ∀ k j g, (f ≤ k)%nat → binlogFiles !! j = Some g →
  outcome srv k g = Ok (rng j).
Hypothesis Hincr : rangesIncreasing (length binlogFiles) rng.
Hypothesis Hi : binlogFiles !! i = Some file.
Hypothesis Hin : tr_start (rng i) ≤ targetTime ≤ tr_end (rng i).

Implicit Types (st : SearchState).




End Absorbed.

(** * Early stop *)





(** * The cache on a list that repeats one name *)

(** One unfolding of the loop. *)
Lemma searchLoop_S (fuel : nat) (srv : Server) (binlogFiles : list string)
    (targetTime : time.Time) (st : SearchState) :
  searchLoop (S fuel) srv binlogFiles targetTime st
  = if st_left st <=? st_right st then
      match loopBody srv binlogFiles targetTime st with
      | Continue st' => searchLoop fuel srv binlogFiles targetTime st'
      | Break st' => Done (None, st')
      | Return file exactMatch st' => Done (Some (file, exactMatch), st')
      | Panic => IndexOutOfRange
      end
    else Done (None, st).
Proof. done. Qed.


Section SameName.

Variables (srv : Server) (order : RangeOrder) (a : string)
  (targetTime : time.Time) (r : TimeRange).

Hypothesis Horder : validOrder order.

Implicit Types (st : SearchState) (n : nat).

Lemma order_singleton : order {[a]} = [a].
Proof.
  pose proof (Horder {[a]}) as Hperm. rewrite elements_singleton in Hperm.
  by apply Permutation_singleton_r in Hperm.
Qed.

Lemma holdsOnly_noteSuccess st :
  st_timeRanges st = ∅ → st_validFiles st = ∅ → (holdsOnly a r) (noteSuccess st a r).
Proof.
  intros Hcache Hvalid. split; simpl.
  - by rewrite Hcache, insert_empty.
  - rewrite Hvalid. by rewrite union_empty_r_L.
Qed.

(** The fallback on such a state answers [a]. *)
Lemma fallback_holdsOnly n st :
  (holdsOnly a r) st →
  fallback order (replicate (S n) a) targetTime st = Done (a, false).
Proof.
  intros [Hcache Hvalid]. unfold fallback. rewrite Hvalid, size_singleton.
  change (0 <? 1)%nat with true. cbv iota.
  unfold closestFile. rewrite order_singleton. cbn [fold_left].
  assert (index (replicate (S n) a) 0 = Some a) as Hidx by done.
  rewrite Hidx, length_replicate. change (0 <? S n)%nat with true. cbv iota.
  destruct (String.eqb_spec (closestStep targetTime (st_timeRanges st) ("", time.zero) a).1 "")
    as [Hempty | Hname]; simpl; [done|].
  unfold closestStep in *. cbv zeta in *.
  destruct (negb (time.Before targetTime (tr_end (lookupRange (st_timeRanges st) a))));
    [|done].
  simpl in *. done.
Qed.

(** One iteration on a state that holds [r] for [a]. *)
Lemma holdsOnly_step n st :
  InBounds (replicate (S n) a) st → st_left st ≤ st_right st → (holdsOnly a r) st →
  loopBody srv (replicate (S n) a) targetTime st
  = compareStep targetTime a (midpoint st) st ∧
  lookupRange (st_timeRanges st) a = r.
Proof.
  intros Hb Hle [Hcache Hvalid].
  destruct (loopBody_cases srv (replicate (S n) a) targetTime st Hb Hle)
    as (g & Hg & Hcases).
  apply lookup_replicate in Hg as [-> _].
  assert (st_timeRanges st !! a = Some r) as Hr.
  { rewrite Hcache. apply lookup_singleton_eq. }
  split; [|by apply lookupRange_Some].
  destruct Hcases as [(r' & _ & Hbody) | [(r' & Hmiss & _) | (e & Hmiss & _)]];
    [done | congruence | congruence].
Qed.

(** From a state that holds [r] for [a], a range that does not contain
    the target, the loop ends without a file and the cache as it was. *)
Lemma holdsOnly_loop n (fuel : nat) st :
  within targetTime r = false →
  InBounds (replicate (S n) a) st → (holdsOnly a r) st →
  (loopMeasure st ≤ fuel)%nat →
  ∃ st', searchLoop fuel srv (replicate (S n) a) targetTime st = Done (None, st') ∧
         (holdsOnly a r) st'.
Proof.
  intros Hout Hb Hst Hfuel.
  destruct (searchLoop_rule srv (replicate (S n) a) targetTime
              (λ st, InBounds (replicate (S n) a) st ∧ (holdsOnly a r) st)
              (λ out, out.1 = None ∧ (holdsOnly a r) out.2))
    with (fuel := fuel) (st := st) as ([out st'] & Hloop & Hnone & Hst');
    [| |done|done|].
  - clear st Hb Hst Hfuel. intros st [Hb Hst] Hle.
    pose proof Hb as [Hlo Hhi].
    pose proof (midpoint_between st Hle) as Hmid.
    destruct (holdsOnly_step n st Hb Hle Hst) as [-> Hr].
    unfold compareStep. cbv zeta. rewrite Hr, Hout.
    destruct (time.Before targetTime (tr_start r)).
    + split; [|unfold loopMeasure; simpl; lia].
      split; [unfold InBounds in *; simpl st_left; simpl st_right; lia | done].
    + split; [|unfold loopMeasure; simpl; lia].
      split; [unfold InBounds in *; simpl st_left; simpl st_right; lia | done].
  - intros st0 [_ Hst0] _. split; [done | done].
  - simpl in Hnone. subst out. eauto.
Qed.

(** The range of the first successful extraction is stored and decides
    every later probe of the name: the sessions of later calls play no
    part. *)
Lemma first_success_decides n :
  outcome srv 0 a = Ok r →
  BinarySearchBinlogs srv order (replicate (S n) a) targetTime
  = Done (a, within targetTime r).
Proof.
  intros Hok. unfold BinarySearchBinlogs.
  destruct n as [|n].
  { change (replicate 1 a) with [a]. by rewrite searchRun_single, Hok. }
  set (files := replicate (S (S n)) a).
  assert (length files = S (S n)) as Hlen by apply length_replicate.
  set (st0 := initialState files).
  assert (InBounds files st0) as Hb0 by (split; simpl; lia).
  assert (st_left st0 ≤ st_right st0) as Hle0 by (simpl; lia).
  destruct (loopBody_cases srv files targetTime st0 Hb0 Hle0) as (g & Hg & Hcases).
  apply lookup_replicate in Hg as [-> _].
  destruct Hcases as [(r' & Hr' & _) | [(r' & _ & Hext & Hbody) | (e & _ & Hext & _)]].
  { simpl in Hr'. by rewrite lookup_empty in Hr'. }
  2: { unfold extract in Hext. simpl in Hext. unfold outcome in Hok. congruence. }
  assert (r' = r) as ->.
  { unfold extract in Hext. simpl in Hext. unfold outcome in Hok. congruence. }
  set (st1 := noteSuccess st0 a r) in *.
  assert ((holdsOnly a r) st1) as Hst1 by (by apply holdsOnly_noteSuccess).
  assert (lookupRange (st_timeRanges st1) a = r) as Hr.
  { apply lookupRange_Some. destruct Hst1 as [-> _]. apply lookup_singleton_eq. }
  pose proof (midpoint_between st0 Hle0) as Hmid.
  unfold searchRun. rewrite Hlen. cbn [Nat.eqb]. fold st0.
  rewrite searchLoop_S.
  replace (st_left st0 <=? st_right st0) with true by (symmetry; apply Z.leb_le; lia).
  rewrite Hbody. unfold compareStep. cbv zeta. rewrite Hr.
  destruct (within targetTime r) eqn:Hw; [done|].
  unfold InBounds in Hb0. rewrite Hlen in Hb0. subst files.
  destruct (time.Before targetTime (tr_start r)).
  - destruct (holdsOnly_loop (S n) (S n) (setRight st1 (midpoint st0 - 1)))
      as (st' & -> & Hst'); [done | | done | |].
    + split; [simpl; lia|]. rewrite length_replicate. simpl in *. lia.
    + unfold loopMeasure. simpl in *. lia.
    + by rewrite (fallback_holdsOnly (S n) st' Hst').
  - destruct (holdsOnly_loop (S n) (S n) (setLeft st1 (midpoint st0 + 1)))
      as (st' & -> & Hst'); [done | | done | |].
    + split; [simpl; lia|]. rewrite length_replicate. simpl in *. lia.
    + unfold loopMeasure. simpl in *. lia.
    + by rewrite (fallback_holdsOnly (S n) st' Hst').
Qed.

(** A successful extraction of [a] into an empty cache decides the
    rest of the loop. *)
Lemma success_decides n (fuel : nat) st :
  extract srv (st_calls st) a = Ok r →
  st_timeRanges st = ∅ → st_validFiles st = ∅ →
  InBounds (replicate (S n) a) st → st_left st ≤ st_right st →
  (loopMeasure st ≤ S fuel)%nat →
  ∃ out, searchLoop (S fuel) srv (replicate (S n) a) targetTime st = Done out ∧
         if within targetTime r then out.1 = Some (a, true)
         else out.1 = None ∧ (holdsOnly a r) out.2.
Proof.
  intros Hext Hcache Hvalid Hb Hle Hfuel.
  destruct (loopBody_cases srv (replicate (S n) a) targetTime st Hb Hle)
    as (g & Hg & Hcases).
  apply lookup_replicate in Hg as [-> _].
  destruct Hcases as [(r' & Hr' & _) | [(r' & _ & Hext' & Hbody) | (e & _ & Hext' & _)]].
  { rewrite Hcache in Hr'. by rewrite lookup_empty in Hr'. }
  2: { congruence. }
  assert (r' = r) as -> by congruence.
  set (st1 := noteSuccess st a r) in *.
  assert ((holdsOnly a r) st1) as Hst1 by (by apply holdsOnly_noteSuccess).
  assert (lookupRange (st_timeRanges st1) a = r) as Hr.
  { apply lookupRange_Some. destruct Hst1 as [-> _]. apply lookup_singleton_eq. }
  pose proof (midpoint_between st Hle) as Hmid.
  rewrite searchLoop_S.
  replace (st_left st <=? st_right st) with true by (symmetry; apply Z.leb_le; lia).
  rewrite Hbody. unfold compareStep. cbv zeta. rewrite Hr.
  destruct (within targetTime r) eqn:Hw; [by eexists|].
  unfold InBounds in Hb. rewrite length_replicate in Hb.
  destruct (time.Before targetTime (tr_start r)).
  - destruct (holdsOnly_loop n fuel (setRight st1 (midpoint st - 1)))
      as (st' & -> & Hst'); [done | | done | |].
    + split; [simpl; lia|]. rewrite length_replicate. simpl. lia.
    + unfold loopMeasure in *. simpl. lia.
    + by eexists.
  - destruct (holdsOnly_loop n fuel (setLeft st1 (midpoint st + 1)))
      as (st' & -> & Hst'); [done | | done | |].
    + split; [simpl; lia|]. rewrite length_replicate. simpl. lia.
    + unfold loopMeasure in *. simpl. lia.
    + by eexists.
Qed.

(** A failed extraction is not stored: the next probe of the name
    calls the extractor again, and the range of that call decides. *)
Lemma failure_not_stored n e :
  outcome srv 0 a = Err e → outcome srv 1 a = Ok r →
  BinarySearchBinlogs srv order (replicate (S (S n)) a) targetTime
  = Done (a, within targetTime r).
Proof.
  intros Herr Hok. unfold BinarySearchBinlogs.
  pose proof (length_replicate (S (S n)) a) as Hlen.
  set (st0 := initialState (replicate (S (S n)) a)).
  assert (InBounds (replicate (S (S n)) a) st0) as Hb0 by (split; simpl; lia).
  assert (st_left st0 ≤ st_right st0) as Hle0 by (simpl; lia).
  destruct (loopBody_cases srv (replicate (S (S n)) a) targetTime st0 Hb0 Hle0)
    as (g & Hg & Hcases).
  apply lookup_replicate in Hg as [-> _].
  destruct Hcases as [(r' & Hr' & _) | [(r' & _ & Hext & _) | (e' & _ & _ & Hbody)]].
  { simpl in Hr'. by rewrite lookup_empty in Hr'. }
  { unfold extract in Hext. simpl in Hext. unfold outcome in Herr. congruence. }
  pose proof (midpoint_between st0 Hle0) as Hmid.
  assert (st_right st0 = Z.of_nat n + 1) as Hright.
  { unfold st0, initialState. cbn [st_right]. rewrite Hlen. lia. }
  assert (st_left st0 = 0) as Hleft by done.
  unfold searchRun. rewrite Hlen. cbn [Nat.eqb]. fold st0.
  rewrite searchLoop_S.
  replace (st_left st0 <=? st_right st0) with true by (symmetry; apply Z.leb_le; lia).
  rewrite Hbody. change (st_errorCount (noteFailure st0 a) >? 3) with false. cbv iota.
  assert (∀ st1,
            st_timeRanges st1 = ∅ → st_validFiles st1 = ∅ → st_calls st1 = [a] →
            InBounds (replicate (S (S n)) a) st1 → st_left st1 ≤ st_right st1 →
            (loopMeasure st1 ≤ S n)%nat →
            match
              match searchLoop (S n) srv (replicate (S (S n)) a) targetTime st1 with
              | Done (Some (file, exactMatch), st) => Done (file, exactMatch, st)
              | Done (None, st) =>
                  match fallback order (replicate (S (S n)) a) targetTime st with
                  | Done (file, exactMatch) => Done (file, exactMatch, st)
                  | IndexOutOfRange => IndexOutOfRange
                  | OutOfFuel => OutOfFuel
                  end
              | IndexOutOfRange => IndexOutOfRange
              | OutOfFuel => OutOfFuel
              end
            with
            | Done (file, exactMatch, _) => Done (file, exactMatch)
            | IndexOutOfRange => IndexOutOfRange
            | OutOfFuel => OutOfFuel
            end = Done (a, within targetTime r)) as Hrest.
  { intros st1 Hcache Hvalid Hcalls Hb1 Hle1 Hfuel.
    destruct (success_decides (S n) n st1) as ([out st2] & -> & Hout);
      [| done | done | done | done | done |].
    { unfold extract. rewrite Hcalls. simpl. exact Hok. }
    destruct (within targetTime r); simpl in Hout.
    - by rewrite Hout.
    - destruct Hout as [-> Hst2]. by rewrite (fallback_holdsOnly (S n) st2 Hst2). }
  unfold InBounds in Hb0. rewrite Hlen in Hb0.
  destruct (midpoint st0 >? 0) eqn:Hpos.
  - apply Z.gtb_lt in Hpos. apply Hrest; [done | done | done | | |].
    + split; [simpl; lia|]. rewrite Hlen. simpl. lia.
    + simpl. lia.
    + unfold loopMeasure. simpl. lia.
  - rewrite Z.gtb_ltb in Hpos. apply Z.ltb_ge in Hpos.
    assert (midpoint st0 = 0) as Hzero by lia.
    assert (n = 0%nat) as ->.
    { unfold midpoint in Hzero. rewrite Hleft, Hright, Z.sub_0_r, Z.add_0_l in Hzero.
      rewrite Z.quot_div_nonneg in Hzero by lia.
      destruct (decide (n = 0%nat)) as [|Hn]; [done|]. exfalso.
      pose proof (Z.div_le_lower_bound (Z.of_nat n + 1) 2 1 ltac:(lia) ltac:(lia)). lia. }
    apply Hrest; [done | done | done | | |].
    + split; [simpl; lia|]. simpl. lia.
    + simpl. lia.
    + unfold loopMeasure. simpl. lia.
Qed.

End SameName.

(** * Failures and the cache *)


(** C7, as amended.  The cache stores the range of a successful
    extraction and nothing else, and a stored range replaces every
    later extraction of the name.  For every search: its answer depends
    on the server through the extractor calls it made and on nothing
    else; the ranges stored at the end are exactly those of the calls
    that succeeded; and no name is extracted again after a call for it
    succeeded.  On a list that repeats one name, where every probe asks
    for the same name, this is observable: when the first call
    succeeds, its range decides the answer whatever the later sessions
    hold; when the first call fails and the second succeeds, the range
    of the second call decides it. *)
Theorem cache_successes_only :
  (∀ (srv : Server) (order : RangeOrder) (binlogFiles : list string)
     (targetTime : time.Time),
     ∃ file exactMatch st,
       searchRun srv order binlogFiles targetTime = Done (file, exactMatch, st) ∧
       (∀ srv', sameCalls srv srv' (st_calls st) →
          searchRun srv' order binlogFiles targetTime = Done (file, exactMatch, st)) ∧
       CacheDiscipline srv st)
  ∧
  (∀ (srv : Server) (order : RangeOrder) (a : string) (n : nat)
     (targetTime : time.Time) (r : TimeRange),
     validOrder order →
     outcome srv 0 a = Ok r →
     BinarySearchBinlogs srv order (replicate (S n) a) targetTime
     = Done (a, within targetTime r))
  ∧
  (∀ (srv : Server) (order : RangeOrder) (a : string) (n : nat)
     (targetTime : time.Time) (e : ExtractError) (r : TimeRange),
     validOrder order →
     outcome srv 0 a = Err e → outcome srv 1 a = Ok r →
     BinarySearchBinlogs srv order (replicate (S (S n)) a) targetTime
     = Done (a, within targetTime r)).
Proof.
  split; [|split].
  - intros srv order binlogFiles targetTime.
    destruct (searchRun_tracked srv order binlogFiles targetTime)
      as (file & b & st & Hrun & (_ & _ & Hcache) & _).
    exists file, b, st. split; [done|].
    split; [intros srv' Hsame; by eapply searchRun_same | done].
  - intros srv order a n targetTime r Horder Hok. by apply first_success_decides.
  - intros srv order a n targetTime e r Horder Herr Hok. by eapply failure_not_stored.
Qed.


(** C7 on samples.  Three probes of one name on a server whose later
    sessions would hold the target: the range of the first call
    decides.  Two probes of one name on a server whose first session
    fails: the range of the second call decides. *)
Lemma cache_successes_only_witness :
  BinarySearchBinlogs changingServer elements (replicate 3 "a") (time.Unix 150 0)
  = Done ("a", false) ∧
  BinarySearchBinlogs flakyServer elements (replicate 2 "a") (time.Unix 15 0)
  = Done ("a", true).
Proof.
  destruct cache_successes_only as (_ & Hfirst & Hsecond).
  split.
  - etrans; [apply (Hfirst changingServer elements "a" 2%nat (time.Unix 150 0)
                      (mkRange (time.Unix 10 0) (time.Unix 20 0)))|].
    + exact validOrder_elements.
    + reflexivity.
    + reflexivity.
  - etrans; [apply (Hsecond flakyServer elements "a" 0%nat (time.Unix 15 0)
                      ErrStartSync (mkRange (time.Unix 10 0) (time.Unix 20 0)))|].
    + exact validOrder_elements.
    + reflexivity.
    + reflexivity.
    + reflexivity.
Defined.

(** * Properties of the earlier version *)

Section LegacyExtractor.

Implicit Types (ev : BinlogEvent) (evs : list BinlogEvent) (s : Session).

Lemma legacy_firstLoop_find evs :
  legacy.firstLoop evs
  = (λ p, (Timestamp p.2, drop (S p.1) evs)) <$> firstTimestamped evs.
Proof.
  unfold firstTimestamped.
  induction evs as [|ev evs IH]; [done|]. cbn [legacy.firstLoop list_find].
  destruct (0 <? Timestamp ev)%N eqn:Hpos.
  - apply N.ltb_lt in Hpos. by rewrite decide_True.
  - apply N.ltb_ge in Hpos. rewrite decide_False by lia.
    rewrite IH. by destruct (list_find _ evs) as [[k ev']|].
Qed.

Lemma legacy_lastLoop_last evs (lastTimestamp : N) :
  legacy.lastLoop evs lastTimestamp
  = default lastTimestamp (last (positiveTimestamps evs)).
Proof.
  revert lastTimestamp. induction evs as [|ev evs IH]; intros lastTimestamp; [done|].
  cbn [legacy.lastLoop]. rewrite IH. unfold positiveTimestamps. simpl.
  destruct (0 <? Timestamp ev)%N eqn:Hpos.
  - apply N.ltb_lt in Hpos. rewrite filter_cons_True by done.
    rewrite last_cons. by destruct (last _).
  - apply N.ltb_ge in Hpos. by rewrite filter_cons_False by lia.
Qed.

(** X14. The earlier extractor has no bound: on a stream that opens it
    fails only when no event at all carries a timestamp; otherwise the
    range starts at the first positive timestamp, wherever it comes,
    and ends at the last positive timestamp of the whole stream. *)
Theorem legacy_extraction_range s (binlogFile : string) :
  startSyncOk s = true →
  legacy.GetTimeRangeForBinlog s binlogFile
  = match firstTimestamped (stream s) with
    | None => Err ErrGetEvent
    | Some (k, ev) =>
        Ok (mkRange
              (time.Unix (Z.of_N (Timestamp ev)) 0)
              (time.Unix
                 (Z.of_N (default (Timestamp ev)
                            (last (positiveTimestamps (drop (S k) (stream s))))))
                 0))
    end.
Proof.
  intros Hopen. unfold legacy.GetTimeRangeForBinlog. rewrite Hopen. simpl negb. cbv iota.
  rewrite legacy_firstLoop_find.
  destruct (firstTimestamped (stream s)) as [[k ev]|]; [|done].
  simpl. by rewrite legacy_lastLoop_last.
Qed.

(** X15. The two extractors agree on a stream that opens, has its
    first timestamped event among the first ten events, holds at most
    1000 events after it, and ends before the deadline. *)
Theorem extractors_agree s (binlogFile : string) (k : nat) ev :
  startSyncOk s = true →
  firstTimestamped (stream s) = Some (k, ev) →
  (k < 10)%nat →
  (length (stream s) ≤ S k + 1000)%nat →
  (length (stream s) ≤ deadline s)%nat →
  GetTimeRangeForBinlog s binlogFile = legacy.GetTimeRangeForBinlog s binlogFile.
Proof.
  intros Hopen Hfind Hk Hlen Hdeadline.
  assert ((k < length (stream s))%nat) as Hklen.
  { apply list_find_Some in Hfind as (Hev & _). by eapply lookup_lt_Some. }
  unfold GetTimeRangeForBinlog, legacy.GetTimeRangeForBinlog.
  rewrite Hopen. simpl negb. cbv iota.
  rewrite legacy_firstLoop_find, Hfind.
  apply list_find_Some in Hfind as (Hev & Hpos & Hbefore).
  rewrite (firstPhase_at 10 0 binlogFile (deadline s) (stream s) k ev);
    [|done | lia | done | done |].
  - cbn [fmap option_fmap option_map fst snd]. cbv zeta.
    rewrite lastPhase_last, legacy_lastLoop_last.
    rewrite take_ge; [done|]. rewrite length_drop. lia.
  - intros j ev' Hj Hev'. specialize (Hbefore j ev' Hev' Hj). lia.
Qed.

End LegacyExtractor.

Section LegacySearch.

Variables (srv : Server) (binlogFiles : list string) (targetTime : time.Time).

Implicit Types (st : SearchState) (file : string) (r : TimeRange).

(** The ways an iteration of the earlier loop can go. *)
Lemma legacy_loopBody_cases st :
  InBounds binlogFiles st → st_left st ≤ st_right st →
  ∃ file, binlogFiles !! Z.to_nat (midpoint st) = Some file ∧
    ((∃ e, legacy.extract srv (st_calls st) file = Err e ∧
        legacy.loopBody srv binlogFiles targetTime st
        = if midpoint st >? 0
          then Continue (setRight (legacy.noteCall st file) (midpoint st - 1))
          else Continue (setLeft (legacy.noteCall st file) (midpoint st + 1)))
     ∨ (∃ r, legacy.extract srv (st_calls st) file = Ok r ∧
          ((tr_start r ≤ targetTime ≤ tr_end r ∧
            legacy.loopBody srv binlogFiles targetTime st
            = Return file true (legacy.noteCall st file))
           ∨ (targetTime < tr_start r ∧
              legacy.loopBody srv binlogFiles targetTime st
              = Continue (setRight (legacy.noteCall st file) (midpoint st - 1)))
           ∨ (tr_start r ≤ targetTime ∧ tr_end r < targetTime ∧
              legacy.loopBody srv binlogFiles targetTime st
              = Continue (setLeft (legacy.noteCall st file) (midpoint st + 1)))))).
Proof.
  intros [Hlo Hhi] Hle.
  pose proof (midpoint_between st Hle) as Hmid.
  destruct (index_in_range binlogFiles (midpoint st)) as (file & Hidx & Hfile); [lia|].
  exists file. split; [done|].
  unfold legacy.loopBody. cbv zeta. rewrite Hidx.
  destruct (legacy.extract srv (st_calls st) file) as [r|e]; [right | left; by eauto].
  exists r. split; [done|].
  destruct (within targetTime r) eqn:Hin.
  - left. by apply within_spec in Hin.
  - assert (¬ (tr_start r ≤ targetTime ≤ tr_end r)) as Hout.
    { rewrite <- within_spec. congruence. }
    unfold time.Before.
    destruct (targetTime <? tr_start r) eqn:Hlt.
    + apply Z.ltb_lt in Hlt. right; left. done.
    + apply Z.ltb_ge in Hlt. right; right. split; [done | split; [lia | done]].
Qed.

(** The proof rule of the earlier loop. *)
Lemma legacy_searchLoop_rule (I : SearchState → Prop)
    (Q : option (string * bool) * SearchState → Prop) :
  (∀ st, I st → st_left st ≤ st_right st →
     match legacy.loopBody srv binlogFiles targetTime st with
     | Continue st' => I st' ∧ (loopMeasure st' < loopMeasure st)%nat
     | Break st' => Q (None, st')
     | Return file exactMatch st' => Q (Some (file, exactMatch), st')
     | Panic => False
     end) →
  (∀ st, I st → st_right st < st_left st → Q (None, st)) →
  ∀ fuel st, I st → (loopMeasure st ≤ fuel)%nat →
    ∃ out, legacy.searchLoop fuel srv binlogFiles targetTime st = Done out ∧ Q out.
Proof.
  intros Hstep Hexit fuel.
  induction fuel as [|fuel IH]; intros st HI Hfuel; simpl.
  - destruct (st_left st <=? st_right st) eqn:Hcmp.
    + apply Z.leb_le in Hcmp. unfold loopMeasure in Hfuel. lia.
    + apply Z.leb_gt in Hcmp. eauto.
  - destruct (st_left st <=? st_right st) eqn:Hcmp.
    + apply Z.leb_le in Hcmp. specialize (Hstep st HI Hcmp).
      destruct (legacy.loopBody srv binlogFiles targetTime st) as [st'|st'|file b st'|];
        [|by eauto..|done].
      destruct Hstep as [HI' Hdec]. apply IH; [done | lia].
    + apply Z.leb_gt in Hcmp. eauto.
Qed.

(** Whatever the extractions give, the earlier loop ends, with a file
    of the list or with [left] between 0 and the length of the list. *)
Lemma legacy_searchLoop_safe (fuel : nat) st :
  InBounds binlogFiles st → st_left st ≤ st_right st + 1 →
  (loopMeasure st ≤ fuel)%nat →
  ∃ out, legacy.searchLoop fuel srv binlogFiles targetTime st = Done out ∧
    match out.1 with
    | Some (file, exactMatch) => file ∈ binlogFiles ∧ exactMatch = true
    | None => 0 ≤ st_left out.2 ≤ Z.of_nat (length binlogFiles)
    end.
Proof.
  intros Hb Hleft Hfuel.
  apply (legacy_searchLoop_rule
    (λ st, InBounds binlogFiles st ∧ st_left st ≤ st_right st + 1)); [| |done..].
  - clear st Hb Hleft Hfuel. intros st [[Hlo Hhi] Hleft] Hle.
    pose proof (midpoint_between st Hle) as Hmid.
    destruct (legacy_loopBody_cases st) as (file & Hfile & Hcases); [done..|].
    destruct Hcases as [(e & _ & ->) | (r & _ & [[_ ->] | [[_ ->] | (_ & _ & ->)]])].
    + destruct (midpoint st >? 0); (split; [split; [split|]; simpl; lia|]);
        unfold loopMeasure; simpl; lia.
    + simpl. split; [by eapply list_elem_of_lookup_2 | done].
    + split; [split; [split|]; simpl; lia|]. unfold loopMeasure; simpl; lia.
    + split; [split; [split|]; simpl; lia|]. unfold loopMeasure; simpl; lia.
  - intros st0 [[Hlo Hhi] Hleft0] Hexit. simpl. lia.
Qed.

End LegacySearch.

(** X16. Provided every extractor call returns (a stream of the model
    is finite and ends with a [GetEvent] error, which is the only way
    the unbounded loops of the earlier extractor end; on a stream that
    blocks the earlier search does not return), the earlier search
    never indexes outside the list, [binlogFiles[left-1]] included: it
    answers the empty name with [exactMatch] false for the empty list,
    and an element of the list otherwise. *)
Theorem legacy_result_in_list (srv : Server) (binlogFiles : list string)
    (targetTime : time.Time) :
  ∃ file exactMatch,
    legacy.BinarySearchBinlogs srv binlogFiles targetTime = Done (file, exactMatch) ∧
    (binlogFiles = [] → file = "" ∧ exactMatch = false) ∧
    (binlogFiles ≠ [] → file ∈ binlogFiles).
Proof.
  unfold legacy.BinarySearchBinlogs, legacy.searchRun.
  destruct binlogFiles as [|f0 [|f1 rest]] eqn:Hfiles.
  - exists "", false. done.
  - cbn [length Nat.eqb]. rewrite index_head.
    destruct (legacy.extract srv [] f0) as [r|e].
    + destruct (within targetTime r); eexists _, _; (split; [done|]);
        (split; [done|]); intros _; apply list_elem_of_here.
    + eexists _, _. split; [done|]. split; [done|]. intros _. apply list_elem_of_here.
  - rewrite <- Hfiles.
    assert ((2 ≤ length binlogFiles)%nat) as Hlen by (rewrite Hfiles; simpl; lia).
    destruct (legacy_searchLoop_safe srv binlogFiles targetTime (length binlogFiles)
                (initialState binlogFiles)) as ([out st] & Hloop & Hout).
    { split; simpl; lia. }
    { simpl. lia. }
    { unfold loopMeasure. simpl. lia. }
    destruct (length binlogFiles) as [|[|n]] eqn:Hn; [lia | lia |].
    cbn [Nat.eqb]. rewrite Hloop. simpl in Hout.
    assert (binlogFiles ≠ []) as Hne by (by rewrite Hfiles).
    destruct out as [[f b]|].
    + destruct Hout as [Hin ->]. by exists f, true.
    + unfold legacy.fallback.
      destruct (st_left st >? 0) eqn:Hpos.
      * apply Z.gtb_lt in Hpos.
        destruct (index_in_range binlogFiles (st_left st - 1)) as (f & -> & Hf); [lia|].
        exists f, false. split; [done|]. split; [done|].
        intros _. by eapply list_elem_of_lookup_2.
      * destruct (index_in_range binlogFiles 0) as (f & -> & Hf); [lia|].
        exists f, false. split; [done|]. split; [done|].
        intros _. by eapply list_elem_of_lookup_2.
Qed.

(** The earlier search from the loop, for two files or more. *)
Lemma legacy_searchRun_loop (srv : Server) (binlogFiles : list string)
    (targetTime : time.Time) out :
  (2 ≤ length binlogFiles)%nat →
  legacy.searchLoop (length binlogFiles) srv binlogFiles targetTime
    (initialState binlogFiles) = Done out →
  legacy.BinarySearchBinlogs srv binlogFiles targetTime
  = match out.1 with
    | Some (file, exactMatch) => Done (file, exactMatch)
    | None => legacy.fallback binlogFiles out.2
    end.
Proof.
  intros Hlen Hloop. unfold legacy.BinarySearchBinlogs, legacy.searchRun.
  destruct (length binlogFiles) as [|[|n]] eqn:Hn; [lia | lia |].
  cbn [Nat.eqb]. rewrite Hloop. destruct out as [[[f b]|] st]; simpl; [done|].
  by destruct (legacy.fallback binlogFiles st) as [[f b]| |].
Qed.

Lemma legacy_single (srv : Server) (S : string) (targetTime : time.Time) :
  legacy.BinarySearchBinlogs srv [S] targetTime
  = match legacy.GetTimeRangeForBinlog (srv 0%nat S) S with
    | Err _ => Done (S, false)
    | Ok r => Done (S, within targetTime r)
    end.
Proof.
  unfold legacy.BinarySearchBinlogs, legacy.searchRun, legacy.extract.
  cbn [length Nat.eqb]. rewrite index_head. simpl length.
  destruct (legacy.GetTimeRangeForBinlog (srv 0%nat S) S) as [r|e]; [|done].
  by destruct (within targetTime r).
Qed.


(** X18. When every extraction fails, the earlier search on a
    non-empty list returns the first file with [exactMatch] false. *)
Theorem legacy_all_extractions_fail (srv : Server) (binlogFiles : list string)
    (targetTime : time.Time) (first : string) :
  (∀ k file, file ∈ binlogFiles →
     ∃ e, legacy.GetTimeRangeForBinlog (srv k file) file = Err e) →
  binlogFiles !! 0%nat = Some first →
  legacy.BinarySearchBinlogs srv binlogFiles targetTime = Done (first, false).
Proof.
  intros Hfail Hfirst.
  assert ((0 < length binlogFiles)%nat) as Hlen by (by eapply lookup_lt_Some).
  destruct (decide (length binlogFiles = 1%nat)) as [Hone | Hmore].
  - destruct binlogFiles as [|f0 [|f1 rest]]; [done | | done].
    injection Hfirst as ->.
    destruct (Hfail 0%nat first) as [e He]; [apply list_elem_of_here|].
    by rewrite legacy_single, He.
  - destruct (legacy_searchLoop_rule srv binlogFiles targetTime
                (λ st, InBounds binlogFiles st ∧ st_left st ≤ 1)
                (λ out, out.1 = None ∧ 0 ≤ st_left out.2 ≤ 1)
                ) with (fuel := length binlogFiles) (st := initialState binlogFiles)
      as ([out st] & Hloop & Hout & Hleft).
    + intros st [Hb Hleft] Hle. pose proof Hb as [Hlo Hhi].
      pose proof (midpoint_between st Hle) as Hmid.
      destruct (legacy_loopBody_cases srv binlogFiles targetTime st Hb Hle)
        as (f & Hf & Hcases).
      destruct (Hfail (length (st_calls st)) f) as [e He].
      { by eapply list_elem_of_lookup_2. }
      unfold legacy.extract in Hcases. rewrite He in Hcases.
      destruct Hcases as [(e' & _ & ->) | (r & Hr & _)]; [|done].
      destruct (midpoint st >? 0) eqn:Hpos.
      * apply Z.gtb_lt in Hpos.
        split; [split; [split|]; simpl; lia|]. unfold loopMeasure; simpl; lia.
      * rewrite Z.gtb_ltb in Hpos. apply Z.ltb_ge in Hpos.
        split; [split; [split|]; simpl; lia|]. unfold loopMeasure; simpl; lia.
    + intros st [[Hlo Hhi] Hleft] Hexit. simpl. split; [done | lia].
    + split; [split; simpl; lia | simpl; lia].
    + unfold loopMeasure. simpl. lia.
    + rewrite (legacy_searchRun_loop srv binlogFiles targetTime (out, st));
        [|lia | done].
      simpl in *. rewrite Hout. unfold legacy.fallback.
      destruct (st_left st >? 0) eqn:Hpos.
      * apply Z.gtb_lt in Hpos. replace (st_left st - 1) with 0 by lia.
        unfold index. change (0 <? 0) with false. cbv iota.
        change (Z.to_nat 0) with 0%nat. by rewrite Hfirst.
      * unfold index. change (0 <? 0) with false. cbv iota.
        change (Z.to_nat 0) with 0%nat. by rewrite Hfirst.
Qed.

(** One unfolding of the earlier loop. *)
Lemma legacy_searchLoop_S (fuel : nat) (srv : Server) (binlogFiles : list string)
    (targetTime : time.Time) (st : SearchState) :
  legacy.searchLoop (S fuel) srv binlogFiles targetTime st
  = if st_left st <=? st_right st then
      match legacy.loopBody srv binlogFiles targetTime st with
      | Continue st' => legacy.searchLoop fuel srv binlogFiles targetTime st'
      | Break st' => Done (None, st')
      | Return file exactMatch st' => Done (Some (file, exactMatch), st')
      | Panic => IndexOutOfRange
      end
    else Done (None, st).
Proof. done. Qed.

Section ReusedSyncer.

Variables (srv : Server) (binlogFiles : list string) (targetTime : time.Time).

Hypothesis Hlater : ∀ k file, (1 ≤ k)%nat → startSyncOk (srv k file) = false.

Implicit Types (st : SearchState).

(** Once a call has been made, every iteration fails to extract; it
    moves [right] when the middle is not the first index and [left]
    otherwise. *)
Lemma reused_step st :
  InBounds binlogFiles st → st_left st ≤ st_right st →
  (1 ≤ length (st_calls st))%nat →
  ∃ file,
    legacy.loopBody srv binlogFiles targetTime st
    = if midpoint st >? 0
      then Continue (setRight (legacy.noteCall st file) (midpoint st - 1))
      else Continue (setLeft (legacy.noteCall st file) (midpoint st + 1)).
Proof.
  intros Hb Hle Hcalls.
  destruct (legacy_loopBody_cases srv binlogFiles targetTime st Hb Hle)
    as (file & _ & [(e & _ & Hbody) | (r & Hext & _)]).
  - by exists file.
  - unfold legacy.extract, legacy.GetTimeRangeForBinlog in Hext.
    by rewrite (Hlater _ file Hcalls) in Hext.
Qed.

(** After a first call that sent the search to the left, the loop ends
    with [left] at 0 or 1. *)
Lemma reused_left (fuel : nat) st :
  InBounds binlogFiles st → (1 ≤ length (st_calls st))%nat → st_left st ≤ 1 →
  (loopMeasure st ≤ fuel)%nat →
  ∃ out, legacy.searchLoop fuel srv binlogFiles targetTime st = Done out ∧
         out.1 = None ∧ 0 ≤ st_left out.2 ≤ 1.
Proof.
  intros Hb Hcalls Hleft Hfuel.
  apply (legacy_searchLoop_rule srv binlogFiles targetTime
    (λ st, InBounds binlogFiles st ∧ (1 ≤ length (st_calls st))%nat ∧ st_left st ≤ 1));
    [| |done..].
  - clear st Hb Hcalls Hleft Hfuel. intros st (Hb & Hcalls & Hleft) Hle.
    pose proof Hb as [Hlo Hhi].
    pose proof (midpoint_between st Hle) as Hmid.
    destruct (reused_step st Hb Hle Hcalls) as (file & ->).
    destruct (midpoint st >? 0) eqn:Hpos.
    + apply Z.gtb_lt in Hpos.
      split; [|unfold loopMeasure; simpl; lia].
      split; [split; simpl; lia|]. split; [simpl; rewrite length_app; simpl; lia|].
      simpl. lia.
    + rewrite Z.gtb_ltb in Hpos. apply Z.ltb_ge in Hpos.
      split; [|unfold loopMeasure; simpl; lia].
      split; [split; simpl; lia|]. split; [simpl; rewrite length_app; simpl; lia|].
      simpl. lia.
  - intros st0 ([Hlo Hhi] & _ & Hleft0) _. simpl. split; [done | lia].
Qed.

(** After a first call that sent the search to the right, the loop
    ends with [left] where that call put it. *)
Lemma reused_right (fuel : nat) st (l : Z) :
  InBounds binlogFiles st → (1 ≤ length (st_calls st))%nat →
  st_left st = l → 1 ≤ l →
  (loopMeasure st ≤ fuel)%nat →
  ∃ out, legacy.searchLoop fuel srv binlogFiles targetTime st = Done out ∧
         out.1 = None ∧ st_left out.2 = l.
Proof.
  intros Hb Hcalls Hleft Hl Hfuel.
  apply (legacy_searchLoop_rule srv binlogFiles targetTime
    (λ st, InBounds binlogFiles st ∧ (1 ≤ length (st_calls st))%nat ∧ st_left st = l));
    [| |done..].
  - clear st Hb Hcalls Hleft Hfuel. intros st (Hb & Hcalls & Hleft) Hle.
    pose proof Hb as [Hlo Hhi].
    pose proof (midpoint_between st Hle) as Hmid.
    destruct (reused_step st Hb Hle Hcalls) as (file & ->).
    replace (midpoint st >? 0) with true by (symmetry; apply Z.gtb_lt; lia).
    split; [|unfold loopMeasure; simpl; lia].
    split; [split; simpl; lia|]. split; [simpl; rewrite length_app; simpl; lia|].
    done.
  - intros st0 (_ & _ & Hleft0) _. done.
Qed.

End ReusedSyncer.

(** The middle index of the first iteration. *)
Lemma midpoint_initial (binlogFiles : list string) :
  binlogFiles ≠ [] →
  midpoint (initialState binlogFiles) = Z.of_nat ((length binlogFiles - 1) / 2).
Proof.
  intros Hne. unfold midpoint, initialState. cbn [st_left st_right].
  assert ((0 < length binlogFiles)%nat) by (destruct binlogFiles; [done | simpl; lia]).
  rewrite Z.sub_0_r, Z.add_0_l, Z.quot_div_nonneg by lia.
  rewrite Nat2Z.inj_div. f_equal. lia.
Qed.

(** The earlier search when only the first call can open a stream. *)
Lemma reused_syncer_core (srv : Server) (binlogFiles : list string)
    (targetTime : time.Time) (first midFile : string) (r : TimeRange) :
  (∀ k file, (1 ≤ k)%nat → startSyncOk (srv k file) = false) →
  binlogFiles !! 0%nat = Some first →
  binlogFiles !! ((length binlogFiles - 1) / 2)%nat = Some midFile →
  legacy.GetTimeRangeForBinlog (srv 0%nat midFile) midFile = Ok r →
  legacy.BinarySearchBinlogs srv binlogFiles targetTime
  = Done (if within targetTime r then (midFile, true)
          else if time.Before targetTime (tr_start r) then (first, false)
          else (midFile, false)).
Proof.
  intros Hlater Hfirst Hmidfile Hok.
  assert ((0 < length binlogFiles)%nat) as Hlen by (by eapply lookup_lt_Some).
  assert (binlogFiles ≠ []) as Hne by (intros ->; simpl in Hlen; lia).
  destruct (decide (length binlogFiles = 1%nat)) as [Hone | Hmore].
  - destruct binlogFiles as [|f0 [|f1 rest]]; [done | | done].
    simpl in Hmidfile. injection Hfirst as ->. injection Hmidfile as ->.
    rewrite legacy_single, Hok.
    destruct (within targetTime r); [done|]. by destruct (time.Before _ _).
  - set (st0 := initialState binlogFiles).
    assert (InBounds binlogFiles st0) as Hb0 by (split; simpl; lia).
    assert (st_left st0 ≤ st_right st0) as Hle0 by (simpl; lia).
    pose proof (midpoint_initial binlogFiles Hne) as Hmid0. fold st0 in Hmid0.
    set (m := ((length binlogFiles - 1) / 2)%nat) in *.
    assert ((m < length binlogFiles)%nat) as Hm by (by eapply lookup_lt_Some).
    destruct (legacy_loopBody_cases srv binlogFiles targetTime st0 Hb0 Hle0)
      as (g & Hg & Hcases).
    rewrite Hmid0, Nat2Z.id, Hmidfile in Hg. injection Hg as <-.
    unfold legacy.extract in Hcases. simpl in Hcases. rewrite Hok in Hcases.
    destruct Hcases as [(e & He & _) | (r' & Hr' & Hcases)]; [done|].
    injection Hr' as <-.
    assert (∃ out,
              legacy.searchLoop (S (length binlogFiles - 1)) srv binlogFiles targetTime st0
              = Done out ∧
              if within targetTime r then out.1 = Some (midFile, true)
              else if time.Before targetTime (tr_start r)
                   then out.1 = None ∧ 0 ≤ st_left out.2 ≤ 1
                   else out.1 = None ∧ st_left out.2 = Z.of_nat m + 1) as (out & Hloop & Hout).
    { rewrite legacy_searchLoop_S.
      replace (st_left st0 <=? st_right st0) with true by (symmetry; apply Z.leb_le; lia).
      destruct Hcases as [[Hw ->] | [[Hw ->] | (Hw1 & Hw2 & ->)]].
      - apply within_spec in Hw. rewrite Hw. by eexists.
      - assert (within targetTime r = false) as ->.
        { apply not_true_is_false. rewrite within_spec. lia. }
        unfold time.Before.
        replace (targetTime <? tr_start r) with true by (symmetry; apply Z.ltb_lt; lia).
        apply reused_left; [done | | | |].
        + split; simpl; lia.
        + simpl. lia.
        + simpl. lia.
        + unfold loopMeasure. simpl. lia.
      - assert (within targetTime r = false) as ->.
        { apply not_true_is_false. rewrite within_spec. lia. }
        unfold time.Before.
        replace (targetTime <? tr_start r) with false by (symmetry; apply Z.ltb_ge; lia).
        apply reused_right; [done | | | | |].
        + split; simpl; lia.
        + simpl. lia.
        + simpl. lia.
        + lia.
        + unfold loopMeasure. simpl. lia. }
    replace (S (length binlogFiles - 1)) with (length binlogFiles) in Hloop by lia.
    rewrite (legacy_searchRun_loop srv binlogFiles targetTime out); [|lia | done].
    destruct (within targetTime r); [by rewrite Hout|].
    unfold legacy.fallback, index.
    destruct (time.Before targetTime (tr_start r)).
    + destruct Hout as [-> Hleft].
      destruct (st_left out.2 >? 0) eqn:Hpos.
      * apply Z.gtb_lt in Hpos. replace (st_left out.2 - 1) with 0 by lia.
        change (0 <? 0) with false. cbv iota. change (Z.to_nat 0) with 0%nat.
        by rewrite Hfirst.
      * change (0 <? 0) with false. cbv iota. change (Z.to_nat 0) with 0%nat.
        by rewrite Hfirst.
    + destruct Hout as [-> Hleft]. rewrite Hleft.
      replace (Z.of_nat m + 1 >? 0) with true by (symmetry; apply Z.gtb_lt; lia).
      replace (Z.of_nat m + 1 - 1) with (Z.of_nat m) by lia.
      replace (Z.of_nat m <? 0) with false by (symmetry; apply Z.ltb_ge; lia).
      by rewrite Nat2Z.id, Hmidfile.
Qed.

(** X17. The earlier search passes one syncer to every extraction and
    the earlier extractor never closes it.  When for that reason only
    the first [StartSync] opens a stream, the search looks at the file
    in the middle alone: it returns that file with [exactMatch] true
    when its range holds the target, the first file when the target
    lies before its start, and the file in the middle again, with
    [exactMatch] false, when the target lies after its end. *)
Theorem legacy_reused_syncer (srv : Server) (binlogFiles : list string)
    (targetTime : time.Time) (first midFile : string) (r : TimeRange) :
  (∀ k file, (1 ≤ k)%nat → startSyncOk (srv k file) = false) →
  binlogFiles !! 0%nat = Some first →
  binlogFiles !! ((length binlogFiles - 1) / 2)%nat = Some midFile →
  legacy.GetTimeRangeForBinlog (srv 0%nat midFile) midFile = Ok r →
  legacy.BinarySearchBinlogs srv binlogFiles targetTime
  = Done (if within targetTime r then (midFile, true)
          else if time.Before targetTime (tr_start r) then (first, false)
          else (midFile, false)).
Proof. apply reused_syncer_core. Qed.

(** * The two versions side by side *)




(** * The earlier version on the sample data *)

(** X14 on a stream whose third event is the first with a timestamp. *)
Lemma legacy_extraction_range_witness :
  legacy.GetTimeRangeForBinlog rotateSession "mysql-bin.000001"
  = Ok (mkRange (time.Unix 1700000000 0) (time.Unix 1700000300 0)).
Proof.
  etrans; [apply (legacy_extraction_range rotateSession "mysql-bin.000001")|];
    reflexivity.
Defined.

(** X15 on the same stream. *)
Lemma extractors_agree_witness :
  GetTimeRangeForBinlog rotateSession "mysql-bin.000001"
  = legacy.GetTimeRangeForBinlog rotateSession "mysql-bin.000001".
Proof.
  apply (extractors_agree rotateSession "mysql-bin.000001" 2
           (mkEvent 1700000000 GenericEvent)).
  - reflexivity.
  - reflexivity.
  - lia.
  - simpl. lia.
  - simpl. lia.
Defined.

(** X17 on the scenario of the specification: the earlier search looks
    at seg2 alone and answers seg1 for a target inside seg1. *)
Lemma legacy_reused_syncer_witness :
  legacy.BinarySearchBinlogs (reusedSyncer server3) files3 (time.Unix 150 0)
  = Done ("seg1", false).
Proof.
  etrans;
    [apply (legacy_reused_syncer (reusedSyncer server3) files3 (time.Unix 150 0)
              "seg1" "seg2" (range3 1))|].
  - intros k file Hk. unfold reusedSyncer.
    by replace (k =? 0)%nat with false by (symmetry; apply Nat.eqb_neq; lia).
  - reflexivity.
  - reflexivity.
  - reflexivity.
  - reflexivity.
Defined.

(** X18 on the scenario of the specification with an unreachable server. *)
Lemma legacy_all_extractions_fail_witness :
  legacy.BinarySearchBinlogs failingServer files3 (time.Unix 250 0)
  = Done ("seg1", false).
Proof.
  apply (legacy_all_extractions_fail failingServer files3 (time.Unix 250 0) "seg1").
  - intros k file _. exists ErrStartSync. reflexivity.
  - reflexivity.
Defined.


